(** * X-TO-FBX: a shallow embedding of the converter's core routines

    The development follows the C++ sources of the converter:

    - [Float32]   : the IEEE-754 binary32 arithmetic behind the C++ [float];
    - [StdLib]    : the few routines of the C++ standard library the code
                    calls ([std::sort], [std::string::find], [substr],
                    [std::getline], [std::stoi]);
    - [Data]      : include/XFileData.h and XMeshData::GetValidationErrors;
    - [Timing]    : AnimationTimingCorrector;
    - [Reader]    : BinaryReader;
    - [Decompressor], [TextParser], [Facade] : the parts of
                    BinaryXFileParser.cpp / XFileParser.cpp used below;
    - [TimingChecks], [ReaderQueries] : the remaining queries of the timing
                    corrector and of the reader;
    - [Compression], [Detection], [PatternExtraction] : the compression
                    signatures, the LZ77 decoder, the extraction by pattern,
                    format detection and the file header;
    - [TextUtils], [TextFormat], [Pieces], [MeshLines] : XFileUtils and the
                    text parser from [ParseFromString] down;
    - [Lifecycle] : XFileParser::ParseFile and the other public functions
                    of the text parser, and the states they lead to;
    - [Enhanced]  : EnhancedXFileParser::ParseFromData;
    - [CommandLine] : the option parsing of main.cpp.

    Logging calls have no influence on any returned value and are left out. *)

From Stdlib Require Import ZArith List Bool String Ascii Lia.
From Stdlib Require Import Floats.SpecFloat DecimalString.
Import ListNotations.

Open Scope Z_scope.

(* ------------------------------------------------------------------------- *)
(** ** binary32 arithmetic *)

Module Float32.

Definition prec : Z := 24.
Definition emax : Z := 128.

(** A C++ [float]: sign, 24-bit significand, exponent. *)
Definition float : Type := spec_float.

(** The float nearest to the integer mantissa [m] scaled by [2^e]. *)
Definition of_scaled (m e : Z) : float := binary_normalize prec emax m e false.
Definition of_int (n : Z) : float := of_scaled n 0.

Definition fadd : float -> float -> float := SFadd prec emax.
Definition fsub : float -> float -> float := SFsub prec emax.
Definition fmul : float -> float -> float := SFmul prec emax.
Definition fdiv : float -> float -> float := SFdiv prec emax.
Definition fabs : float -> float := SFabs.

(** [a < b], [a <= b], [a == b]; each is false as soon as one side is NaN. *)
Definition flt : float -> float -> bool := SFltb.
Definition fle : float -> float -> bool := SFleb.
Definition feq : float -> float -> bool := SFeqb.
(** [a > b] and [a >= b] *)
Definition fgt (a b : float) : bool := SFltb b a.
Definition fge (a b : float) : bool := SFleb b a.

(** A decimal literal [num/den] with both parts exactly representable: the
    correctly rounded quotient is the float the compiler picks for it. *)
Definition literal (num den : Z) : float := fdiv (of_int num) (of_int den).

Definition f0 : float := of_int 0.
Definition f1 : float := of_int 1.
Definition f2 : float := of_int 2.
Definition f4800 : float := of_int 4800.

(** [std::min(a, b)] is [(b < a) ? b : a]. *)
Definition fmin (a b : float) : float := if flt b a then b else a.

(** Reinterpretation of a bit pattern as a floating-point value ([memcpy]
    from the unsigned integer of the same width), for a format with [mw]
    mantissa bits and [ew] exponent bits; NaN payloads are not kept by
    [spec_float]. *)
Definition decode (mw ew w : Z) : spec_float :=
  let s := Z.testbit w (mw + ew) in
  let e := Z.land (Z.shiftr w mw) (Z.ones ew) in
  let m := Z.land w (Z.ones mw) in
  let bias := Z.ones (ew - 1) in
  if e =? 0 then
    match m with
    | Zpos p => S754_finite s p (1 - bias - mw)
    | _ => S754_zero s
    end
  else if e =? Z.ones ew then
    (if m =? 0 then S754_infinity s else S754_nan)
  else
    match m + 2 ^ mw with
    | Zpos p => S754_finite s p (e - bias - mw)
    | _ => S754_nan
    end.

Definition of_bits (w : Z) : float := decode 23 8 w.

(** A C++ [double], used only as the result of [ReadDouble]. *)
Definition double : Type := spec_float.
Definition double_of_bits (w : Z) : double := decode 52 11 w.

End Float32.

Import Float32.

(* ------------------------------------------------------------------------- *)
(** ** Routines of the C++ standard library used by the sources *)

Module StdLib.

(** [size_t] is 64 bits wide; sums and differences of sizes wrap around. *)
Definition SIZE_MODULUS : Z := 2 ^ 64.
Definition size_add (a b : Z) : Z := (a + b) mod SIZE_MODULUS.
Definition size_sub (a b : Z) : Z := (a - b) mod SIZE_MODULUS.

Section Sort.
Context {A : Type}.
Variable comp : A -> A -> bool.

(** [std::sort] as the insertion sort libstdc++ runs on ranges of at most
    sixteen elements (the candidate rates are ten or eleven); on longer
    ranges the library partitions first, which for an ordering such as [<]
    on numbers leads to the same sequence up to the order of equal items.
    The sorted prefix is kept reversed, so its head is the element just left
    of the one being inserted. *)
Fixpoint unguarded_linear_insert (val : A) (rprefix : list A) : list A :=
  match rprefix with
  | [] => [val]
  | next :: rest =>
      if comp val next then next :: unguarded_linear_insert val rest
      else val :: rprefix
  end.

Definition insertion_step (rprefix : list A) (val : A) : list A :=
  match rev rprefix with
  | [] => [val]
  | first :: _ =>
      if comp val first then rprefix ++ [val]
      else unguarded_linear_insert val rprefix
  end.

Definition sort (l : list A) : list A :=
  match l with
  | [] => []
  | x :: xs => rev (fold_left insertion_step xs [x])
  end.
End Sort.

(** *** [std::vector<uint8_t>] and [std::string] built from raw bytes:
    a list of byte values in [0, 256) *)

Definition bytes : Type := list Z.

Definition chars (s : string) : bytes :=
  map (fun c => Z.of_N (N_of_ascii c)) (list_ascii_of_string s).

Fixpoint starts_with (needle hay : bytes) : bool :=
  match needle, hay with
  | [], _ => true
  | _ :: _, [] => false
  | n :: needle', h :: hay' => (n =? h) && starts_with needle' hay'
  end.

(** [hay.find(needle)]: the first index at which [needle] occurs, counted
    from [i]; [None] is [npos]. *)
Fixpoint find_from (needle hay : bytes) (i : nat) : option nat :=
  if starts_with needle hay then Some i
  else match hay with
       | [] => None
       | _ :: hay' => find_from needle hay' (S i)
       end.

Definition find (needle hay : bytes) : option nat := find_from needle hay 0.

(** *** [std::string] holding text *)

Definition npos : Z := SIZE_MODULUS - 1.

Definition size (s : string) : Z := Z.of_nat (String.length s).

(** What goes wrong in a string operation: an index outside the string
    (undefined behaviour in C++), the [std::out_of_range] of [substr], or
    a loop of the model left before its end. *)
Inductive fault := OutOfBoundsAccess | SubstrOutOfRange | FuelExhausted.

Inductive checked (A : Type) :=
| Ok (a : A)
| Fault (f : fault).
Arguments Ok {A} a.
Arguments Fault {A} f.

Definition and_then {A B : Type} (m : checked A) (k : A -> checked B) : checked B :=
  match m with
  | Ok a => k a
  | Fault f => Fault f
  end.

Fixpoint mem_char (c : ascii) (set : string) : bool :=
  match set with
  | EmptyString => false
  | String d set' => Ascii.eqb c d || mem_char c set'
  end.

Fixpoint find_first_not_of_from (set s : string) (i : Z) : Z :=
  match s with
  | EmptyString => npos
  | String c s' => if mem_char c set then find_first_not_of_from set s' (i + 1) else i
  end.

Definition find_first_not_of (set s : string) : Z := find_first_not_of_from set s 0.

Fixpoint find_last_not_of_from (set s : string) (i last : Z) : Z :=
  match s with
  | EmptyString => last
  | String c s' =>
      find_last_not_of_from set s' (i + 1) (if mem_char c set then last else i)
  end.

Definition find_last_not_of (set s : string) : Z := find_last_not_of_from set s 0 npos.

(** [s.substr(pos, len)]: throws when [pos > size()], else the characters
    from [pos] on, at most [len] of them. *)
Definition substr (s : string) (pos len : Z) : checked string :=
  if pos >? size s then Fault SubstrOutOfRange
  else Ok (String.substring (Z.to_nat pos) (Z.to_nat (Z.min len (size s - pos))) s).

(** [s.front()] and [s.back()] index the string without any check. *)
Definition front (s : string) : checked ascii :=
  match s with
  | EmptyString => Fault OutOfBoundsAccess
  | String c _ => Ok c
  end.

Fixpoint back (s : string) : checked ascii :=
  match s with
  | EmptyString => Fault OutOfBoundsAccess
  | String c EmptyString => Ok c
  | String _ s' => back s'
  end.

Fixpoint pop_back (s : string) : string :=
  match s with
  | EmptyString => EmptyString
  | String _ EmptyString => EmptyString
  | String c s' => String c (pop_back s')
  end.

Definition empty (s : string) : bool :=
  match s with EmptyString => true | _ => false end.

(** *** [std::stringstream] read with [std::getline] *)

Record stringstream := mkStream {
  buffer : string;
  eofbit : bool;
  failbit : bool
}.

Definition open_stream (content : string) : stringstream := mkStream content false false.

(** The characters before the first [delim], and what follows it if there
    is one. *)
Fixpoint split_at (delim : ascii) (s : string) : string * option string :=
  match s with
  | EmptyString => (EmptyString, None)
  | String c s' =>
      if Ascii.eqb c delim then (EmptyString, Some s')
      else let '(tok, rest) := split_at delim s' in (String c tok, rest)
  end.

(** [std::getline(ss, token, delim)]: whether the stream is still usable
    afterwards, the new value of [token], the stream.  A stream that is
    not good fails at once and leaves [token] alone; otherwise [token] is
    cleared and filled up to the delimiter (which is consumed) or to the
    end of the input, and reading nothing at all sets [failbit]. *)
Definition getline (ss : stringstream) (token : string) (delim : ascii)
  : bool * string * stringstream :=
  if eofbit ss || failbit ss then (false, token, mkStream (buffer ss) (eofbit ss) true)
  else
    match split_at delim (buffer ss) with
    | (tok, Some rest) => (true, tok, mkStream rest false false)
    | (tok, None) =>
        if empty tok then (false, tok, mkStream EmptyString true true)
        else (true, tok, mkStream EmptyString true false)
    end.

(** *** [std::stoi] *)

(** [isspace] in the C locale, on the values of an [unsigned char]: the
    six blanks, and nothing from 0x80 up.  The library calls it that way
    inside [std::stoi].  A caller that passes a plain [char] is within the
    function's domain only below 0x80, see [TextUtils.seven_bit]. *)
Definition isspace (c : ascii) : bool :=
  let n := nat_of_ascii c in
  Nat.eqb n 32 || (Nat.leb 9 n && Nat.leb n 13).

Definition digit_value (c : ascii) : option Z :=
  let n := nat_of_ascii c in
  if Nat.leb 48 n && Nat.leb n 57 then Some (Z.of_nat n - 48) else None.

Fixpoint skip_spaces (s : string) : string :=
  match s with
  | String c s' => if isspace c then skip_spaces s' else s
  | EmptyString => s
  end.

(** The leading decimal digits of [s], accumulated onto [acc]; [seen]
    tells whether a digit was read. *)
Fixpoint read_digits (s : string) (acc : Z) (seen : bool) : Z * bool :=
  match s with
  | EmptyString => (acc, seen)
  | String c s' =>
      match digit_value c with
      | Some d => read_digits s' (acc * 10 + d) true
      | None => (acc, seen)
      end
  end.

Definition INT_MIN : Z := - 2 ^ 31.
Definition INT_MAX : Z := 2 ^ 31 - 1.

(** [None] stands for both exceptions of [std::stoi]: no digits
    ([invalid_argument]) and a value that does not fit an [int]
    ([out_of_range]). *)
Definition stoi (str : string) : option Z :=
  let body := skip_spaces str in
  let '(negative, digits) :=
    match body with
    | String "-"%char r => (true, r)
    | String "+"%char r => (false, r)
    | _ => (false, body)
    end in
  let '(magnitude, seen) := read_digits digits 0 false in
  let value := if negative then - magnitude else magnitude in
  if seen && (INT_MIN <=? value) && (value <=? INT_MAX) then Some value else None.

End StdLib.

(* ------------------------------------------------------------------------- *)
(** ** The scene data model (include/XFileData.h) *)

Module Data.

Record XVector3 := mkVector3 { vx : float; vy : float; vz : float }.
Record XVector2 := mkVector2 { tu : float; tv : float }.
Record XQuaternion := mkQuaternion { qx : float; qy : float; qz : float; qw : float }.

Definition XVector3_default : XVector3 := mkVector3 f0 f0 f0.
Definition XVector2_default : XVector2 := mkVector2 f0 f0.
Definition XQuaternion_default : XQuaternion := mkQuaternion f0 f0 f0 f1.

Record XMaterial := mkMaterial {
  mat_name : string;
  diffuseColor : XVector3;
  specularColor : XVector3;
  emissiveColor : XVector3;
  shininess : float;
  transparency : float;
  diffuseTexture : string;
  normalTexture : string;
  specularTexture : string
}.

Record XKeyframe := mkKeyframe {
  time : float;
  position : XVector3;
  rotation : XQuaternion;
  scale : XVector3
}.

(** [XKeyframe() : time(0), scale(1, 1, 1)] *)
Definition XKeyframe_default : XKeyframe :=
  mkKeyframe f0 XVector3_default XQuaternion_default (mkVector3 f1 f1 f1).

Definition set_time (k : XKeyframe) (t : float) : XKeyframe :=
  mkKeyframe t (position k) (rotation k) (scale k).

(** [boneKeyframes] is a [std::map]; the list gives its iteration order. *)
Record XAnimationSet := mkAnimationSet {
  anim_name : string;
  duration : float;
  ticksPerSecond : float;
  keyframes : list XKeyframe;
  boneKeyframes : list (string * list XKeyframe)
}.

(** [XAnimationSet() : duration(0), ticksPerSecond(4800.0f)] *)
Definition XAnimationSet_default : XAnimationSet :=
  mkAnimationSet EmptyString f0 f4800 [] [].

Definition GetDurationInSeconds (a : XAnimationSet) : float :=
  if fgt (ticksPerSecond a) f0 then fdiv (duration a) (ticksPerSecond a) else f0.

(** [float m[4][4]], row by row; the default constructor zeroes it. *)
Definition XMatrix4x4 : Type := list (list float).
Definition XMatrix4x4_default : XMatrix4x4 := repeat (repeat f0 4) 4.

Record XBone := mkBone {
  bone_name : string;
  parentName : string;
  parentIndex : Z;
  bindPose : XMatrix4x4;
  offsetMatrix : XMatrix4x4;
  childIndices : list Z
}.

Record XVertex := mkVertex {
  vpos : XVector3;
  normal : XVector3;
  texCoord : XVector2;
  boneIndices : list Z;
  boneWeights : list float
}.

Definition XVertex_default : XVertex :=
  mkVertex XVector3_default XVector3_default XVector2_default [] [].

(** [int indices[3]] is a triple; [vertexIndices] the parallel vector. *)
Record XFace := mkFace {
  indices : Z * Z * Z;
  vertexIndices : list Z;
  materialIndex : Z
}.

(** [XFace() : materialIndex(-1)], both index representations zeroed. *)
Definition XFace_default : XFace := mkFace (0, 0, 0) [0; 0; 0] (-1).

Definition SetIndices (i0 i1 i2 : Z) (f : XFace) : XFace :=
  mkFace (i0, i1, i2) [i0; i1; i2] (materialIndex f).

(** The assignments [face.indices[k] = v] touch the array only. *)
Definition set_indices_array (i0 i1 i2 : Z) (f : XFace) : XFace :=
  mkFace (i0, i1, i2) (vertexIndices f) (materialIndex f).

Definition indices_list (f : XFace) : list Z :=
  let '(a, b, c) := indices f in [a; b; c].

Record XMeshData := mkMeshData {
  mesh_name : string;
  vertices : list XVertex;
  faces : list XFace;
  materials : list XMaterial;
  bones : list XBone;
  animations : list XAnimationSet;
  globalTicksPerSecond : float;
  hasTimingInfo : bool
}.

Definition XMeshData_default : XMeshData :=
  mkMeshData EmptyString [] [] [] [] [] f4800 false.

Inductive Format := TEXT | BINARY | COMPRESSED.

Record XFileHeader := mkHeader {
  format : Format;
  majorVersion : Z;
  minorVersion : Z;
  hasAnimationTimingInfo : bool;
  header_ticksPerSecond : float
}.

Definition XFileHeader_default : XFileHeader := mkHeader TEXT 3 3 false f4800.

Record XFileData := mkFileData {
  header : XFileHeader;
  meshData : XMeshData;
  meshes : list XMeshData;
  file_materials : list XMaterial;
  file_animations : list XAnimationSet;
  metadata : list (string * string);
  parseSuccessful : bool;
  parseErrors : list string;
  parseWarnings : list string
}.

Definition XFileData_default : XFileData :=
  mkFileData XFileHeader_default XMeshData_default [] [] [] [] false [] [].

(** [static_cast<int>] of a size: reduction to the signed 32-bit range. *)
Definition static_cast_int (n : Z) : Z :=
  let r := n mod 4294967296 in
  if r <? 2147483648 then r else r - 4294967296.

(** One constructor per message pushed by [GetValidationErrors], carrying
    the values the message is formatted from. *)
Inductive ValidationError :=
| NoVertices
| NoFaces
| InvalidVertexIndex (face : nat) (index : Z)
| InvalidMaterialIndex (face : nat) (index : Z)
| InvalidParentIndex (bone : string) (index : Z)
| SelfParent (bone : string)
| MismatchedBoneCounts (vertex : nat)
| InvalidBoneIndex (vertex : nat) (index : Z)
| BadWeightSum (vertex : nat) (sum : float)
| AnimationNoName (anim : nat)
| InvalidTicksPerSecond (anim : string) (ticks : float)
| AnimationNoKeyframes (anim : string)
| KeyframesOutOfOrder (anim : string) (index : nat)
| MissingBone (anim : string) (bone : string)
| InvalidGlobalTicks (ticks : float).

Definition is_empty {A : Type} (l : list A) : bool :=
  match l with [] => true | _ => false end.

(** The [j]-loop over [face.indices] followed by the material check. *)
Definition face_errors (maxVertexIndex materialCount : Z) (i : nat) (face : XFace)
  : list ValidationError :=
  let vertex_check (v : Z) :=
    if (v <? 0) || (v >? maxVertexIndex) then [InvalidVertexIndex i v] else [] in
  flat_map vertex_check (indices_list face) ++
  (if (materialIndex face >=? materialCount) && negb (materialIndex face =? -1)
   then [InvalidMaterialIndex i (materialIndex face)] else []).

(** A loop [for (size_t i = from; i < v.size(); i++)] collecting messages. *)
Fixpoint indexed_errors {A : Type} (f : nat -> A -> list ValidationError)
  (from : nat) (l : list A) : list ValidationError :=
  match l with
  | [] => []
  | x :: r => f from x ++ indexed_errors f (S from) r
  end.

Definition bone_errors (boneCount : Z) (i : nat) (bone : XBone) : list ValidationError :=
  (if parentIndex bone >=? boneCount
   then [InvalidParentIndex (bone_name bone) (parentIndex bone)] else []) ++
  (if parentIndex bone =? static_cast_int (Z.of_nat i)
   then [SelfParent (bone_name bone)] else []).

Definition vertex_errors (boneCount : Z) (i : nat) (vertex : XVertex)
  : list ValidationError :=
  (if Nat.eqb (List.length (boneIndices vertex)) (List.length (boneWeights vertex))
   then [] else [MismatchedBoneCounts i]) ++
  flat_map (fun boneIndex =>
              if boneIndex >=? boneCount then [InvalidBoneIndex i boneIndex] else [])
           (boneIndices vertex) ++
  (if is_empty (boneWeights vertex) then []
   else
     let weightSum := fold_left fadd (boneWeights vertex) f0 in
     if fgt (fabs (fsub weightSum f1)) (literal 1 100)
     then [BadWeightSum i weightSum] else []).

(** The keyframe-order loop stops at the first inversion ([break]). *)
Fixpoint order_errors (name : string) (j : nat) (prev : float) (l : list XKeyframe)
  : list ValidationError :=
  match l with
  | [] => []
  | k :: r =>
      if flt (time k) prev then [KeyframesOutOfOrder name j]
      else order_errors name (S j) (time k) r
  end.

Definition animation_errors (bs : list XBone) (i : nat) (anim : XAnimationSet)
  : list ValidationError :=
  (if String.eqb (anim_name anim) EmptyString then [AnimationNoName i] else []) ++
  (if fle (ticksPerSecond anim) f0
   then [InvalidTicksPerSecond (anim_name anim) (ticksPerSecond anim)] else []) ++
  (if is_empty (keyframes anim) && is_empty (boneKeyframes anim)
   then [AnimationNoKeyframes (anim_name anim)] else []) ++
  match keyframes anim with
  | [] => []
  | k0 :: r => order_errors (anim_name anim) 1 (time k0) r
  end ++
  flat_map (fun boneAnim : string * list XKeyframe =>
              if existsb (fun b => String.eqb (bone_name b) (fst boneAnim)) bs
              then [] else [MissingBone (anim_name anim) (fst boneAnim)])
           (boneKeyframes anim).

Definition GetValidationErrors (m : XMeshData) : list ValidationError :=
  if is_empty (vertices m) then [NoVertices]
  else
    let maxVertexIndex := static_cast_int (Z.of_nat (List.length (vertices m))) - 1 in
    let materialCount := static_cast_int (Z.of_nat (List.length (materials m))) in
    let boneCount := static_cast_int (Z.of_nat (List.length (bones m))) in
    (if is_empty (faces m) then [NoFaces] else []) ++
    indexed_errors (face_errors maxVertexIndex materialCount) 0 (faces m) ++
    (if is_empty (bones m) then []
     else indexed_errors (bone_errors boneCount) 0 (bones m) ++
          indexed_errors (vertex_errors boneCount) 0 (vertices m)) ++
    indexed_errors (animation_errors (bones m)) 0 (animations m) ++
    (if hasTimingInfo m && fle (globalTicksPerSecond m) f0
     then [InvalidGlobalTicks (globalTicksPerSecond m)] else []).

Definition IsValid (m : XMeshData) : bool := is_empty (GetValidationErrors m).

Definition XFileData_IsValid (d : XFileData) : bool :=
  parseSuccessful d && IsValid (meshData d).

End Data.

Import Data.

(* ------------------------------------------------------------------------- *)
(** ** AnimationTimingCorrector *)

Module Timing.

(** The pieces [errorDescription] is concatenated from.  The first three
    are the texts of [CorrectAnimationTiming] ("Timing correction failed
    validation. ", "Duration out of reasonable range. ", "Timing error too
    large: " with [std::to_string] of the value and "s"); the last three
    those of [ValidateTimingCorrection] ("Validation failed: ", "Invalid
    duration (" and "Large timing error (", each with the value written by
    [operator<<] and "s)"). *)
Inductive ErrorPart :=
| FailedValidation
| DurationOutOfRange
| TimingErrorTooLarge (seconds : float)
| ValidationFailed
| InvalidDuration (seconds : float)
| LargeTimingError (seconds : float).

Record TimingCorrectionResult := mkResult {
  isValid : bool;
  originalDurationSeconds : float;
  correctedDurationSeconds : float;
  timingErrorSeconds : float;
  detectedTicksPerSecond : float;
  errorDescription : list ErrorPart
}.

(** How the detected rate is labelled in [detectionMethod]. *)
Inductive RateOrigin := DirectXDefault | FromAnimationHeader | FromDurationAnalysis.

Inductive DetectionMethod :=
| NoMethod
| ExplicitFromHeader
| DetectedRate (rate : float) (origin : RateOrigin).

Record TimingAnalysis := mkAnalysis {
  analysis_detectedTicksPerSecond : float;
  confidenceLevel : float;
  detectionMethod : DetectionMethod;
  candidateTickRates : list float
}.

(** [TimingAnalysis() : detectedTicksPerSecond(4800.0f), confidenceLevel(0.0f)] *)
Definition TimingAnalysis_default : TimingAnalysis :=
  mkAnalysis f4800 f0 NoMethod [].

Definition COMMON_TICK_RATES : list float :=
  [ of_int 160; of_int 1000; of_int 2400; of_int 4800; of_int 9600;
    of_int 30; of_int 60; of_int 24; of_int 25; literal 2997 100 ].

Definition MIN_REASONABLE_DURATION : float := literal 5 100.
Definition MAX_REASONABLE_DURATION : float := of_int 600.
Definition TIMING_TOLERANCE : float := literal 1 10.

Definition ValidateAnimationDuration (durationSeconds : float) : bool :=
  fge durationSeconds MIN_REASONABLE_DURATION &&
  fle durationSeconds MAX_REASONABLE_DURATION.

Definition IsReasonableDuration (durationSeconds : float) : bool :=
  ValidateAnimationDuration durationSeconds.

Definition CalculateMedian (values : list float) : float :=
  if is_empty values then f0
  else
    let sorted := StdLib.sort flt values in
    let middle := Nat.div (List.length sorted) 2 in
    if Nat.eqb (Nat.modulo (List.length sorted) 2) 0
    then fdiv (fadd (nth (middle - 1) sorted f0) (nth middle sorted f0)) f2
    else nth middle sorted f0.

Definition ExtractKeyframeTimes (animation : XAnimationSet) : list float :=
  map time (keyframes animation).

(** [intervals[i-1] = keyframeTimes[i] - keyframeTimes[i-1]] *)
Fixpoint intervals_from (prev : float) (rest : list float) : list float :=
  match rest with
  | [] => []
  | t :: r => fsub t prev :: intervals_from t r
  end.

(** The loop over the four frame rates; [Some] is its early [return]. *)
Fixpoint frame_rate_loop (medianInterval : float) (rates : list float) : option float :=
  match rates with
  | [] => None
  | fps :: r =>
      let expectedInterval := fdiv f4800 fps in
      if flt (fabs (fsub medianInterval expectedInterval))
             (fmul expectedInterval (literal 1 10))
      then Some f4800
      else frame_rate_loop medianInterval r
  end.

Definition AnalyzeKeyframePattern (keyframeTimes : list float) : float :=
  if Nat.ltb (List.length keyframeTimes) 2 then f4800
  else
    let intervals :=
      match keyframeTimes with
      | [] => []
      | t0 :: r => intervals_from t0 r
      end in
    let found :=
      if negb (is_empty intervals)
      then frame_rate_loop (CalculateMedian intervals)
                           [of_int 24; of_int 25; of_int 30; of_int 60]
      else None in
    match found with
    | Some rate => rate
    | None => f4800
    end.

Definition DetectTicksPerSecondFromKeyframes (animation : XAnimationSet) : float :=
  if Nat.ltb (List.length (keyframes animation)) 2 then f4800
  else AnalyzeKeyframePattern (ExtractKeyframeTimes animation).

Definition DetectTicksPerSecondFromDuration (animation : XAnimationSet) : float :=
  if fle (duration animation) f0 then f4800
  else
    match find (fun tickRate => IsReasonableDuration (fdiv (duration animation) tickRate))
               COMMON_TICK_RATES with
    | Some tickRate => tickRate
    | None => f4800
    end.

Definition DetectTicksPerSecondFromHeader (fileData : XFileData) : float :=
  if hasAnimationTimingInfo (header fileData)
     && fgt (header_ticksPerSecond (header fileData)) f0
  then header_ticksPerSecond (header fileData)
  else if hasTimingInfo (meshData fileData)
          && fgt (globalTicksPerSecond (meshData fileData)) f0
  then globalTicksPerSecond (meshData fileData)
  else f4800.

(** The comparator handed to [std::sort] in [GetCandidateTickRates]. *)
Definition rate_before (a b : float) : bool :=
  if flt (fabs (fsub a f4800)) (literal 1 10) then true
  else if flt (fabs (fsub b f4800)) (literal 1 10) then false
  else if flt (fabs (fsub a (of_int 160))) (literal 1 10) then true
  else if flt (fabs (fsub b (of_int 160))) (literal 1 10) then false
  else flt a b.

Definition GetCandidateTickRates (animation : XAnimationSet) : list float :=
  let candidates :=
    if negb (is_empty (keyframes animation)) then
      let keyframeBasedRate := DetectTicksPerSecondFromKeyframes animation in
      if existsb (fun c => feq c keyframeBasedRate) COMMON_TICK_RATES
      then COMMON_TICK_RATES
      else COMMON_TICK_RATES ++ [keyframeBasedRate]
    else COMMON_TICK_RATES in
  StdLib.sort rate_before candidates.

Definition ScoreTickRate (tickRate : float) (animation : XAnimationSet) : float :=
  if fle (duration animation) f0 then f0
  else
    let durationSeconds := fdiv (duration animation) tickRate in
    let durationScore :=
      if IsReasonableDuration durationSeconds then
        if fge durationSeconds (literal 5 10) && fle durationSeconds (of_int 60)
        then f1
        else if fge durationSeconds (literal 1 10) && fle durationSeconds (of_int 300)
        then literal 7 10
        else literal 3 10
      else f0 in
    let commonRateBonus :=
      if flt (fabs (fsub tickRate f4800)) (literal 1 10) then literal 3 10
      else if flt (fabs (fsub tickRate (of_int 160))) (literal 1 10) then literal 2 10
      else if flt (fabs (fsub tickRate (of_int 1000))) (literal 1 10) then literal 1 10
      else f0 in
    fmin f1 (fadd durationScore commonRateBonus).

Definition CalculateConfidence (tickRate : float) (animation : XAnimationSet) : float :=
  ScoreTickRate tickRate animation.

Definition GetDetectionMethodDescription (tickRate : float) (animation : XAnimationSet)
  : DetectionMethod :=
  DetectedRate tickRate
    (if flt (fabs (fsub tickRate f4800)) (literal 1 10) then DirectXDefault
     else if flt (fabs (fsub tickRate (ticksPerSecond animation))) (literal 1 10)
     then FromAnimationHeader
     else FromDurationAnalysis).

(** One round of the scoring loop: [(bestTickRate, bestScore)] updated. *)
Definition score_step (animation : XAnimationSet) (best : float * float) (tickRate : float)
  : float * float :=
  let score := ScoreTickRate tickRate animation in
  if fgt score (snd best) then (tickRate, score) else best.

Definition AnalyzeAnimationTiming (animation : XAnimationSet) : TimingAnalysis :=
  if is_empty (keyframes animation) then TimingAnalysis_default
  else if fgt (ticksPerSecond animation) f0
          && IsReasonableDuration (fdiv (duration animation) (ticksPerSecond animation))
  then mkAnalysis (ticksPerSecond animation) (literal 9 10) ExplicitFromHeader []
  else
    let candidateRates := GetCandidateTickRates animation in
    let '(bestTickRate, bestScore) :=
      fold_left (score_step animation) candidateRates (f4800, f0) in
    mkAnalysis bestTickRate bestScore
               (GetDetectionMethodDescription bestTickRate animation)
               candidateRates.

(** The in-place update of the animation when the detected rate differs. *)
Definition apply_correction (animation : XAnimationSet)
  (originalTicksPerSecond detected : float) : XAnimationSet :=
  if fgt (fabs (fsub originalTicksPerSecond detected)) (literal 1 10) then
    let timeScale := fdiv originalTicksPerSecond detected in
    if negb (is_empty (keyframes animation))
       && fgt (fabs (fsub timeScale f1)) (literal 1 100)
    then mkAnimationSet (anim_name animation)
                        (fmul (duration animation) timeScale)
                        detected
                        (map (fun k => set_time k (fmul (time k) timeScale))
                             (keyframes animation))
                        (boneKeyframes animation)
    else mkAnimationSet (anim_name animation) (duration animation) detected
                        (keyframes animation) (boneKeyframes animation)
  else animation.

(** The animation is passed by reference: the result comes with its new
    value. *)
Definition CorrectAnimationTiming (animation : XAnimationSet)
  : TimingCorrectionResult * XAnimationSet :=
  let originalTicksPerSecond := ticksPerSecond animation in
  let originalDuration := duration animation in
  let original := fdiv originalDuration originalTicksPerSecond in
  let analysis := AnalyzeAnimationTiming animation in
  let detected := analysis_detectedTicksPerSecond analysis in
  let animation' := apply_correction animation originalTicksPerSecond detected in
  let corrected := fdiv (duration animation') (ticksPerSecond animation') in
  let timingError := fabs (fsub original corrected) in
  let valid := ValidateAnimationDuration corrected && fle timingError TIMING_TOLERANCE in
  let description :=
    if valid then []
    else [FailedValidation] ++
         (if ValidateAnimationDuration corrected then [] else [DurationOutOfRange]) ++
         (if fgt timingError TIMING_TOLERANCE then [TimingErrorTooLarge timingError]
          else []) in
  (mkResult valid original corrected timingError detected description, animation').

Definition ConvertKeyframeTiming (originalKeyframes : list XKeyframe)
  (originalTicksPerSecond targetTicksPerSecond : float) : list XKeyframe :=
  if fgt (fabs (fsub originalTicksPerSecond targetTicksPerSecond)) (literal 1 10) then
    let timeScale := fdiv originalTicksPerSecond targetTicksPerSecond in
    map (fun k => set_time k (fmul (time k) timeScale)) originalKeyframes
  else originalKeyframes.

(** [CorrectAllAnimations]: results in input order, animations updated. *)
Fixpoint CorrectAllAnimations (animations : list XAnimationSet)
  : list TimingCorrectionResult * list XAnimationSet :=
  match animations with
  | [] => ([], [])
  | a :: rest =>
      let '(r, a') := CorrectAnimationTiming a in
      let '(rs, rest') := CorrectAllAnimations rest in
      (r :: rs, a' :: rest')
  end.

End Timing.

(* ------------------------------------------------------------------------- *)
(** ** BinaryReader *)

Module Reader.

(** Largest object size, and the length limits the library containers
    enforce (libstdc++, 64-bit): exceeding them raises [std::length_error]. *)
Definition PTRDIFF_MAX : Z := 2 ^ 63 - 1.
Definition string_max_size : Z := (PTRDIFF_MAX - 1) / 2.
Definition vector_max_size (element_size : Z) : Z := PTRDIFF_MAX / element_size.

Import StdLib.

(** [data_] with its [size_], the cursor and the byte order. *)
Record BinaryReader := mkReader {
  data_ : bytes;
  position_ : Z;
  littleEndian_ : bool
}.

Definition size_ (r : BinaryReader) : Z := Z.of_nat (List.length (data_ r)).

(** [BinaryReader(data, size, littleEndian)] *)
Definition new_reader (data : bytes) (littleEndian : bool) : BinaryReader :=
  mkReader data 0 littleEndian.

(** [OutOfRange] is the [std::runtime_error] of the reader's own bounds
    checks, with its message; [LengthError] the library's [length_error];
    [BadAlloc] the [std::bad_alloc] of a reservation that the allocator
    cannot serve. *)
Inductive exception :=
| OutOfRange (what : string)
| LengthError
| BadAlloc.

Inductive outcome (A : Type) :=
| Returns (a : A)
| Throws (e : exception).
Arguments Returns {A} a.
Arguments Throws {A} e.

(** A member function: the outcome and the reader as the call leaves it
    (after a throw, as it was when the exception was raised). *)
Definition M (A : Type) : Type := BinaryReader -> outcome A * BinaryReader.

Definition ret {A : Type} (a : A) : M A := fun r => (Returns a, r).
Definition throw {A : Type} (e : exception) : M A := fun r => (Throws e, r).
Definition bind {A B : Type} (m : M A) (k : A -> M B) : M B :=
  fun r =>
    match m r with
    | (Returns a, r') => k a r'
    | (Throws e, r') => (Throws e, r')
    end.

Notation "x <- m ;; k" := (bind m (fun x => k))
  (at level 61, m at next level, right associativity).

Definition read_beyond : string := "BinaryReader: Read beyond end of data".
Definition seek_beyond : string := "BinaryReader: Seek beyond end of data".
Definition skip_beyond : string := "BinaryReader: Skip beyond end of data".
Definition peek_beyond : string := "BinaryReader: Peek beyond end of data".

(** [data_[position_ + k]] *)
Definition byte_at (r : BinaryReader) (k : Z) : Z :=
  nth (Z.to_nat (position_ r + k)) (data_ r) 0.

Definition set_position (r : BinaryReader) (p : Z) : BinaryReader :=
  mkReader (data_ r) p (littleEndian_ r).

Definition advance (r : BinaryReader) (n : Z) : BinaryReader :=
  set_position r (size_add (position_ r) n).

Definition ReadUInt8 : M Z :=
  fun r =>
    if position_ r >=? size_ r
    then (Throws (OutOfRange read_beyond), r)
    else (Returns (byte_at r 0), advance r 1).

Definition value16 (r : BinaryReader) : Z :=
  (if littleEndian_ r
   then Z.lor (byte_at r 0) (Z.shiftl (byte_at r 1) 8)
   else Z.lor (Z.shiftl (byte_at r 0) 8) (byte_at r 1)) mod 2 ^ 16.

Definition ReadUInt16 : M Z :=
  fun r =>
    if size_add (position_ r) 2 >? size_ r
    then (Throws (OutOfRange read_beyond), r)
    else (Returns (value16 r), advance r 2).

Definition value32 (r : BinaryReader) : Z :=
  (if littleEndian_ r
   then Z.lor (Z.lor (Z.lor (byte_at r 0)
                            (Z.shiftl (byte_at r 1) 8))
                     (Z.shiftl (byte_at r 2) 16))
              (Z.shiftl (byte_at r 3) 24)
   else Z.lor (Z.lor (Z.lor (Z.shiftl (byte_at r 0) 24)
                            (Z.shiftl (byte_at r 1) 16))
                     (Z.shiftl (byte_at r 2) 8))
              (byte_at r 3)) mod 2 ^ 32.

Definition ReadUInt32 : M Z :=
  fun r =>
    if size_add (position_ r) 4 >? size_ r
    then (Throws (OutOfRange read_beyond), r)
    else (Returns (value32 r), advance r 4).

(** The eight shifted bytes, [lor]ed from the left as the source writes
    them; [shifts] lists the shift applied to byte 0, 1, ... *)
Definition value64 (r : BinaryReader) : Z :=
  let shifts := if littleEndian_ r
                then [0; 8; 16; 24; 32; 40; 48; 56]
                else [56; 48; 40; 32; 24; 16; 8; 0] in
  let term (k : Z) := Z.shiftl (byte_at r k) (nth (Z.to_nat k) shifts 0) in
  (fold_left (fun acc k => Z.lor acc (term k)) [1; 2; 3; 4; 5; 6; 7] (term 0))
    mod 2 ^ 64.

Definition ReadUInt64 : M Z :=
  fun r =>
    if size_add (position_ r) 8 >? size_ r
    then (Throws (OutOfRange read_beyond), r)
    else (Returns (value64 r), advance r 8).

(** [static_cast] to the signed type of the same width. *)
Definition to_signed (width v : Z) : Z :=
  if v <? 2 ^ (width - 1) then v else v - 2 ^ width.

Definition ReadInt8 : M Z := v <- ReadUInt8 ;; ret (to_signed 8 v).
Definition ReadInt16 : M Z := v <- ReadUInt16 ;; ret (to_signed 16 v).
Definition ReadInt32 : M Z := v <- ReadUInt32 ;; ret (to_signed 32 v).
Definition ReadInt64 : M Z := v <- ReadUInt64 ;; ret (to_signed 64 v).

Definition ReadFloat : M float := intValue <- ReadUInt32 ;; ret (of_bits intValue).
Definition ReadDouble : M double := intValue <- ReadUInt64 ;; ret (double_of_bits intValue).

(** [count] bytes starting at the cursor. *)
Definition slice (r : BinaryReader) (count : Z) : bytes :=
  firstn (Z.to_nat count) (skipn (Z.to_nat (position_ r)) (data_ r)).

Definition to_string (b : bytes) : string :=
  string_of_list_ascii (map (fun c => ascii_of_N (Z.to_N c)) b).

Definition ReadString (length : Z) : M string :=
  fun r =>
    if size_add (position_ r) length >? size_ r
    then (Throws (OutOfRange read_beyond), r)
    else if length >? string_max_size
    then (Throws LengthError, r)
    else (Returns (to_string (slice r length)), advance r length).

(** The characters up to the first zero byte, with their number. *)
Fixpoint scan_to_null (rest : bytes) : bytes * Z :=
  match rest with
  | [] => ([], 0)
  | c :: rest' =>
      if c =? 0 then ([], 0)
      else let '(s, n) := scan_to_null rest' in (c :: s, n + 1)
  end.

Definition ReadNullTerminatedString : M string :=
  fun r =>
    let '(s, n) := scan_to_null (skipn (Z.to_nat (position_ r)) (data_ r)) in
    let p := position_ r + n in
    (Returns (to_string s),
     set_position r (if p <? size_ r then p + 1 else p)).

Definition ReadLengthPrefixedString : M string :=
  length <- ReadUInt32 ;; ReadString length.

Definition ReadBytes (count : Z) : M bytes :=
  fun r =>
    if size_add (position_ r) count >? size_ r
    then (Throws (OutOfRange read_beyond), r)
    else if count >? vector_max_size 1
    then (Throws LengthError, r)
    else (Returns (slice r count), advance r count).

(** [for (i = 0; i < count; ++i) result.push_back(read())] *)
Fixpoint read_each {A : Type} (read : M A) (count : nat) : M (list A) :=
  match count with
  | O => ret []
  | S n => x <- read ;; xs <- read_each read n ;; ret (x :: xs)
  end.

Section Arrays.

(** Whether the allocator refuses a request of that many bytes. *)
Variable allocation_fails : Z -> bool.

(** [result.reserve(count)] on an empty vector: a count above [max_size()]
    raises [std::length_error]; otherwise storage for [count] elements is
    requested (none for a count of zero), and a request that the allocator
    refuses raises [std::bad_alloc].  Nothing has been read by then. *)
Definition reserve (element_size count : Z) : M unit :=
  fun r =>
    if count >? vector_max_size element_size then (Throws LengthError, r)
    else if (0 <? count) && allocation_fails (element_size * count)
    then (Throws BadAlloc, r)
    else (Returns tt, r).

(** [result.reserve(count)] comes first, then the reads. *)
Definition ReadFloatArray (count : Z) : M (list float) :=
  _ <- reserve 4 count ;; read_each ReadFloat (Z.to_nat count).

Definition ReadUInt32Array (count : Z) : M (list Z) :=
  _ <- reserve 4 count ;; read_each ReadUInt32 (Z.to_nat count).

End Arrays.

Definition Seek (position : Z) : M unit :=
  fun r =>
    if position >? size_ r
    then (Throws (OutOfRange seek_beyond), r)
    else (Returns tt, set_position r position).

Definition Skip (count : Z) : M unit :=
  fun r =>
    if size_add (position_ r) count >? size_ r
    then (Throws (OutOfRange skip_beyond), r)
    else (Returns tt, advance r count).

Definition PeekUInt8 : M Z :=
  fun r =>
    if position_ r >=? size_ r
    then (Throws (OutOfRange peek_beyond), r)
    else (Returns (byte_at r 0), r).

Definition PeekUInt32 : M Z :=
  fun r =>
    if size_add (position_ r) 4 >? size_ r
    then (Throws (OutOfRange peek_beyond), r)
    else (Returns (value32 r), r).

Definition CanRead (count : Z) (r : BinaryReader) : bool :=
  size_add (position_ r) count <=? size_ r.

(** A reader as the constructor and the operations leave it: the cursor
    inside a buffer no larger than the largest object. *)
Definition well_formed (r : BinaryReader) : Prop :=
  0 <= position_ r <= size_ r /\ size_ r <= PTRDIFF_MAX.

(** An outcome is a bounds failure. *)
Definition out_of_range {A : Type} (o : outcome A) : Prop :=
  exists what, o = Throws (OutOfRange what).

End Reader.

(* ------------------------------------------------------------------------- *)
(** ** XFileDecompressor: content validation *)

Module Decompressor.

Import StdLib.

Definition ValidateDecompressedContent (data : bytes) : bool :=
  if is_empty data then false
  else
    let n := List.length data in
    let start := firstn (Nat.min 16 n) data in
    if match find (chars "xof ") start with Some O => true | _ => false end
    then true
    else if Nat.ltb 100 n
            && match find (chars "template") (firstn (Nat.min 100 n) data) with
               | Some _ => true
               | None => false
               end
    then true
    else if Nat.leb 4 n
            && (let d (k : nat) := nth k data 0 in
                ((d 0%nat =? 120) && (d 1%nat =? 111) && (d 2%nat =? 102) && (d 3%nat =? 32))
                || ((d 0%nat =? 0x78) && (d 1%nat =? 0x6f) && (d 2%nat =? 0x66)
                    && (d 3%nat =? 0x20)))
    then true
    else false.

End Decompressor.

(* ------------------------------------------------------------------------- *)
(** ** XFileParser: line helpers and the timing-extraction pass *)

Module TextParser.

Import StdLib.

Notation "x <~ m ;; k" := (and_then m (fun x => k))
  (at level 61, m at next level, right associativity).

Definition whitespace : string :=
  String " " (String (ascii_of_nat 9) (String (ascii_of_nat 10)
    (String (ascii_of_nat 13) EmptyString))).

Definition TrimWhitespace (str : string) : checked string :=
  let start := find_first_not_of whitespace str in
  if start =? npos then Ok EmptyString
  else
    let end_ := find_last_not_of whitespace str in
    substr str start (size_add (size_sub end_ start) 1).

Definition is_char (c : ascii) (x : ascii) : bool := Ascii.eqb x c.

(** The double-quote character *)
Definition quote : ascii := ascii_of_nat 34.

Definition ParseStringLine (line : string) : checked string :=
  cleaned <~ TrimWhitespace line ;;
  (* the first condition, [front] before [back] and [back] only when
     [front] is a quote *)
  quoted_and_terminated <~
    (f <~ front cleaned ;;
     if is_char quote f then (b <~ back cleaned ;; Ok (is_char ";" b)) else Ok false) ;;
  if quoted_and_terminated then substr cleaned 1 (size_sub (size cleaned) 3)
  else
    f <~ front cleaned ;;
    if is_char quote f then substr cleaned 1 (size_sub (size cleaned) 2)
    else Ok cleaned.

(** [XFileUtils::ParseInt]: the value and the [success] flag. *)
Definition ParseInt (str : string) : Z * bool :=
  match stoi str with
  | Some value => (value, true)
  | None => (0, false)
  end.

(** The body of the token loop of [ParseIntArray]. *)
Definition push_token (token : string) (result : list Z) : checked (list Z) :=
  token' <~ TrimWhitespace token ;;
  if negb (empty token') then
    let '(value, success) := ParseInt token' in
    Ok (if success then result ++ [value] else result)
  else Ok result.

(** [while (getline(ss, token, ';') || getline(ss, token, ','))] *)
Fixpoint token_loop (fuel : nat) (ss : stringstream) (token : string) (result : list Z)
  : checked (list Z) :=
  match fuel with
  | O => Fault FuelExhausted
  | S fuel' =>
      let '(ok1, token1, ss1) := getline ss token ";" in
      if ok1 then
        result' <~ push_token token1 result ;;
        token_loop fuel' ss1 token1 result'
      else
        let '(ok2, token2, ss2) := getline ss1 token1 "," in
        if ok2 then
          result' <~ push_token token2 result ;;
          token_loop fuel' ss2 token2 result'
        else Ok result
  end.

Definition strip_trailing_separator (cleanData : string) : string :=
  if negb (empty cleanData)
     && match back cleanData with
        | Ok c => is_char ";" c || is_char "," c
        | Fault _ => false
        end
  then pop_back cleanData
  else cleanData.

Definition ParseIntArray (data : string) : checked (list Z) :=
  trimmed <~ TrimWhitespace data ;;
  let cleanData := strip_trailing_separator trimmed in
  token_loop (String.length cleanData + 3) (open_stream cleanData) EmptyString [].

Definition ParseFaceLine (line : string) : checked XFace :=
  let face := XFace_default in
  values <~ ParseIntArray line ;;
  let value (k : nat) := nth k values 0 in
  if Nat.leb 4 (List.length values) then
    if (value 0%nat =? 3) && Nat.leb 4 (List.length values)
    then Ok (set_indices_array (value 1%nat) (value 2%nat) (value 3%nat) face)
    else Ok face
  else Ok face.

(** The parser object, as far as the passes below use it. *)
Record XFileParser := mkParser {
  lineNumber_ : Z;
  parsedData_ : XFileData;
  strictMode_ : bool;
  verboseLogging_ : bool
}.

Definition XFileParser_new : XFileParser := mkParser 0 XFileData_default false false.

Definition GetParsedData (p : XFileParser) : XFileData := parsedData_ p.

(** The first loop of [ExtractTimingInformation], left at the first
    animation with a positive rate: [(globalTicks, foundTiming)]. *)
Fixpoint first_explicit_rate (anims : list XAnimationSet) : float * bool :=
  match anims with
  | [] => (f0, false)
  | anim :: rest =>
      if fgt (ticksPerSecond anim) f0 then (ticksPerSecond anim, true)
      else first_explicit_rate rest
  end.

Definition with_rate (globalTicks : float) (anim : XAnimationSet) : XAnimationSet :=
  if fle (ticksPerSecond anim) f0
  then mkAnimationSet (anim_name anim) (duration anim) globalTicks
                      (keyframes anim) (boneKeyframes anim)
  else anim.

Definition ExtractTimingInformation (d : XFileData) : XFileData :=
  let '(found_ticks, foundTiming) := first_explicit_rate (animations (meshData d)) in
  let globalTicks := if negb foundTiming then f4800 else found_ticks in
  let m := meshData d in
  let h := header d in
  mkFileData
    (mkHeader (format h) (majorVersion h) (minorVersion h) foundTiming globalTicks)
    (mkMeshData (mesh_name m) (vertices m) (faces m) (materials m) (bones m)
                (map (with_rate globalTicks) (animations m))
                globalTicks foundTiming)
    (meshes d) (file_materials d) (file_animations d) (metadata d)
    (parseSuccessful d) (parseErrors d) (parseWarnings d).

End TextParser.

(* ------------------------------------------------------------------------- *)
(** ** EnhancedXFileParser: result retrieval *)

Module Facade.

Record BinaryXFileParser := mkBinaryParser {
  binary_parsedData_ : XFileData
}.

Record EnhancedXFileParser := mkEnhanced {
  textParser_ : TextParser.XFileParser;
  binaryParser_ : BinaryXFileParser
}.

Definition EnhancedXFileParser_new : EnhancedXFileParser :=
  mkEnhanced TextParser.XFileParser_new (mkBinaryParser XFileData_default).

Definition GetParsedData (e : EnhancedXFileParser) : XFileData :=
  if negb (is_empty (meshes (TextParser.GetParsedData (textParser_ e))))
  then TextParser.GetParsedData (textParser_ e)
  else binary_parsedData_ (binaryParser_ e).


End Facade.

(* ------------------------------------------------------------------------- *)
(** ** Sample inputs and the predicates of the statements *)

Import StdLib Timing TextParser Decompressor Reader.

(** A keyframe with the given integral time and default transform. *)
Definition keyframe_at (t : Z) : XKeyframe := set_time XKeyframe_default (of_int t).

(** A mesh of one default vertex and one face with the given material
    index, without materials. *)
Definition one_face_mesh (mi : Z) : XMeshData :=
  mkMeshData EmptyString [XVertex_default] [mkFace (0, 0, 0) [0; 0; 0] mi]
             [] [] [] f4800 false.

(** A triangle: three vertices and the face {0, 1, 2}. *)
Definition triangle_mesh : XMeshData :=
  mkMeshData EmptyString
             [XVertex_default; XVertex_default; XVertex_default]
             [mkFace (0, 1, 2) [0; 1; 2] (-1)]
             [] [] [] f4800 false.

(** [needle] occurs somewhere in [hay]. *)
Definition occurs (needle hay : bytes) : Prop :=
  exists before after : bytes, hay = before ++ needle ++ after.

(** What is left to read, as a bound on the rounds of the token loop. *)
Definition rounds_left (ss : stringstream) : nat :=
  if failbit ss then 0 else if eofbit ss then 1 else String.length (buffer ss) + 2.

(** The operation fails with a bounds error and leaves the reader as it
    found it. *)
Definition fails_without_advance {A : Type} (op : M A) (r : BinaryReader) : Prop :=
  out_of_range (fst (op r)) /\ snd (op r) = r.

(* ------------------------------------------------------------------------- *)
(** ** AnimationTimingCorrector: the second validation entry point *)

Module TimingChecks.

(** [ValidateTimingCorrection(original, corrected)]; the message is built
    from the same two tests as in [CorrectAnimationTiming], with texts of
    its own. *)
Definition ValidateTimingCorrection (original corrected : XAnimationSet)
  : TimingCorrectionResult :=
  let originalSeconds := fdiv (duration original) (ticksPerSecond original) in
  let correctedSeconds := fdiv (duration corrected) (ticksPerSecond corrected) in
  let timingError := fabs (fsub originalSeconds correctedSeconds) in
  let valid := ValidateAnimationDuration correctedSeconds
               && fle timingError TIMING_TOLERANCE in
  mkResult valid originalSeconds correctedSeconds timingError
           (ticksPerSecond corrected)
           (if valid then []
            else [ValidationFailed] ++
                 (if ValidateAnimationDuration correctedSeconds then []
                  else [InvalidDuration correctedSeconds]) ++
                 (if fgt timingError TIMING_TOLERANCE
                  then [LargeTimingError timingError] else [])).

(** Which test a piece of an error description reports: 0 for the opening
    text, 1 for the duration, 2 for the timing error. *)
Definition reported_test (part : ErrorPart) : nat :=
  match part with
  | FailedValidation | ValidationFailed => 0
  | DurationOutOfRange | InvalidDuration _ => 1
  | TimingErrorTooLarge _ | LargeTimingError _ => 2
  end.

(** An animation the analysis accepts as it is: keyframes, a positive
    declared rate and a plausible duration under that rate. *)
Definition declares_plausible_rate (a : XAnimationSet) : Prop :=
  keyframes a <> []
  /\ fgt (ticksPerSecond a) f0 = true
  /\ ValidateAnimationDuration (fdiv (duration a) (ticksPerSecond a)) = true.

(** The candidate rates in the order the scoring loop meets them. *)
Definition sorted_candidates : list float :=
  [ of_int 4800; of_int 160; of_int 24; of_int 25; literal 2997 100;
    of_int 30; of_int 60; of_int 1000; of_int 2400; of_int 9600 ].

End TimingChecks.

(* ------------------------------------------------------------------------- *)
(** ** BinaryReader: queries, and what the statements about it speak of *)

Module ReaderQueries.

Definition GetPosition (r : BinaryReader) : Z := position_ r.
Definition GetSize (r : BinaryReader) : Z := size_ r.
Definition GetRemainingBytes (r : BinaryReader) : Z := size_sub (size_ r) (position_ r).
Definition IsAtEnd (r : BinaryReader) : bool := position_ r >=? size_ r.

(** The operation leaves a well-formed reader well-formed, whether it
    returns or throws. *)
Definition keeps_well_formed {A : Type} (op : M A) : Prop :=
  forall r : BinaryReader, well_formed r -> well_formed (snd (op r)).

(** Every element is a byte value. *)
Definition all_bytes (data : bytes) : Prop := Forall (fun b => 0 <= b < 256) data.

(** The four bytes of a 32-bit value, least significant first. *)
Definition le32 (n : Z) : bytes :=
  [n mod 256; (n / 256) mod 256; (n / 65536) mod 256; (n / 16777216) mod 256].

(** No character of the string is the zero character. *)
Definition no_zero_char (s : string) : Prop := ~ In 0 (chars s).

End ReaderQueries.

(* ------------------------------------------------------------------------- *)
(** ** XFileDecompressor: signature tests and the LZ77 attempt *)

Module Compression.

(** [data[k]] *)
Definition at_ (data : bytes) (k : nat) : Z := nth k data 0.

Definition IsZipCompressed (data : bytes) : bool :=
  if Nat.ltb (List.length data) 4 then false
  else (at_ data 0 =? 0x50) && (at_ data 1 =? 0x4B)
       && (at_ data 2 =? 0x03) && (at_ data 3 =? 0x04).

(** The inner test for "BZh1".."BZh9" returns [true], and so does the
    fall-through after it. *)
Definition IsBzip2Compressed (data : bytes) : bool :=
  if Nat.ltb (List.length data) 4 then false
  else if (at_ data 0 =? 66) && (at_ data 1 =? 90) then
         if (at_ data 2 =? 104) && (at_ data 3 >=? 49) && (at_ data 3 <=? 57)
         then true
         else true
       else false.

(** [(data[3] << 24) | (data[2] << 16) | (data[1] << 8) | data[0]] as a
    [uint32_t] *)
Definition lz_header (data : bytes) : Z :=
  (Z.lor (Z.lor (Z.lor (Z.shiftl (at_ data 3) 24) (Z.shiftl (at_ data 2) 16))
                (Z.shiftl (at_ data 1) 8))
         (at_ data 0)) mod 2 ^ 32.

Definition IsDirectXLZCompressed (data : bytes) : bool :=
  if Nat.ltb (List.length data) 8 then false
  else (lz_header data =? 0x00038760)
       || (lz_header data =? 0x01038760)
       || (lz_header data =? 0x02038760).

(** The copy loop of a back-reference: [count] rounds from round [i],
    each appending [output[startPos + i]] if that index exists by then. *)
Fixpoint copy_back (count i startPos : nat) (output : bytes) : bytes :=
  match count with
  | O => output
  | S count' =>
      copy_back count' (S i) startPos
                (if Nat.ltb (startPos + i) (List.length output)
                 then output ++ [nth (startPos + i) output 0]
                 else output)
  end.

(** The [for (bit ...)] loop over one control byte: [bits] rounds are
    left, [rest] is the input from [pos] on.  It returns the input left
    and the output. *)
Fixpoint control_loop (bits : nat) (bit : Z) (control : Z) (rest output : bytes)
  : bytes * bytes :=
  match bits with
  | O => (rest, output)
  | S bits' =>
      match rest with
      | [] => (rest, output)
      | c :: rest' =>
          if Z.testbit control bit then
            control_loop bits' (bit + 1) control rest' (output ++ [c])
          else
            match rest' with
            | [] => (rest, output)
            | hi :: rest'' =>
                let lengthDistance := Z.lor (Z.shiftl hi 8) c mod 2 ^ 16 in
                let distance := Z.shiftr lengthDistance 4 + 1 in
                let length := Z.land lengthDistance 15 + 3 in
                if distance >? Z.of_nat (List.length output)
                then control_loop bits' (bit + 1) control rest'' output
                else control_loop bits' (bit + 1) control rest''
                       (copy_back (Z.to_nat length) 0
                                  (List.length output - Z.to_nat distance) output)
            end
      end
  end.

(** The [while (pos < data.size())] loop; each round takes a control byte,
    so as many rounds as there are input bytes always suffice. *)
Fixpoint decode_loop (fuel : nat) (rest output : bytes) : bytes :=
  match fuel with
  | O => output
  | S fuel' =>
      match rest with
      | [] => output
      | control :: rest' =>
          let '(rest'', output') := control_loop 8 0 control rest' output in
          decode_loop fuel' rest'' output'
      end
  end.

(** The success flag and the contents of [output] after the call. *)
Definition TryLZ77Decompression (data output : bytes) : bool * bytes :=
  if Nat.ltb (List.length data) 4 then (false, output)
  else
    let decoded := decode_loop (List.length data) data [] in
    (Decompressor.ValidateDecompressedContent decoded, decoded).

(** A stream that stores [literals] uncompressed: control bytes with all
    eight bits set, each followed by up to eight literals. *)
Fixpoint store_literals (literals : bytes) : bytes :=
  match literals with
  | [] => []
  | a :: b :: c :: d :: e :: f :: g :: h :: more =>
      255 :: a :: b :: c :: d :: e :: f :: g :: h :: store_literals more
  | short => 255 :: short
  end.

End Compression.

(* ------------------------------------------------------------------------- *)
(** ** Format detection and the file header *)

Module Detection.

Import Compression.

(** Equality of two byte strings ([std::string] [==] and [!=]). *)
Fixpoint bytes_eqb (a b : bytes) : bool :=
  match a, b with
  | [], [] => true
  | x :: a', y :: b' => (x =? y) && bytes_eqb a' b'
  | _, _ => false
  end.

(** [EnhancedXFileParser::DetectDataFormat] *)
Definition DetectDataFormat (data : bytes) : Format :=
  if Nat.ltb (List.length data) 16 then TEXT
  else
    let not_x_file :=
      Nat.leb 4 (List.length data)
      && negb (bytes_eqb (firstn 4 data) (chars "xof ")) in
    if not_x_file then
      if IsZipCompressed data || IsBzip2Compressed data || IsDirectXLZCompressed data
      then COMPRESSED
      else TEXT
    else if Nat.leb 16 (List.length data) then
      let header := firstn 16 data in
      let formatStr := firstn 4 (skipn 8 header) in
      if bytes_eqb formatStr (chars "txt ") then TEXT
      else if bytes_eqb formatStr (chars "bin ") then BINARY
      else if bytes_eqb formatStr (chars "tzip")
              || bytes_eqb formatStr (chars "bzip")
              || bytes_eqb formatStr (chars "lz")
      then COMPRESSED
      else TEXT
    else TEXT.

(** [EnhancedXFileParser::ValidateFileSignature] *)
Definition ValidateFileSignature (data : bytes) : bool :=
  if Nat.ltb (List.length data) 4 then false
  else bytes_eqb (firstn 4 data) (chars "xof ").

(** A [char] as the integer it promotes to ([char] is signed). *)
Definition char_code (c : ascii) : Z :=
  let n := Z.of_nat (nat_of_ascii c) in
  if n <? 128 then n else n - 256.

(** [str[k]] for [k] below the size *)
Definition char_at (s : string) (k : nat) : ascii :=
  match String.get k s with
  | Some c => c
  | None => zero
  end.

(** [XFileParser::ParseHeader], on the header record it fills; the
    [substr] calls come after the size test and cannot throw. *)
Definition ParseHeader (content : string) (h : XFileHeader) : bool * XFileHeader :=
  if size content <? 16 then (false, h)
  else if negb (String.eqb (String.substring 0 4 content) "xof ") then (false, h)
  else
    let versionStr := String.substring 4 4 content in
    let '(major, minor) :=
      if size versionStr >=? 4
      then (char_code (char_at versionStr 0) - 48, char_code (char_at versionStr 2) - 48)
      else (majorVersion h, minorVersion h) in
    let formatStr := String.substring 8 4 content in
    let fmt :=
      if String.eqb formatStr "txt " then TEXT
      else if String.eqb formatStr "bin " then BINARY
      else if String.eqb formatStr "tzip" || String.eqb formatStr "bzip" then COMPRESSED
      else TEXT in
    (true, mkHeader fmt major minor (hasAnimationTimingInfo h) (header_ticksPerSecond h)).

End Detection.

(* ------------------------------------------------------------------------- *)
(** ** XFileUtils: comment removal and whitespace normalisation *)

Module TextUtils.

Definition newline : ascii := ascii_of_nat 10.
Definition carriage_return : ascii := ascii_of_nat 13.
Definition backslash : ascii := ascii_of_nat 92.

(** Which of [inString], [inLineComment], [inBlockComment] is set. *)
Inductive scan_mode := Code | InString | InLineComment | InBlockComment.

(** The loop of [RemoveComments] from index [i] on.  [prev] is
    [content[i-1]] ([None] when [i == 0]); [skip] tells that this round was
    jumped over by the [i++] of the round before.  The lookahead [next] is
    the zero character at the end. *)
Fixpoint remove_from (content : string) (prev : option ascii) (mode : scan_mode)
         (skip : bool) : string :=
  match content with
  | EmptyString => EmptyString
  | String c rest =>
      if skip then remove_from rest (Some c) mode false
      else
        let next := match rest with String n _ => n | EmptyString => zero end in
        match mode with
        | InString =>
            let closes :=
              Ascii.eqb c quote
              && match prev with
                 | None => true
                 | Some p => negb (Ascii.eqb p backslash)
                 end in
            String c (remove_from rest (Some c) (if closes then Code else InString) false)
        | InLineComment =>
            if Ascii.eqb c newline || Ascii.eqb c carriage_return
            then String c (remove_from rest (Some c) Code false)
            else remove_from rest (Some c) InLineComment false
        | InBlockComment =>
            if Ascii.eqb c "*" && Ascii.eqb next "/"
            then remove_from rest (Some c) Code true
            else remove_from rest (Some c) InBlockComment false
        | Code =>
            if Ascii.eqb c quote
            then String c (remove_from rest (Some c) InString false)
            else if Ascii.eqb c "/" && Ascii.eqb next "/"
            then remove_from rest (Some c) InLineComment true
            else if Ascii.eqb c "/" && Ascii.eqb next "*"
            then remove_from rest (Some c) InBlockComment true
            else String c (remove_from rest (Some c) Code false)
        end
  end.

Definition RemoveComments (content : string) : string :=
  remove_from content None Code false.

(** [NormalizeWhitespace] calls [std::isspace(c)] with [c] a plain [char];
    where [char] is signed, a byte from 0x80 up is a negative argument and
    the call is undefined.  [seven_bit] tells the contents on which every
    such call is defined. *)
Definition seven_bit_char (c : ascii) : bool := Nat.ltb (nat_of_ascii c) 128.

Fixpoint seven_bit (content : string) : bool :=
  match content with
  | EmptyString => true
  | String c rest => seven_bit_char c && seven_bit rest
  end.

(** The loop of [NormalizeWhitespace], with its [lastWasSpace] flag.  For a
    byte from 0x80 up it gives the answer of the C locale's table (not a
    blank). *)
Fixpoint normalize_from (content : string) (lastWasSpace : bool) : string :=
  match content with
  | EmptyString => EmptyString
  | String c rest =>
      if isspace c then
        if lastWasSpace then normalize_from rest true
        else String " " (normalize_from rest true)
      else String c (normalize_from rest false)
  end.

Definition NormalizeWhitespace (content : string) : string :=
  normalize_from content false.

Definition PreprocessTextContent (content : string) : string :=
  NormalizeWhitespace (RemoveComments content).

(** The character occurs in the string. *)
Fixpoint has_char (c : ascii) (s : string) : bool :=
  match s with
  | EmptyString => false
  | String d s' => Ascii.eqb d c || has_char c s'
  end.

End TextUtils.

(* ------------------------------------------------------------------------- *)
(** ** XFileParser: the text format, from [ParseFromString] down *)

Module TextFormat.

Import StdLib TextParser TextUtils Detection.

(** The exceptions derived from [std::exception] that the parsing code can
    raise: [std::invalid_argument] and [std::out_of_range] of [std::stoi],
    [std::out_of_range] of [substr], [std::length_error] of [reserve], and
    [std::regex_error]. *)
Inductive raised := StoiError | SubstrError | LengthError | RegexError.

(** What the parser takes from the C++ library and the platform:
    [std::stof] ([None] when it throws), whether the template search
    raises, the text of [e.what()], the text of a validation message, and
    the value of a [float] member that no constructor sets. *)
Record Platform := mkPlatform {
  stof : string -> option float;
  regex_raises : string -> bool;
  what : raised -> string;
  describe : ValidationError -> string;
  indeterminate : float
}.

(** How a piece of parsing code can end other than by returning: with an
    exception, in undefined behaviour, or with the loop bound of the model
    used up. *)
Inductive trouble := Raised (e : raised) | Undefined | OutOfFuel.

Inductive result (A : Type) :=
| Done (a : A)
| Failed (t : trouble).
Arguments Done {A} a.
Arguments Failed {A} t.

(** The stream that the object parsers share by reference, and the parser
    object.  What was done before an exception stays done. *)
Definition state : Type := stringstream * XFileParser.

Definition P (A : Type) : Type := state -> result A * state.

Definition ret {A : Type} (a : A) : P A := fun s => (Done a, s).
Definition fail {A : Type} (t : trouble) : P A := fun s => (Failed t, s).
Definition pbind {A B : Type} (m : P A) (k : A -> P B) : P B :=
  fun s =>
    match m s with
    | (Done a, s') => k a s'
    | (Failed t, s') => (Failed t, s')
    end.

Notation "x <-- m ;; k" := (pbind m (fun x => k))
  (at level 61, m at next level, right associativity).

Definition lift {A : Type} (c : checked A) : P A :=
  match c with
  | Ok a => ret a
  | Fault SubstrOutOfRange => fail (Raised SubstrError)
  | Fault OutOfBoundsAccess => fail Undefined
  | Fault FuelExhausted => fail OutOfFuel
  end.

(** [std::getline(stream, line)]: the line when the read succeeds *)
Definition read_line : P (option string) :=
  fun s =>
    let '(ok, line, ss) := getline (fst s) EmptyString newline in
    (Done (if ok then Some line else None), (ss, snd s)).

Definition set_data (p : XFileParser) (d : XFileData) : XFileParser :=
  mkParser (lineNumber_ p) d (strictMode_ p) (verboseLogging_ p).

Definition set_line (p : XFileParser) (n : Z) : XFileParser :=
  mkParser n (parsedData_ p) (strictMode_ p) (verboseLogging_ p).

Definition set_mesh (d : XFileData) (m : XMeshData) : XFileData :=
  mkFileData (header d) m (meshes d) (file_materials d) (file_animations d)
             (metadata d) (parseSuccessful d) (parseErrors d) (parseWarnings d).

Definition set_header (d : XFileData) (h : XFileHeader) : XFileData :=
  mkFileData h (meshData d) (meshes d) (file_materials d) (file_animations d)
             (metadata d) (parseSuccessful d) (parseErrors d) (parseWarnings d).

(** [lineNumber_++] on a [size_t] *)
Definition count_line : P unit :=
  fun s => (Done tt, (fst s, set_line (snd s) (size_add (lineNumber_ (snd s)) 1))).

Definition get_mesh : P XMeshData :=
  fun s => (Done (meshData (parsedData_ (snd s))), s).

Definition put_mesh (m : XMeshData) : P unit :=
  fun s => (Done tt, (fst s, set_data (snd s) (set_mesh (parsedData_ (snd s)) m))).

Definition push_vertex (v : XVertex) : P unit :=
  m <-- get_mesh ;;
  put_mesh (mkMeshData (mesh_name m) (vertices m ++ [v]) (faces m) (materials m)
                       (bones m) (animations m) (globalTicksPerSecond m)
                       (hasTimingInfo m)).

Definition push_face (f : XFace) : P unit :=
  m <-- get_mesh ;;
  put_mesh (mkMeshData (mesh_name m) (vertices m) (faces m ++ [f]) (materials m)
                       (bones m) (animations m) (globalTicksPerSecond m)
                       (hasTimingInfo m)).

Definition push_material (x : XMaterial) : P unit :=
  m <-- get_mesh ;;
  put_mesh (mkMeshData (mesh_name m) (vertices m) (faces m) (materials m ++ [x])
                       (bones m) (animations m) (globalTicksPerSecond m)
                       (hasTimingInfo m)).

Definition push_animation (a : XAnimationSet) : P unit :=
  m <-- get_mesh ;;
  put_mesh (mkMeshData (mesh_name m) (vertices m) (faces m) (materials m)
                       (bones m) (animations m ++ [a]) (globalTicksPerSecond m)
                       (hasTimingInfo m)).

(** The sizes of the vector elements on the LP64 layout. *)
Definition sizeof_XVertex : Z := 80.
Definition sizeof_XFace : Z := 48.

(** [v.reserve(n)] for an [int n]: the count is converted to [size_t], and
    a count above [max_size()] raises [std::length_error]. *)
Definition reserve (element_size n : Z) : P unit :=
  if n mod SIZE_MODULUS >? vector_max_size element_size
  then fail (Raised LengthError)
  else ret tt.

(** [s.find(c)] and [s.find_first_of(set)] *)
Fixpoint find_char_from (c : ascii) (s : string) (i : Z) : Z :=
  match s with
  | EmptyString => npos
  | String d s' => if Ascii.eqb d c then i else find_char_from c s' (i + 1)
  end.

Definition find_char (c : ascii) (s : string) : Z := find_char_from c s 0.

Fixpoint find_first_of_from (set s : string) (i : Z) : Z :=
  match s with
  | EmptyString => npos
  | String d s' => if mem_char d set then i else find_first_of_from set s' (i + 1)
  end.

Definition find_first_of (set s : string) : Z := find_first_of_from set s 0.

(** [s.find(word) != std::string::npos] *)
Definition mentions (word s : string) : bool :=
  match find (chars word) (chars s) with
  | Some _ => true
  | None => false
  end.

(** An upper bound on the rounds of a loop that reads a line per round:
    every line read takes at least one character off the stream. *)
Definition rounds (s : state) : nat := S (String.length (buffer (fst s))).

(** [std::to_string] of a size *)
Definition size_to_string (n : nat) : string := NilZero.string_of_uint (Nat.to_uint n).

Section Parsing.

Variable env : Platform.

(** [XFileUtils::ParseFloat]: the value and the [success] flag. *)
Definition ParseFloat (str : string) : float * bool :=
  match stof env str with
  | Some value => (value, true)
  | None => (f0, false)
  end.

(** The body of the token loop of [ParseFloatArray]. *)
Definition push_float_token (token : string) (result : list float) : checked (list float) :=
  token' <~ TrimWhitespace token ;;
  if negb (empty token') then
    let '(value, success) := ParseFloat token' in
    Ok (if success then result ++ [value] else result)
  else Ok result.

(** [while (getline(ss, token, ';') || getline(ss, token, ','))] *)
Fixpoint float_token_loop (fuel : nat) (ss : stringstream) (token : string)
         (result : list float) : checked (list float) :=
  match fuel with
  | O => Fault FuelExhausted
  | S fuel' =>
      let '(ok1, token1, ss1) := getline ss token ";" in
      if ok1 then
        result' <~ push_float_token token1 result ;;
        float_token_loop fuel' ss1 token1 result'
      else
        let '(ok2, token2, ss2) := getline ss1 token1 "," in
        if ok2 then
          result' <~ push_float_token token2 result ;;
          float_token_loop fuel' ss2 token2 result'
        else Ok result
  end.

Definition ParseFloatArray (data : string) : checked (list float) :=
  trimmed <~ TrimWhitespace data ;;
  let cleanData := strip_trailing_separator trimmed in
  float_token_loop (String.length cleanData + 3) (open_stream cleanData) EmptyString [].

Definition ParseVertexLine (line : string) : checked XVertex :=
  let vertex := XVertex_default in
  values <~ ParseFloatArray line ;;
  let value (k : nat) := nth k values f0 in
  if Nat.leb 3 (List.length values)
  then Ok (mkVertex (mkVector3 (value 0%nat) (value 1%nat) (value 2%nat))
                    (normal vertex) (texCoord vertex)
                    (boneIndices vertex) (boneWeights vertex))
  else Ok vertex.

Definition ParseKeyframeLine (line : string) (keyType : Z) : checked XKeyframe :=
  values <~ ParseFloatArray line ;;
  let value (k : nat) := nth k values f0 in
  let count := List.length values in
  let keyframe :=
    if Nat.leb 1 count then set_time XKeyframe_default (value 0%nat)
    else XKeyframe_default in
  Ok (if keyType =? 0 then
        if Nat.leb 5 count
        then mkKeyframe (time keyframe) (position keyframe)
                        (mkQuaternion (value 2%nat) (value 3%nat) (value 4%nat)
                                      (value 1%nat))
                        (scale keyframe)
        else keyframe
      else if keyType =? 1 then
        if Nat.leb 4 count
        then mkKeyframe (time keyframe) (position keyframe) (rotation keyframe)
                        (mkVector3 (value 1%nat) (value 2%nat) (value 3%nat))
        else keyframe
      else if keyType =? 2 then
        if Nat.leb 4 count
        then mkKeyframe (time keyframe)
                        (mkVector3 (value 1%nat) (value 2%nat) (value 3%nat))
                        (rotation keyframe) (scale keyframe)
        else keyframe
      else keyframe).

(** One character of the brace count, an [int]. *)
Definition count_brace (braceCount : Z) (c : ascii) : option Z :=
  if Ascii.eqb c "{" then
    if braceCount =? INT_MAX then None else Some (braceCount + 1)
  else if Ascii.eqb c "}" then
    if braceCount =? INT_MIN then None else Some (braceCount - 1)
  else Some braceCount.

Fixpoint count_braces (line : string) (braceCount : Z) : option Z :=
  match line with
  | EmptyString => Some braceCount
  | String c line' =>
      match count_brace braceCount c with
      | Some n => count_braces line' n
      | None => None
      end
  end.

(** [while (std::getline(stream, line) && braceCount > 0)]: the line is
    read before the count is looked at. *)
Fixpoint skip_loop (fuel : nat) (braceCount : Z) : P bool :=
  match fuel with
  | O => fail OutOfFuel
  | S fuel' =>
      got <-- read_line ;;
      match got with
      | None => ret true
      | Some line =>
          if braceCount >? 0 then
            _ <-- count_line ;;
            match count_braces line braceCount with
            | Some n => skip_loop fuel' n
            | None => fail Undefined
            end
          else ret true
      end
  end.

Definition SkipToClosingBrace : P bool := fun s => skip_loop (rounds s) 1 s.

Definition ParseFrameObject : P bool := SkipToClosingBrace.
Definition ParseMeshMaterialList : P bool := SkipToClosingBrace.
Definition ParseMeshNormals : P bool := SkipToClosingBrace.
Definition ParseMeshTextureCoords : P bool := SkipToClosingBrace.
Definition ParseSkinMeshHeader : P bool := SkipToClosingBrace.
Definition ParseSkinWeights : P bool := SkipToClosingBrace.

(** [std::stoi], raising *)
Definition stoi_or_raise (str : string) : P Z :=
  match stoi str with
  | Some value => ret value
  | None => fail (Raised StoiError)
  end.

(** The count lines of a mesh: trimmed and cut at the first semicolon,
    then read as an [int]. *)
Definition count_text (line : string) : checked string :=
  line1 <~ TrimWhitespace line ;;
  let semicolon := find_char ";" line1 in
  if negb (semicolon =? npos) then substr line1 0 semicolon else Ok line1.

Definition read_count (line : string) : P Z :=
  text <-- lift (count_text line) ;;
  stoi_or_raise text.

(** [for (int i = 0; i < count; i++)] reading one line per round; [false]
    when a line is missing. *)
Fixpoint read_vertices (count : nat) : P bool :=
  match count with
  | O => ret true
  | S count' =>
      got <-- read_line ;;
      match got with
      | None => ret false
      | Some line =>
          _ <-- count_line ;;
          vertex <-- lift (ParseVertexLine line) ;;
          _ <-- push_vertex vertex ;;
          read_vertices count'
      end
  end.

Fixpoint read_faces (count : nat) : P bool :=
  match count with
  | O => ret true
  | S count' =>
      got <-- read_line ;;
      match got with
      | None => ret false
      | Some line =>
          _ <-- count_line ;;
          face <-- lift (ParseFaceLine line) ;;
          _ <-- push_face face ;;
          read_faces count'
      end
  end.

(** The loop over the nested objects of a mesh. *)
Fixpoint nested_loop (fuel : nat) : P bool :=
  match fuel with
  | O => fail OutOfFuel
  | S fuel' =>
      got <-- read_line ;;
      match got with
      | None => ret true
      | Some line =>
          _ <-- count_line ;;
          line <-- lift (TrimWhitespace line) ;;
          if String.eqb line "}" then ret true
          else
            _ <-- (if mentions "MeshMaterialList" line then ParseMeshMaterialList
                   else if mentions "MeshNormals" line then ParseMeshNormals
                   else if mentions "MeshTextureCoords" line then ParseMeshTextureCoords
                   else if mentions "XSkinMeshHeader" line then ParseSkinMeshHeader
                   else if mentions "SkinWeights" line then ParseSkinWeights
                   else ret true) ;;
            nested_loop fuel'
      end
  end.

Definition ParseMeshObject : P bool :=
  got <-- read_line ;;
  match got with
  | None => ret false
  | Some line =>
      _ <-- count_line ;;
      vertexCount <-- read_count line ;;
      _ <-- reserve sizeof_XVertex vertexCount ;;
      complete <-- read_vertices (Z.to_nat vertexCount) ;;
      if negb complete then ret false
      else
        got <-- read_line ;;
        match got with
        | None => ret false
        | Some line =>
            _ <-- count_line ;;
            faceCount <-- read_count line ;;
            _ <-- reserve sizeof_XFace faceCount ;;
            complete <-- read_faces (Z.to_nat faceCount) ;;
            if negb complete then ret false
            else fun s => nested_loop (rounds s) s
        end
  end.

Definition set_keyframes (animSet : XAnimationSet) (duration : float)
           (keyframes : list XKeyframe) : XAnimationSet :=
  mkAnimationSet (anim_name animSet) duration (ticksPerSecond animSet) keyframes
                 (boneKeyframes animSet).

(** The keyframe loop of [ParseAnimationKeyObject], on the animation set
    it fills by reference. *)
Fixpoint read_keyframes (count : nat) (keyType : Z) (animSet : XAnimationSet)
  : P (bool * XAnimationSet) :=
  match count with
  | O => ret (true, animSet)
  | S count' =>
      got <-- read_line ;;
      match got with
      | None => ret (false, animSet)
      | Some line =>
          _ <-- count_line ;;
          keyframe <-- lift (ParseKeyframeLine line keyType) ;;
          let duration' :=
            if fgt (time keyframe) (duration animSet) then time keyframe
            else duration animSet in
          read_keyframes count' keyType
                         (set_keyframes animSet duration' (keyframes animSet ++ [keyframe]))
      end
  end.

(** [while (std::getline(stream, line))] up to a line that is a closing
    brace. *)
Fixpoint closing_loop (fuel : nat) : P unit :=
  match fuel with
  | O => fail OutOfFuel
  | S fuel' =>
      got <-- read_line ;;
      match got with
      | None => ret tt
      | Some line =>
          _ <-- count_line ;;
          trimmed <-- lift (TrimWhitespace line) ;;
          if String.eqb trimmed "}" then ret tt else closing_loop fuel'
      end
  end.

(** [std::stoi(TrimWhitespace(line.substr(0, line.find(';'))))] *)
Definition read_key_number (line : string) : P Z :=
  head <-- lift (substr line 0 (find_char ";" line)) ;;
  trimmed <-- lift (TrimWhitespace head) ;;
  stoi_or_raise trimmed.

Definition ParseAnimationKeyObject (animSet : XAnimationSet) : P (bool * XAnimationSet) :=
  got <-- read_line ;;
  match got with
  | None => ret (false, animSet)
  | Some line =>
      _ <-- count_line ;;
      keyType <-- read_key_number line ;;
      got <-- read_line ;;
      match got with
      | None => ret (false, animSet)
      | Some line =>
          _ <-- count_line ;;
          numKeys <-- read_key_number line ;;
          read <-- read_keyframes (Z.to_nat numKeys) keyType animSet ;;
          if negb (fst read) then ret (false, snd read)
          else
            _ <-- (fun s => closing_loop (rounds s) s) ;;
            ret (true, snd read)
      end
  end.

Fixpoint animation_loop (fuel : nat) (animSet : XAnimationSet) : P XAnimationSet :=
  match fuel with
  | O => fail OutOfFuel
  | S fuel' =>
      got <-- read_line ;;
      match got with
      | None => ret animSet
      | Some line =>
          _ <-- count_line ;;
          line <-- lift (TrimWhitespace line) ;;
          if String.eqb line "}" then ret animSet
          else if mentions "AnimationKey" line && negb (find_char "{" line =? npos) then
            parsed <-- ParseAnimationKeyObject animSet ;;
            animation_loop fuel' (snd parsed)
          else animation_loop fuel' animSet
      end
  end.

Definition ParseAnimationObject (animSet : XAnimationSet) : P (bool * XAnimationSet) :=
  animSet' <-- (fun s => animation_loop (rounds s) animSet s) ;;
  ret (true, animSet').

Fixpoint animation_set_loop (fuel : nat) (animSet : XAnimationSet) : P XAnimationSet :=
  match fuel with
  | O => fail OutOfFuel
  | S fuel' =>
      got <-- read_line ;;
      match got with
      | None => ret animSet
      | Some line =>
          _ <-- count_line ;;
          line <-- lift (TrimWhitespace line) ;;
          if String.eqb line "}" then ret animSet
          else if mentions "Animation" line && negb (find_char "{" line =? npos) then
            parsed <-- ParseAnimationObject animSet ;;
            animation_set_loop fuel' (snd parsed)
          else animation_set_loop fuel' animSet
      end
  end.

Definition ParseAnimationSetObject : P bool :=
  m <-- get_mesh ;;
  let animSet :=
    mkAnimationSet ("Animation_" ++ size_to_string (List.length (animations m)))
                   (duration XAnimationSet_default)
                   (ticksPerSecond XAnimationSet_default)
                   (keyframes XAnimationSet_default)
                   (boneKeyframes XAnimationSet_default) in
  animSet <-- (fun s => animation_set_loop (rounds s) animSet s) ;;
  _ <-- (if negb (is_empty (keyframes animSet)) then push_animation animSet else ret tt) ;;
  ret true.

(** [XMaterial material;]: the strings are empty, the colours zero, the
    two [float] members are not set. *)
Definition XMaterial_local : XMaterial :=
  mkMaterial EmptyString XVector3_default XVector3_default XVector3_default
             (indeterminate env) (indeterminate env)
             EmptyString EmptyString EmptyString.

Definition set_diffuseColor (x : XMaterial) (c : XVector3) : XMaterial :=
  mkMaterial (mat_name x) c (specularColor x) (emissiveColor x) (shininess x)
             (transparency x) (diffuseTexture x) (normalTexture x) (specularTexture x).

Definition set_diffuseTexture (x : XMaterial) (t : string) : XMaterial :=
  mkMaterial (mat_name x) (diffuseColor x) (specularColor x) (emissiveColor x)
             (shininess x) (transparency x) t (normalTexture x) (specularTexture x).

Fixpoint material_loop (fuel : nat) (material : XMaterial) : P XMaterial :=
  match fuel with
  | O => fail OutOfFuel
  | S fuel' =>
      got <-- read_line ;;
      match got with
      | None => ret material
      | Some line =>
          _ <-- count_line ;;
          line <-- lift (TrimWhitespace line) ;;
          if String.eqb line "}" then ret material
          else if mentions "TextureFilename" line then
            got <-- read_line ;;
            match got with
            | None => material_loop fuel' material
            | Some line =>
                _ <-- count_line ;;
                texture <-- lift (ParseStringLine line) ;;
                material_loop fuel' (set_diffuseTexture material texture)
            end
          else material_loop fuel' material
      end
  end.

Definition ParseMaterialObject : P bool :=
  let material := XMaterial_local in
  got <-- read_line ;;
  match got with
  | None => ret false
  | Some line =>
      _ <-- count_line ;;
      values <-- lift (ParseFloatArray line) ;;
      let value (k : nat) := nth k values f0 in
      let material :=
        if Nat.leb 3 (List.length values)
        then set_diffuseColor material
                              (mkVector3 (value 0%nat) (value 1%nat) (value 2%nat))
        else material in
      material <-- (fun s => material_loop (rounds s) material s) ;;
      _ <-- push_material material ;;
      ret true
  end.

(** The loop of [ParseDataObjects]. *)
Fixpoint data_objects_loop (fuel : nat) : P bool :=
  match fuel with
  | O => fail OutOfFuel
  | S fuel' =>
      got <-- read_line ;;
      match got with
      | None => ret true
      | Some line =>
          _ <-- count_line ;;
          line <-- lift (TrimWhitespace line) ;;
          head <-- lift (substr line 0 8) ;;
          if empty line || Ascii.eqb (char_at line 0) "/" || String.eqb head "template"
          then data_objects_loop fuel'
          else if negb (find_char "{" line =? npos) then
            cut <-- lift (substr line 0
                            (find_first_of (String " " (String (ascii_of_nat 9)
                                                          (String "{" EmptyString)))
                                           line)) ;;
            objectType <-- lift (TrimWhitespace cut) ;;
            if String.eqb objectType "Mesh" then
              parsed <-- ParseMeshObject ;;
              if negb parsed then ret false else data_objects_loop fuel'
            else if String.eqb objectType "Frame" then
              parsed <-- ParseFrameObject ;;
              if negb parsed then ret false else data_objects_loop fuel'
            else if String.eqb objectType "AnimationSet" then
              parsed <-- ParseAnimationSetObject ;;
              if negb parsed then ret false else data_objects_loop fuel'
            else if String.eqb objectType "Material" then
              parsed <-- ParseMaterialObject ;;
              if negb parsed then ret false else data_objects_loop fuel'
            else
              _ <-- SkipToClosingBrace ;;
              data_objects_loop fuel'
          else data_objects_loop fuel'
      end
  end.

(** [ParseDataObjects] opens its own stream on the content. *)
Definition ParseDataObjects (content : string) (p : XFileParser)
  : result bool * XFileParser :=
  let s := (open_stream content, set_line p 0) in
  let '(r, s') := data_objects_loop (rounds s) s in
  (r, snd s').

(** [ParseTemplateDefinitions] fills [templates_], which nothing reads;
    its result is [true] unless the search raises. *)
Definition ParseTemplateDefinitions (content : string) : result bool :=
  if regex_raises env content then Failed (Raised RegexError) else Done true.

Definition ParseTextFormat (content : string) (p : XFileParser)
  : result bool * XFileParser :=
  let cleanContent := PreprocessTextContent content in
  match substr cleanContent 16 npos with
  | Fault _ => (Failed (Raised SubstrError), p)
  | Ok dataContent =>
      match ParseTemplateDefinitions dataContent with
      | Failed t => (Failed t, p)
      | Done _ => ParseDataObjects dataContent p
      end
  end.

Definition AddParseError (error : string) (p : XFileParser) : XFileParser :=
  let d := parsedData_ p in
  set_data p (mkFileData (header d) (meshData d) (meshes d) (file_materials d)
                         (file_animations d) (metadata d) (parseSuccessful d)
                         (parseErrors d ++ [error]) (parseWarnings d)).

Definition AddParseWarning (warning : string) (p : XFileParser) : XFileParser :=
  let d := parsedData_ p in
  set_data p (mkFileData (header d) (meshData d) (meshes d) (file_materials d)
                         (file_animations d) (metadata d) (parseSuccessful d)
                         (parseErrors d) (parseWarnings d ++ [warning])).

Definition ParseBinaryFormat (content : string) (p : XFileParser) : bool * XFileParser :=
  (false,
   AddParseError
     "Binary format parsing not implemented in XFileParser, use BinaryXFileParser" p).

(** The warnings of [ValidateParsedData] for one animation. *)
Definition animation_warnings (anim : XAnimationSet) : list string :=
  (if is_empty (keyframes anim) && is_empty (boneKeyframes anim)
   then [("Animation '" ++ anim_name anim ++ "' has no keyframes")%string] else []) ++
  (if fle (duration anim) f0
   then [("Animation '" ++ anim_name anim ++ "' has zero or negative duration")%string]
   else []).

Definition ValidateParsedData (p : XFileParser) : bool * XFileParser :=
  let errors := GetValidationErrors (meshData (parsedData_ p)) in
  let p1 := fold_left (fun q error => AddParseError (describe env error) q) errors p in
  let p2 := fold_left (fun q warning => AddParseWarning warning q)
                      (flat_map animation_warnings (animations (meshData (parsedData_ p1))))
                      p1 in
  (is_empty errors, p2).

End Parsing.

(** The first bone from index [j] on that has the name. *)
Fixpoint find_bone (name : string) (bs : list XBone) (j : nat) : option nat :=
  match bs with
  | [] => None
  | b :: bs' => if String.eqb (bone_name b) name then Some j else find_bone name bs' (S j)
  end.

Fixpoint update_bone (k : nat) (f : XBone -> XBone) (bs : list XBone) : list XBone :=
  match bs, k with
  | [], _ => []
  | b :: bs', O => f b :: bs'
  | b :: bs', S k' => b :: update_bone k' f bs'
  end.

Definition set_parentIndex (j : Z) (b : XBone) : XBone :=
  mkBone (bone_name b) (parentName b) j (bindPose b) (offsetMatrix b) (childIndices b).

Definition add_child (i : Z) (b : XBone) : XBone :=
  mkBone (bone_name b) (parentName b) (parentIndex b) (bindPose b) (offsetMatrix b)
         (childIndices b ++ [i]).

(** One round of the outer loop of [BuildSkeletonHierarchy]. *)
Definition link_bone (bs : list XBone) (i : nat) : list XBone :=
  match nth_error bs i with
  | None => bs
  | Some bone =>
      if negb (empty (parentName bone)) then
        match find_bone (parentName bone) bs 0 with
        | Some j =>
            update_bone j (add_child (static_cast_int (Z.of_nat i)))
              (update_bone i (set_parentIndex (static_cast_int (Z.of_nat j))) bs)
        | None => bs
        end
      else bs
  end.

Definition BuildSkeletonHierarchy (bs : list XBone) : list XBone :=
  fold_left link_bone (seq 0 (List.length bs)) bs.

Definition with_bones (d : XFileData) (bs : list XBone) : XFileData :=
  let m := meshData d in
  set_mesh d (mkMeshData (mesh_name m) (vertices m) (faces m) (materials m) bs
                         (animations m) (globalTicksPerSecond m) (hasTimingInfo m)).

Definition mark_successful (d : XFileData) : XFileData :=
  mkFileData (header d) (meshData d) (meshes d) (file_materials d) (file_animations d)
             (metadata d) true (parseErrors d) (parseWarnings d).

Section Entry.

Variable env : Platform.

(** The first part of the [try] block of [ParseFromString]: the header,
    then the parse that the format calls for.  [Done true] is [parseSuccess]
    being true; with [Done false] the block has returned [false]. *)
Definition parse_format (content : string) (p : XFileParser)
  : result bool * XFileParser :=
  let '(ok, h) := ParseHeader content (header (parsedData_ p)) in
  let p := set_data p (set_header (parsedData_ p) h) in
  if negb ok then (Done false, AddParseError "Failed to parse file header" p)
  else
    match format (header (parsedData_ p)) with
    | TEXT => ParseTextFormat env content p
    | BINARY => let '(b, q) := ParseBinaryFormat content p in (Done b, q)
    | COMPRESSED =>
        (Done false, AddParseError "Compressed .x files are not supported yet" p)
    end.

(** The rest of the block, from the call of [ExtractTimingInformation] on.
    [ProcessAnimationHierarchy], called after [BuildSkeletonHierarchy],
    only writes to the log. *)
Definition finish_parse (p : XFileParser) : result bool * XFileParser :=
  let p := set_data p (ExtractTimingInformation (parsedData_ p)) in
  let p := set_data p (with_bones (parsedData_ p)
                         (BuildSkeletonHierarchy (bones (meshData (parsedData_ p))))) in
  let '(valid, p) := ValidateParsedData env p in
  if negb valid then (Done false, AddParseError "Parsed data validation failed" p)
  else (Done true, set_data p (mark_successful (parsedData_ p))).

(** The body of the [try] block of [ParseFromString]. *)
Definition parse_guarded (content : string) (p : XFileParser)
  : result bool * XFileParser :=
  match parse_format content p with
  | (Done true, p) => finish_parse p
  | stopped => stopped
  end.

(** [ParseFromString]: exceptions are caught and reported, the two other
    kinds of trouble are not. *)
Definition ParseFromString (content : string) (p : XFileParser)
  : result bool * XFileParser :=
  if empty content then (Done false, AddParseError "Empty file content" p)
  else
    match parse_guarded content p with
    | (Failed (Raised e), p') =>
        (Done false, AddParseError ("Exception during parsing: " ++ what env e) p')
    | other => other
    end.

End Entry.

(** The stream has nothing more to give: a read fails at once. *)
Definition spent (s : state) : Prop := eofbit (fst s) || failbit (fst s) = true.

(** On a spent stream the operation returns [a], and leaves the stream
    spent and the parsed data as they are. *)
Definition idle {A : Type} (m : P A) (a : A) : Prop :=
  forall s : state,
    spent s ->
    exists s' : state,
      m s = (Done a, s') /\ spent s' /\ parsedData_ (snd s') = parsedData_ (snd s).

(** The objects of the model that a parse is there to read: the vertices,
    the faces, the materials, and the keyframes of each animation. *)
Definition objects (d : XFileData)
  : list XVertex * list XFace * list XMaterial * list (list XKeyframe) :=
  (vertices (meshData d), faces (meshData d), materials (meshData d),
   map keyframes (animations (meshData d))).

(** The lines [l1], ..., [ln], each followed by a line break. *)
Fixpoint unlines (lines : list string) : string :=
  match lines with
  | [] => EmptyString
  | l :: rest => (l ++ String newline (unlines rest))%string
  end.

(** A platform on which [std::stof] reads whole numbers only, and a small
    text file with one triangle. *)
Definition sample_platform : Platform :=
  mkPlatform (fun s => option_map of_int (stoi s)) (fun _ => false)
             (fun _ => "stoi"%string) (fun _ => "invalid mesh"%string) f0.

Definition sample_text : string :=
  unlines ["xof 0303txt 0032"; "Mesh {"; " 3;"; " 0;0;0;,"; " 1;0;0;,"; " 0;1;0;;";
           " 1;"; " 3;0;1;2;;"; "}"]%string.

End TextFormat.

(* ------------------------------------------------------------------------- *)
(** ** The states a text parser can be in *)

Module Lifecycle.

Import StdLib TextParser TextUtils TextFormat.



Section ParseFile.

Variable env : Platform.


End ParseFile.














End Lifecycle.

(* ------------------------------------------------------------------------- *)
(** ** The command line of the converter (main.cpp) *)

Module CommandLine.

Import StdLib Detection.

Inductive LogLevel := DEBUG | INFO | WARNING | ERROR | CRITICAL.

Record ConversionOptions := mkOptions {
  inputFile : string;
  outputDirectory : string;
  verboseLogging : bool;
  strictMode : bool;
  validateTiming : bool;
  generateReport : bool;
  logLevel : LogLevel
}.

Definition ConversionOptions_default : ConversionOptions :=
  mkOptions EmptyString "./output" false false true true INFO.

(** How [ParseCommandLine] ends: it returns, or [exit(0)] ends the program
    after the version has been printed. *)
Inductive ended :=
| Returned (result : bool) (options : ConversionOptions)
| Exited (status : Z).

Definition set_inputFile (o : ConversionOptions) (f : string) : ConversionOptions :=
  mkOptions f (outputDirectory o) (verboseLogging o) (strictMode o) (validateTiming o)
            (generateReport o) (logLevel o).

Definition set_outputDirectory (o : ConversionOptions) (d : string) : ConversionOptions :=
  mkOptions (inputFile o) d (verboseLogging o) (strictMode o) (validateTiming o)
            (generateReport o) (logLevel o).

Definition set_logLevel (o : ConversionOptions) (l : LogLevel) : ConversionOptions :=
  mkOptions (inputFile o) (outputDirectory o) (verboseLogging o) (strictMode o)
            (validateTiming o) (generateReport o) l.

Definition set_verbose (o : ConversionOptions) : ConversionOptions :=
  mkOptions (inputFile o) (outputDirectory o) true (strictMode o) (validateTiming o)
            (generateReport o) DEBUG.

Definition set_strict (o : ConversionOptions) : ConversionOptions :=
  mkOptions (inputFile o) (outputDirectory o) (verboseLogging o) true (validateTiming o)
            (generateReport o) (logLevel o).

Definition clear_validateTiming (o : ConversionOptions) : ConversionOptions :=
  mkOptions (inputFile o) (outputDirectory o) (verboseLogging o) (strictMode o) false
            (generateReport o) (logLevel o).

Definition clear_generateReport (o : ConversionOptions) : ConversionOptions :=
  mkOptions (inputFile o) (outputDirectory o) (verboseLogging o) (strictMode o)
            (validateTiming o) false (logLevel o).

(** The level that a [--log-level] argument names. *)
Definition level_named (levelStr : string) : option LogLevel :=
  if String.eqb levelStr "debug" then Some DEBUG
  else if String.eqb levelStr "info" then Some INFO
  else if String.eqb levelStr "warning" then Some WARNING
  else if String.eqb levelStr "error" then Some ERROR
  else None.

(** [return !options.inputFile.empty()], once the loop has ended *)
Definition after_loop (options : ConversionOptions) : ended :=
  Returned (negb (empty (inputFile options))) options.

(** The loop [for (int i = 1; i < argc; i++)] from index [i] on, [args]
    being [argv[i]], ..., [argv[argc - 1]].  The [--output] branch takes
    the next argument with [argv[++i]]; the [--log-level] branch does the
    same and then increments [i] once more before the loop does. *)
Fixpoint argument_loop (args : list string) (options : ConversionOptions) : ended :=
  match args with
  | [] => after_loop options
  | arg :: rest =>
      if String.eqb arg "--help" || String.eqb arg "-h" then Returned false options
      else if String.eqb arg "--version" || String.eqb arg "-v" then Exited 0
      else if String.eqb arg "--verbose" then argument_loop rest (set_verbose options)
      else if String.eqb arg "--strict" then argument_loop rest (set_strict options)
      else if String.eqb arg "--no-timing-validation"
      then argument_loop rest (clear_validateTiming options)
      else if String.eqb arg "--no-report"
      then argument_loop rest (clear_generateReport options)
      else if String.eqb arg "--output" || String.eqb arg "-o" then
        match rest with
        | directory :: rest' => argument_loop rest' (set_outputDirectory options directory)
        | [] => Returned false options
        end
      else if String.eqb arg "--log-level" then
        match rest with
        | levelStr :: rest' =>
            match level_named levelStr with
            | Some level =>
                match rest' with
                | _ :: rest'' => argument_loop rest'' (set_logLevel options level)
                | [] => after_loop (set_logLevel options level)
                end
            | None => Returned false options
            end
        | [] => Returned false options
        end
      else if negb (Ascii.eqb (char_at arg 0) "-") then
        if empty (inputFile options) then argument_loop rest (set_inputFile options arg)
        else Returned false options
      else Returned false options
  end.

(** [ParseCommandLine(argc, argv, options)], [argv] holding the [argc]
    arguments with the program name first. *)
Definition ParseCommandLine (argv : list string) (options : ConversionOptions) : ended :=
  if Nat.ltb (List.length argv) 2 then Returned false options
  else argument_loop (tl argv) options.

(** One of the four switches that take no value. *)
Definition switch (arg : string) : bool :=
  String.eqb arg "--verbose" || String.eqb arg "--strict"
  || String.eqb arg "--no-timing-validation" || String.eqb arg "--no-report".

(** An argument that the loop takes for the input file. *)
Definition file_argument (arg : string) : bool :=
  negb (empty arg) && negb (Ascii.eqb (char_at arg 0) "-").

End CommandLine.

(* ------------------------------------------------------------------------- *)
(** ** The value lists of a line, piece by piece *)

Module Pieces.

Import StdLib TextParser.

(** The pieces of a text between its semicolons, as successive reads up to
    a semicolon deliver them: nothing for the empty text, and no empty
    piece after a final semicolon. *)
Fixpoint semicolon_pieces (s : string) : list string :=
  match s with
  | EmptyString => []
  | String c s' =>
      if Ascii.eqb c ";" then EmptyString :: semicolon_pieces s'
      else
        match semicolon_pieces s' with
        | [] => [String c EmptyString]
        | piece :: more => String c piece :: more
        end
  end.

(** The integer that a piece contributes, if any: what [std::stoi] reads at
    the start of the trimmed piece. *)
Definition piece_value (piece : string) : list Z :=
  match TrimWhitespace piece with
  | Ok token =>
      if negb (empty token) then
        match stoi token with
        | Some value => [value]
        | None => []
        end
      else []
  | Fault _ => []
  end.

End Pieces.

(* ------------------------------------------------------------------------- *)
(** ** A mesh given line by line *)

Module MeshLines.

Import StdLib TextParser TextUtils TextFormat Pieces.

(** The number that the float parser contributes for a piece, if any. *)
Definition float_piece_value (env : Platform) (piece : string) : list float :=
  match TrimWhitespace piece with
  | Ok token =>
      if negb (empty token) then
        match stof env token with
        | Some value => [value]
        | None => []
        end
      else []
  | Fault _ => []
  end.

(** The vertex and the face that the line parsers return for a line. *)
Definition vertex_of (env : Platform) (line : string) : XVertex :=
  match ParseVertexLine env line with
  | Ok vertex => vertex
  | Fault _ => XVertex_default
  end.

Definition face_of (line : string) : XFace :=
  match ParseFaceLine line with
  | Ok face => face
  | Fault _ => XFace_default
  end.

(** The number on a count line. *)
Definition count_of (line : string) : option Z :=
  match count_text line with
  | Ok text => stoi text
  | Fault _ => None
  end.

Definition add_vertices (vs : list XVertex) (m : XMeshData) : XMeshData :=
  mkMeshData (mesh_name m) (vertices m ++ vs) (faces m) (materials m) (bones m)
             (animations m) (globalTicksPerSecond m) (hasTimingInfo m).

Definition add_faces (fs : list XFace) (m : XMeshData) : XMeshData :=
  mkMeshData (mesh_name m) (vertices m) (faces m ++ fs) (materials m) (bones m)
             (animations m) (globalTicksPerSecond m) (hasTimingInfo m).

(** The parser after [lines] more lines have been counted, holding the
    mesh [m]. *)
Definition advanced (p : XFileParser) (lines : nat) (m : XMeshData) : XFileParser :=
  mkParser (Nat.iter lines (fun n => size_add n 1) (lineNumber_ p))
           (set_mesh (parsedData_ p) m) (strictMode_ p) (verboseLogging_ p).

(** No line break inside any of the lines. *)
Definition single_lines (lines : list string) : Prop :=
  Forall (fun l => has_char newline l = false) lines.

End MeshLines.

(* ------------------------------------------------------------------------- *)
(** ** EnhancedXFileParser: parsing from bytes *)

Module Enhanced.

Import StdLib Compression Detection TextFormat Facade.

(** The two decompressors that rest on code outside the parser; [None]
    when they return [false], the decompressed bytes otherwise. *)
Record Decompressors := mkDecompressors {
  DecompressBzip2 : bytes -> option bytes;
  DecompressDirectXLZ : bytes -> option bytes
}.

(** [XFileDecompressor::DecompressZipped] is a placeholder. *)
Definition DecompressZipped (compressedData : bytes) : option bytes := None.

(** [BinaryXFileParser::ParseBinaryData] *)
Definition ParseBinaryData (data : bytes) : bool :=
  if Nat.ltb (List.length data) 16 then false
  else if Nat.leb 4 (List.length data)
          && negb (bytes_eqb (firstn 4 data) (chars "xof "))
  then false
  else false.

Section ParseFromData.

Variable env : Platform.
Variable tools : Decompressors.

(** [EnhancedXFileParser::ParseFromData]; [fuel] bounds the depth of the
    calls on decompressed data. *)
Fixpoint ParseFromData (fuel : nat) (data : bytes) (e : EnhancedXFileParser)
  : result bool * EnhancedXFileParser :=
  match fuel with
  | O => (Failed OutOfFuel, e)
  | S fuel' =>
      match DetectDataFormat data with
      | TEXT =>
          let '(r, parser) :=
            ParseFromString env (Reader.to_string data) (textParser_ e) in
          (r, mkEnhanced parser (binaryParser_ e))
      | BINARY => (Done (ParseBinaryData data), e)
      | COMPRESSED =>
          let decompressed :=
            if IsZipCompressed data then DecompressZipped data
            else if IsBzip2Compressed data then DecompressBzip2 tools data
            else if IsDirectXLZCompressed data then DecompressDirectXLZ tools data
            else None in
          match decompressed with
          | None => (Done false, e)
          | Some decompressedData => ParseFromData fuel' decompressedData e
          end
      end
  end.

End ParseFromData.

(** The text parser of the object holds no vertex. *)
Definition holds_no_vertex (e : EnhancedXFileParser) : Prop :=
  vertices (meshData (TextParser.parsedData_ (textParser_ e))) = [].

(** Decompressors that give nothing. *)
Definition no_tools : Decompressors := mkDecompressors (fun _ => None) (fun _ => None).

End Enhanced.

(* ------------------------------------------------------------------------- *)
(** ** XFileDecompressor: extraction by pattern *)

Module PatternExtraction.

Import StdLib Decompressor.

(** How [TryPatternBasedDecompression] ends: it returns, with a value for
    [output], or it reads outside [data]. *)
Inductive ended :=
| Finished (result : bool) (output : bytes)
| OutOfBounds.

(** The first loop from index [i] on, [rest] being the bytes of [data]
    from [i]; the condition [i < data.size() - 3] holds while four bytes
    are left. *)
Fixpoint signature_scan (rest output : bytes) : bool * bytes :=
  match rest with
  | [] => (false, output)
  | _ :: rest' =>
      if Nat.ltb (List.length rest) 4 then (false, output)
      else
        let d (k : nat) := nth k rest 0 in
        if (d 0%nat =? 120) && (d 1%nat =? 111) && (d 2%nat =? 102) && (d 3%nat =? 32)
        then
          if ValidateDecompressedContent rest then (true, rest)
          else signature_scan rest' rest
        else signature_scan rest' output
  end.

(** The second loop from index [i] on; [i <= data.size() - 8] holds while
    eight bytes are left.  Both branches of the test [i > 0] assign the
    whole of [data]. *)
Fixpoint template_scan (data rest output : bytes) : bool * bytes :=
  match rest with
  | [] => (false, output)
  | _ :: rest' =>
      if Nat.ltb (List.length rest) 8 then (false, output)
      else if starts_with (chars "template") rest then
        if ValidateDecompressedContent data then (true, data)
        else template_scan data rest' data
      else template_scan data rest' output
  end.

(** With fewer than three bytes the bound [data.size() - 3] of the first
    loop wraps around, and with fewer than eight the bound of the second
    one does: the loops then index [data] beyond its end. *)
Definition TryPatternBasedDecompression (data output : bytes) : ended :=
  if Nat.ltb (List.length data) 3 then OutOfBounds
  else
    let '(found, output1) := signature_scan data output in
    if found then Finished true output1
    else if Nat.ltb (List.length data) 8 then OutOfBounds
    else
      let '(found2, output2) := template_scan data data output1 in
      Finished found2 output2.

End PatternExtraction.

(* ========================================================================= *)
(** * Properties *)

(* ------------------------------------------------------------------------- *)
(** ** Keyframe time conversion *)

Lemma rates_4800_30_differ :
  fgt (fabs (fsub f4800 (of_int 30))) (literal 1 10) = true.
Proof. vm_compute. reflexivity. Qed.

Lemma scale_4800_30 : fdiv f4800 (of_int 30) = of_int 160.
Proof. vm_compute. reflexivity. Qed.

(** C1 (evaluation of the code): converting from 4800 to 30 ticks per second
    multiplies every keyframe time by 4800/30 = 160.  On the keyframes at
    {0, 1600, 3200} the time 1600 becomes 256000, whereas the value the
    timing test computes as [(1600/4800)*30] is 10. *)
Theorem ConvertKeyframeTiming_4800_to_30_scales_by_160 :
  (forall ks : list XKeyframe,
      map time (ConvertKeyframeTiming ks f4800 (of_int 30))
      = map (fun k => fmul (time k) (of_int 160)) ks)
  /\ map time (ConvertKeyframeTiming [keyframe_at 0; keyframe_at 1600; keyframe_at 3200]
                                    f4800 (of_int 30))
     = [of_int 0; of_int 256000; of_int 512000]
  /\ fmul (fdiv (of_int 1600) f4800) (of_int 30) = of_int 10
  /\ feq (of_int 256000) (of_int 10) = false.
Proof.
  split; [| repeat split; vm_compute; reflexivity].
  intros ks. unfold ConvertKeyframeTiming.
  rewrite rates_4800_30_differ, scale_4800_30.
  rewrite map_map. apply map_ext. intros k. reflexivity.
Qed.

(* ------------------------------------------------------------------------- *)
(** ** Keyframe-interval analysis *)

Lemma frame_rate_loop_result (medianInterval : float) (rates : list float) :
  frame_rate_loop medianInterval rates = None
  \/ frame_rate_loop medianInterval rates = Some f4800.
Proof.
  induction rates as [| fps rates IH]; simpl.
  - left. reflexivity.
  - destruct (flt _ _); [right; reflexivity | exact IH].
Qed.

Lemma AnalyzeKeyframePattern_4800 (keyframeTimes : list float) :
  AnalyzeKeyframePattern keyframeTimes = f4800.
Proof.
  unfold AnalyzeKeyframePattern.
  destruct (Nat.ltb _ _); [reflexivity |].
  destruct (negb _); [| reflexivity].
  destruct (frame_rate_loop_result
              (CalculateMedian match keyframeTimes with
                               | [] => []
                               | t0 :: r => intervals_from t0 r
                               end)
              [of_int 24; of_int 25; of_int 30; of_int 60]) as [E | E];
    rewrite E; reflexivity.
Qed.

(** C9: [AnalyzeKeyframePattern] returns 4800 on every list of keyframe
    times.  Fewer than two times give the default at once; otherwise the
    frame-rate loop either leaves with 4800 or falls through to the final
    4800.  Both ways out of the loop occur (times {0,160,320} match 30 fps,
    times {0,1,2} match nothing). *)
Theorem AnalyzeKeyframePattern_always_4800 :
  (forall keyframeTimes : list float, AnalyzeKeyframePattern keyframeTimes = f4800)
  /\ (forall (medianInterval : float) (rates : list float),
         frame_rate_loop medianInterval rates = None
         \/ frame_rate_loop medianInterval rates = Some f4800)
  /\ frame_rate_loop (CalculateMedian [of_int 160; of_int 160])
                     [of_int 24; of_int 25; of_int 30; of_int 60] = Some f4800
  /\ frame_rate_loop (CalculateMedian [of_int 1; of_int 1])
                     [of_int 24; of_int 25; of_int 30; of_int 60] = None.
Proof.
  split; [exact AnalyzeKeyframePattern_4800 |].
  split; [exact frame_rate_loop_result |].
  split; vm_compute; reflexivity.
Qed.

(* ------------------------------------------------------------------------- *)
(** ** Timing correction *)

Lemma validity_conditions (corrected timingError : float) :
  ValidateAnimationDuration corrected && fle timingError TIMING_TOLERANCE = true
  <-> fle MIN_REASONABLE_DURATION corrected = true
      /\ fle corrected MAX_REASONABLE_DURATION = true
      /\ fle timingError TIMING_TOLERANCE = true.
Proof.
  unfold ValidateAnimationDuration, fge.
  rewrite !andb_true_iff. tauto.
Qed.

Lemma AnalyzeAnimationTiming_4800 (name : string) (ks : list XKeyframe)
      (bks : list (string * list XKeyframe)) :
  analysis_detectedTicksPerSecond
    (AnalyzeAnimationTiming (mkAnimationSet name f4800 f4800 ks bks)) = f4800.
Proof.
  unfold AnalyzeAnimationTiming. simpl.
  destruct (is_empty ks); [reflexivity |].
  replace (fgt f4800 f0 && IsReasonableDuration (fdiv f4800 f4800)) with true
    by (vm_compute; reflexivity).
  reflexivity.
Qed.

Lemma apply_correction_same_rate (a : XAnimationSet) :
  ticksPerSecond a = f4800 -> apply_correction a f4800 f4800 = a.
Proof.
  intros _. unfold apply_correction.
  replace (fgt (fabs (fsub f4800 f4800)) (literal 1 10)) with false
    by (vm_compute; reflexivity).
  reflexivity.
Qed.

(** C3: the result of [CorrectAnimationTiming] records the original and the
    corrected duration in seconds (duration over ticks per second, before
    and after the correction) and is marked valid exactly when the corrected
    duration lies within [0.05, 600] and differs from the original one by at
    most 0.1 in absolute value.  An animation declaring 4800 ticks per
    second and a duration of 4800 is left as it is, its result is valid and
    its corrected duration is exactly 1.0 (hence within 0.01 of it). *)
Theorem CorrectAnimationTiming_valid_iff :
  (forall a : XAnimationSet,
      let r := fst (CorrectAnimationTiming a) in
      let a' := snd (CorrectAnimationTiming a) in
      originalDurationSeconds r = fdiv (duration a) (ticksPerSecond a)
      /\ correctedDurationSeconds r = fdiv (duration a') (ticksPerSecond a')
      /\ (isValid r = true
          <-> fle MIN_REASONABLE_DURATION (correctedDurationSeconds r) = true
              /\ fle (correctedDurationSeconds r) MAX_REASONABLE_DURATION = true
              /\ fle (fabs (fsub (originalDurationSeconds r) (correctedDurationSeconds r)))
                     TIMING_TOLERANCE = true))
  /\ (forall (name : string) (ks : list XKeyframe) (bks : list (string * list XKeyframe)),
         let a := mkAnimationSet name f4800 f4800 ks bks in
         let r := fst (CorrectAnimationTiming a) in
         isValid r = true
         /\ correctedDurationSeconds r = f1
         /\ fle (fabs (fsub (correctedDurationSeconds r) f1)) (literal 1 100) = true
         /\ snd (CorrectAnimationTiming a) = a).
Proof.
  split.
  - intros a. cbv zeta. unfold CorrectAnimationTiming. cbn [fst snd].
    cbn [originalDurationSeconds correctedDurationSeconds isValid].
    split; [reflexivity |]. split; [reflexivity |].
    apply validity_conditions.
  - intros name ks bks. cbv zeta. unfold CorrectAnimationTiming.
    cbn [ticksPerSecond duration].
    rewrite AnalyzeAnimationTiming_4800.
    rewrite apply_correction_same_rate by reflexivity.
    cbn [fst snd ticksPerSecond duration isValid correctedDurationSeconds].
    repeat split; vm_compute; reflexivity.
Qed.

Lemma CorrectAnimationTiming_valid_iff_witness :
  isValid (fst (CorrectAnimationTiming
                  (mkAnimationSet "walk" (of_int 2400) f4800
                                  [keyframe_at 0; keyframe_at 2400] []))) = true.
Proof.
  apply (proj2 (proj2 (proj2 (proj1 CorrectAnimationTiming_valid_iff
           (mkAnimationSet "walk" (of_int 2400) f4800
                           [keyframe_at 0; keyframe_at 2400] []))))).
  repeat split; vm_compute; reflexivity.
Defined.

(* ------------------------------------------------------------------------- *)
(** ** Mesh validation: material indices *)

Lemma in_indexed_errors {A : Type} (f : nat -> A -> list ValidationError)
      (e : ValidationError) (l : list A) :
  forall from : nat,
    In e (indexed_errors f from l)
    <-> exists (k : nat) (x : A), nth_error l k = Some x /\ In e (f (from + k)%nat x).
Proof.
  induction l as [| x l IH]; intros from; simpl.
  - split; [tauto |]. intros (k & y & H & _). destruct k; discriminate.
  - rewrite in_app_iff, IH. split.
    + intros [H | (k & y & Hk & H)].
      * exists 0%nat, x. rewrite Nat.add_0_r. auto.
      * exists (S k), y. rewrite Nat.add_succ_r. auto.
    + intros (k & y & Hk & H). destruct k as [| k]; simpl in Hk.
      * injection Hk as ->. rewrite Nat.add_0_r in H. auto.
      * right. exists k, y. rewrite Nat.add_succ_r in H. auto.
Qed.

(** The material check of one face, on its own. *)
Lemma in_face_errors (maxVertexIndex materialCount : Z) (i j : nat) (face : XFace) (mi : Z) :
  In (InvalidMaterialIndex j mi) (face_errors maxVertexIndex materialCount i face)
  <-> j = i /\ mi = materialIndex face /\ materialCount <= mi /\ mi <> -1.
Proof.
  unfold face_errors. rewrite in_app_iff. split.
  - intros [H | H].
    + apply in_flat_map in H. destruct H as (v & _ & H).
      destruct (_ || _); simpl in H; [destruct H as [H | []]; discriminate | tauto].
    + destruct (materialIndex face >=? materialCount) eqn:Hge; simpl in H; [| tauto].
      destruct (materialIndex face =? -1) eqn:Hm1; simpl in H; [tauto |].
      destruct H as [H | []]. injection H as <- <-.
      apply Z.geb_le in Hge. apply Z.eqb_neq in Hm1. auto.
  - intros (-> & -> & Hge & Hm1). right.
    apply Z.geb_le in Hge. apply Z.eqb_neq in Hm1. rewrite Hge, Hm1. simpl. auto.
Qed.

Ltac other_message H :=
  repeat match type of H with
         | In _ (_ ++ _) => apply in_app_iff in H; destruct H as [H | H]
         | In _ (if ?c then _ else _) => destruct c
         | In _ (flat_map _ _) =>
             let x := fresh "x" in apply in_flat_map in H; destruct H as (x & _ & H)
         | In _ [] => destruct H
         | In _ [_] => destruct H as [H | []]; discriminate H
         end.

Lemma order_errors_other (name : string) (j : nat) (mi : Z) (l : list XKeyframe) :
  forall (k : nat) (prev : float),
    ~ In (InvalidMaterialIndex j mi) (order_errors name k prev l).
Proof.
  induction l as [| x l IH]; intros k prev H; simpl in H; [exact H |].
  destruct (flt _ _); [other_message H | exact (IH _ _ H)].
Qed.

(** Which material-index messages a mesh with vertices gets: one for each
    face whose index is at least the material count (and is not -1). *)
Lemma material_errors_reported (m : XMeshData) (i : nat) (mi : Z) :
  vertices m <> [] ->
  (In (InvalidMaterialIndex i mi) (GetValidationErrors m)
   <-> exists face : XFace,
        nth_error (faces m) i = Some face /\ materialIndex face = mi
        /\ static_cast_int (Z.of_nat (List.length (materials m))) <= mi /\ mi <> -1).
Proof.
  intros Hv. unfold GetValidationErrors.
  destruct (vertices m) as [| v0 vs] eqn:Ev; [contradiction |]. cbn [is_empty].
  split.
  - intros H.
    apply in_app_iff in H. destruct H as [H | H]; [other_message H |].
    apply in_app_iff in H. destruct H as [H | H].
    + apply in_indexed_errors in H. destruct H as (k & face & Hk & H).
      apply in_face_errors in H. destruct H as (-> & -> & Hge & Hm1).
      exists face. auto.
    + exfalso.
      apply in_app_iff in H. destruct H as [H | H].
      * destruct (is_empty (bones m)); [destruct H |].
        apply in_app_iff in H. destruct H as [H | H];
          apply in_indexed_errors in H; destruct H as (k & x & _ & H).
        -- unfold bone_errors in H. other_message H.
        -- unfold vertex_errors in H. other_message H.
      * apply in_app_iff in H. destruct H as [H | H]; [| other_message H].
        apply in_indexed_errors in H. destruct H as (k & x & _ & H).
        unfold animation_errors in H.
        do 3 (apply in_app_iff in H; destruct H as [H | H]; [other_message H |]).
        apply in_app_iff in H. destruct H as [H | H]; [| other_message H].
        destruct (keyframes x); [destruct H |]. exact (order_errors_other _ _ _ _ _ _ H).
  - intros (face & Hk & <- & Hge & Hm1).
    apply in_app_iff. right. apply in_app_iff. left.
    apply in_indexed_errors. exists i, face. split; [exact Hk |].
    apply in_face_errors. auto.
Qed.

(** C6 (evaluation of the code): a face whose material index is -2 gets no
    validation message at all, and the mesh counts as valid, although -2 is
    neither -1 nor within [0, materialCount).  An index at or above the
    material count is reported, and a negative vertex index is reported by
    the check just before.  No negative material index is ever reported
    (for a material count that fits an [int]). *)
Theorem GetValidationErrors_misses_negative_material_index :
  GetValidationErrors (one_face_mesh (-2)) = []
  /\ IsValid (one_face_mesh (-2)) = true
  /\ GetValidationErrors (one_face_mesh 0) = [InvalidMaterialIndex 0 0]
  /\ face_errors 0 0 0 (mkFace (-2, 0, 0) [0; 0; 0] (-1)) = [InvalidVertexIndex 0 (-2)]
  /\ (forall (m : XMeshData) (i : nat) (face : XFace),
         vertices m <> [] ->
         Z.of_nat (List.length (materials m)) <= INT_MAX ->
         nth_error (faces m) i = Some face ->
         materialIndex face < 0 ->
         ~ In (InvalidMaterialIndex i (materialIndex face)) (GetValidationErrors m)).
Proof.
  do 4 (split; [vm_compute; reflexivity |]).
  intros m i face Hv Hmax Hi Hneg H.
  apply material_errors_reported in H; [| exact Hv].
  destruct H as (face' & _ & _ & Hge & _).
  unfold static_cast_int, INT_MAX in *.
  rewrite Z.mod_small in Hge by lia.
  destruct (Z.ltb_spec (Z.of_nat (List.length (materials m))) 2147483648); lia.
Qed.

Lemma GetValidationErrors_misses_negative_material_index_witness :
  ~ In (InvalidMaterialIndex 0 (-2)) (GetValidationErrors (one_face_mesh (-2))).
Proof.
  apply (proj2 (proj2 (proj2 (proj2 GetValidationErrors_misses_negative_material_index)))
           (one_face_mesh (-2)) 0%nat (mkFace (0, 0, 0) [0; 0; 0] (-2))).
  - discriminate.
  - vm_compute. discriminate.
  - reflexivity.
  - reflexivity.
Defined.

(* ------------------------------------------------------------------------- *)
(** ** Result retrieval of the format-detecting parser *)


(* ------------------------------------------------------------------------- *)
(** ** Timing extraction *)

Lemma first_explicit_rate_found (anims : list XAnimationSet) :
  snd (first_explicit_rate anims) = true
  <-> exists a : XAnimationSet, In a anims /\ fgt (ticksPerSecond a) f0 = true.
Proof.
  induction anims as [| a anims IH]; simpl.
  - split; [discriminate |]. intros (a & [] & _).
  - destruct (fgt (ticksPerSecond a) f0) eqn:E; simpl.
    + split; [| reflexivity]. intros _. exists a. auto.
    + rewrite IH. split.
      * intros (b & Hb & H). exists b. auto.
      * intros (b & [<- | Hb] & H); [congruence |]. exists b. auto.
Qed.

Lemma ExtractTimingInformation_flag (d : XFileData) :
  hasTimingInfo (meshData (ExtractTimingInformation d))
  = snd (first_explicit_rate (animations (meshData d))).
Proof.
  unfold ExtractTimingInformation.
  destruct (first_explicit_rate _) as [ticks found]. reflexivity.
Qed.

Lemma ExtractTimingInformation_rate (d : XFileData) :
  globalTicksPerSecond (meshData (ExtractTimingInformation d))
  = if snd (first_explicit_rate (animations (meshData d)))
    then fst (first_explicit_rate (animations (meshData d)))
    else f4800.
Proof.
  unfold ExtractTimingInformation.
  destruct (first_explicit_rate _) as [ticks found]. destruct found; reflexivity.
Qed.

(** The pass on any data: the flag tells that some animation has a
    positive rate, the header flag is the same, and without such an
    animation [globalTicksPerSecond] is 4800. *)
Lemma ExtractTimingInformation_positive_rate (d : XFileData) :
  (hasTimingInfo (meshData (ExtractTimingInformation d)) = true
   <-> exists a : XAnimationSet,
        In a (animations (meshData d)) /\ fgt (ticksPerSecond a) f0 = true)
  /\ hasAnimationTimingInfo (header (ExtractTimingInformation d))
     = hasTimingInfo (meshData (ExtractTimingInformation d))
  /\ ((forall a : XAnimationSet,
          In a (animations (meshData d)) -> fgt (ticksPerSecond a) f0 = false) ->
      hasTimingInfo (meshData (ExtractTimingInformation d)) = false
      /\ globalTicksPerSecond (meshData (ExtractTimingInformation d)) = f4800).
Proof.
  split; [| split].
  - rewrite ExtractTimingInformation_flag. apply first_explicit_rate_found.
  - unfold ExtractTimingInformation.
    destruct (first_explicit_rate _) as [ticks found]. reflexivity.
  - intros Hnone.
    assert (snd (first_explicit_rate (animations (meshData d))) = false) as E.
    { destruct (snd _) eqn:E; [| reflexivity].
      apply first_explicit_rate_found in E. destruct E as (a & Ha & E).
      rewrite (Hnone a Ha) in E. discriminate. }
    rewrite ExtractTimingInformation_flag, ExtractTimingInformation_rate, E.
    split; reflexivity.
Qed.

(* ------------------------------------------------------------------------- *)
(** ** Content validation of decompressed data *)

Lemma starts_with_iff (needle hay : bytes) :
  starts_with needle hay = true <-> exists after : bytes, hay = needle ++ after.
Proof.
  revert hay. induction needle as [| n needle IH]; intros hay; simpl.
  - split; [| reflexivity]. intros _. exists hay. reflexivity.
  - destruct hay as [| h hay].
    + split; [discriminate |]. intros (after & H). discriminate.
    + rewrite andb_true_iff, Z.eqb_eq, IH. split.
      * intros (-> & after & ->). exists after. reflexivity.
      * intros (after & H). injection H as -> ->. split; [reflexivity |].
        exists after. reflexivity.
Qed.

Lemma find_from_found (needle hay : bytes) :
  forall i : nat, find_from needle hay i <> None <-> occurs needle hay.
Proof.
  induction hay as [| h hay IH]; intros i; simpl.
  - destruct (starts_with needle []) eqn:E.
    + split; [| discriminate]. intros _.
      apply starts_with_iff in E. destruct E as (after & E).
      exists [], after. exact E.
    + split; [congruence |]. intros (before & after & H).
      destruct before as [| b before]; [| discriminate].
      assert (starts_with needle [] = true) as E'
          by (apply starts_with_iff; exists after; exact H).
      congruence.
  - destruct (starts_with needle (h :: hay)) eqn:E.
    + split; [| discriminate]. intros _.
      apply starts_with_iff in E. destruct E as (after & E).
      exists [], after. exact E.
    + rewrite IH. split.
      * intros (before & after & ->). exists (h :: before), after. reflexivity.
      * intros (before & after & H). destruct before as [| b before].
        -- assert (starts_with needle (h :: hay) = true) as E'
               by (apply starts_with_iff; exists after; exact H).
           congruence.
        -- injection H as _ ->. exists before, after. reflexivity.
Qed.

Lemma find_at_start (needle hay : bytes) :
  match find needle hay with Some O => true | _ => false end = starts_with needle hay.
Proof.
  unfold find. destruct hay as [| h hay]; simpl.
  - destruct (starts_with needle []); reflexivity.
  - destruct (starts_with needle (h :: hay)); [reflexivity |].
    assert (forall l i, match find_from needle l (S i) with
                        | Some O => true | _ => false end = false) as H.
    { induction l as [| x l IH]; intros i; simpl.
      - destruct (starts_with needle []); reflexivity.
      - destruct (starts_with needle (x :: l)); [reflexivity | apply IH]. }
    apply H.
Qed.

Lemma signature_at_start (data : bytes) :
  starts_with (chars "xof ") data = true <-> firstn 4 data = chars "xof ".
Proof.
  rewrite starts_with_iff. split.
  - intros (after & ->). reflexivity.
  - intros H. exists (skipn 4 data). rewrite <- H. symmetry. apply firstn_skipn.
Qed.

Lemma signature_in_start (data : bytes) :
  starts_with (chars "xof ") (firstn (Nat.min 16 (List.length data)) data)
  = starts_with (chars "xof ") data.
Proof.
  destruct data as [| x0 [| x1 [| x2 [| x3 rest]]]]; cbn -[Z.eqb];
    repeat match goal with
           | |- context [?k =? ?x] => is_var x; destruct (k =? x)
           end;
    reflexivity.
Qed.

Lemma signature_bytes (data : bytes) :
  Nat.leb 4 (List.length data)
  && (let d (k : nat) := nth k data 0 in
      ((d 0%nat =? 120) && (d 1%nat =? 111) && (d 2%nat =? 102) && (d 3%nat =? 32))
      || ((d 0%nat =? 0x78) && (d 1%nat =? 0x6f) && (d 2%nat =? 0x66) && (d 3%nat =? 0x20)))
  = starts_with (chars "xof ") data.
Proof.
  destruct data as [| x0 [| x1 [| x2 [| x3 rest]]]]; cbn -[Z.eqb];
    repeat match goal with
           | |- context [?k =? ?x] => is_var x; destruct (k =? x) eqn:?
           end;
    rewrite ?Z.eqb_eq, ?Z.eqb_neq in *; subst; try reflexivity;
    repeat match goal with
           | H : ?k <> ?x |- context [?x =? ?k] =>
               replace (x =? k) with false by (symmetry; apply Z.eqb_neq; congruence)
           end;
    rewrite ?andb_false_r; reflexivity.
Qed.

(** C5 (as stated, refuted): the eight bytes of "template" are non-empty
    and contain "template" within their first 100 bytes, yet they are
    rejected. *)
Lemma ValidateDecompressedContent_rejects_short_template :
  ~ (ValidateDecompressedContent (chars "template") = true
     <-> chars "template" <> []
         /\ (firstn 4 (chars "template") = chars "xof "
             \/ occurs (chars "template") (firstn 100 (chars "template")))).
Proof.
  intros [_ H].
  assert (ValidateDecompressedContent (chars "template") = true) as E.
  { apply H. split; [discriminate |]. right. exists [], []. reflexivity. }
  vm_compute in E. discriminate.
Qed.

(** C5 (amended): a buffer is accepted exactly when it is non-empty and
    either its first 4 bytes are 'xof ' or it is longer than 100 bytes and
    its first 100 bytes contain 'template'. *)
Theorem ValidateDecompressedContent_accepts_iff (data : bytes) :
  ValidateDecompressedContent data = true
  <-> data <> []
      /\ (firstn 4 data = chars "xof "
          \/ ((100 < List.length data)%nat
              /\ occurs (chars "template") (firstn 100 data))).
Proof.
  unfold ValidateDecompressedContent.
  destruct data as [| b0 data']; [split; [discriminate | intros [H _]; contradiction] |].
  set (data := b0 :: data'). cbn [is_empty].
  rewrite find_at_start, signature_in_start.
  rewrite signature_bytes.
  rewrite <- signature_at_start.
  destruct (starts_with (chars "xof ") data) eqn:Esig.
  - split; [| reflexivity]. intros _. split; [discriminate | left; reflexivity].
  - destruct (Nat.ltb 100 (List.length data)) eqn:Elen; cbn [andb].
    + apply Nat.ltb_lt in Elen.
      rewrite Nat.min_l by lia.
      destruct (find (chars "template") (firstn 100 data)) eqn:Efind.
      * split; [| reflexivity]. intros _. split; [discriminate |]. right.
        split; [exact Elen |].
        apply (find_from_found _ _ 0%nat). unfold find in Efind. congruence.
      * split; [discriminate |]. intros (_ & [H | (_ & H)]); [discriminate |].
        apply (find_from_found _ _ 0%nat) in H. unfold find in Efind. contradiction.
    + apply Nat.ltb_ge in Elen.
      split; [discriminate |]. intros (_ & [H | (H & _)]); [discriminate | lia].
Qed.

Lemma ValidateDecompressedContent_accepts_iff_witness :
  ValidateDecompressedContent (repeat 32 92 ++ chars "template" ++ [32]) = true.
Proof.
  apply (proj2 (ValidateDecompressedContent_accepts_iff
                  (repeat 32 92 ++ chars "template" ++ [32]))).
  split; [discriminate |]. right. split.
  - vm_compute. lia.
  - exists (repeat 32 92), []. vm_compute. reflexivity.
Defined.

(* ------------------------------------------------------------------------- *)
(** ** Text parser: quoted strings *)

Lemma size_nonneg (s : string) : 0 <= size s.
Proof. unfold size. lia. Qed.

Lemma size_String (c : ascii) (s : string) : size (String c s) = size s + 1.
Proof. unfold size. simpl String.length. lia. Qed.

Lemma find_first_not_of_from_bound (set s : string) :
  forall i : Z,
    find_first_not_of_from set s i = npos
    \/ i <= find_first_not_of_from set s i < i + size s.
Proof.
  induction s as [| c s IH]; intros i; simpl.
  - left. reflexivity.
  - rewrite size_String. destruct (mem_char c set).
    + destruct (IH (i + 1)) as [H | H]; [left; exact H | right; lia].
    + right. pose proof (size_nonneg s). lia.
Qed.

(** Trimming never faults: [substr] is called with a start inside the
    string. *)
Lemma TrimWhitespace_total (str : string) :
  exists cleaned : string, TrimWhitespace str = Ok cleaned.
Proof.
  unfold TrimWhitespace.
  destruct (find_first_not_of whitespace str =? npos) eqn:E.
  - exists EmptyString. reflexivity.
  - apply Z.eqb_neq in E. unfold substr.
    destruct (find_first_not_of_from_bound whitespace str 0) as [H | H];
      [contradiction |].
    fold (find_first_not_of whitespace str) in H.
    destruct (Z.gtb_spec (find_first_not_of whitespace str) (size str)); [lia |].
    eexists. reflexivity.
Qed.

Lemma back_nonempty (c : ascii) (s : string) : exists b : ascii, back (String c s) = Ok b.
Proof.
  revert c. induction s as [| d s IH]; intros c.
  - exists c. reflexivity.
  - destruct (IH d) as (b & H). exists b. exact H.
Qed.

Lemma substr_from_1 (c : ascii) (s : string) (len : Z) :
  exists r : string, substr (String c s) 1 len = Ok r.
Proof.
  unfold substr. rewrite size_String.
  destruct (Z.gtb_spec 1 (size s + 1)).
  - pose proof (size_nonneg s). lia.
  - eexists. reflexivity.
Qed.

Lemma ParseStringLine_empty (line : string) :
  TrimWhitespace line = Ok EmptyString ->
  ParseStringLine line = Fault OutOfBoundsAccess.
Proof.
  intros H. unfold ParseStringLine. rewrite H. reflexivity.
Qed.

Lemma ParseStringLine_nonempty (line cleaned : string) :
  TrimWhitespace line = Ok cleaned ->
  cleaned <> EmptyString ->
  exists s : string, ParseStringLine line = Ok s.
Proof.
  intros H Hne. unfold ParseStringLine. rewrite H.
  destruct cleaned as [| c rest]; [contradiction |].
  cbn [and_then front].
  destruct (is_char quote c).
  - destruct (back_nonempty c rest) as (b & Hb). rewrite Hb. cbn [and_then].
    destruct (is_char ";" b); apply substr_from_1.
  - cbn [and_then]. eexists. reflexivity.
Qed.

(** C8: [ParseStringLine] reads the first character of the trimmed line
    without a check.  When the trimmed line is empty (as for the empty line
    and for a line of blanks) that access is out of bounds; when it is not
    empty every access, and each [substr], is in bounds and a string is
    returned.  Trimming itself always succeeds. *)
Theorem ParseStringLine_out_of_bounds_iff_trimmed_empty :
  (forall line : string, exists cleaned : string, TrimWhitespace line = Ok cleaned)
  /\ (forall line : string,
         TrimWhitespace line = Ok EmptyString ->
         ParseStringLine line = Fault OutOfBoundsAccess)
  /\ (forall line cleaned : string,
         TrimWhitespace line = Ok cleaned ->
         cleaned <> EmptyString ->
         exists s : string, ParseStringLine line = Ok s)
  /\ ParseStringLine EmptyString = Fault OutOfBoundsAccess
  /\ ParseStringLine "   " = Fault OutOfBoundsAccess.
Proof.
  split; [exact TrimWhitespace_total |].
  split; [exact ParseStringLine_empty |].
  split; [exact ParseStringLine_nonempty |].
  split; reflexivity.
Qed.

Lemma ParseStringLine_out_of_bounds_iff_trimmed_empty_witness :
  ParseStringLine (String (ascii_of_nat 9) " ") = Fault OutOfBoundsAccess
  /\ exists s : string, ParseStringLine " texture.jpg; " = Ok s.
Proof.
  split.
  - apply (proj1 (proj2 ParseStringLine_out_of_bounds_iff_trimmed_empty)).
    reflexivity.
  - apply (proj1 (proj2 (proj2 ParseStringLine_out_of_bounds_iff_trimmed_empty))
             " texture.jpg; "%string "texture.jpg;"%string).
    + reflexivity.
    + discriminate.
Defined.

(* ------------------------------------------------------------------------- *)
(** ** Text parser: face lines *)

Lemma push_token_total (token : string) (result : list Z) :
  exists result' : list Z, push_token token result = Ok result'.
Proof.
  unfold push_token.
  destruct (TrimWhitespace_total token) as (t & ->). cbn [and_then].
  destruct (negb (empty t)); [| eexists; reflexivity].
  destruct (ParseInt t) as [value success]. eexists. reflexivity.
Qed.

Lemma split_at_shorter (delim : ascii) (s tok rest : string) :
  split_at delim s = (tok, Some rest) -> (String.length rest < String.length s)%nat.
Proof.
  revert tok. induction s as [| c s IH]; intros tok; simpl.
  - discriminate.
  - destruct (Ascii.eqb c delim).
    + intros H. injection H as _ <-. lia.
    + destruct (split_at delim s) as [tok' rest'] eqn:E.
      intros H. injection H as _ ->.
      specialize (IH tok' eq_refl). lia.
Qed.

(** The token loop ends by itself as soon as the fuel exceeds the rounds
    left. *)
Lemma token_loop_total (fuel : nat) :
  forall (ss : stringstream) (token : string) (result : list Z),
    (rounds_left ss < fuel)%nat ->
    exists values : list Z, token_loop fuel ss token result = Ok values.
Proof.
  induction fuel as [| fuel IH]; intros ss token result Hfuel; [lia |].
  destruct ss as [buf eof fail]. unfold rounds_left in Hfuel. cbn in Hfuel.
  cbn [token_loop]. unfold getline at 1. cbn [eofbit failbit buffer].
  destruct (eof || fail) eqn:Ebad.
  - unfold getline. cbn [eofbit failbit]. rewrite orb_true_r.
    eexists. reflexivity.
  - apply orb_false_iff in Ebad. destruct Ebad as [-> ->].
    destruct (split_at ";" buf) as [tok [rest |]] eqn:Esplit.
    + destruct (push_token_total tok result) as (result' & ->). cbn [and_then].
      apply IH. unfold rounds_left. cbn.
      apply split_at_shorter in Esplit. lia.
    + destruct (empty tok).
      * unfold getline. cbn [eofbit failbit]. eexists. reflexivity.
      * destruct (push_token_total tok result) as (result' & ->). cbn [and_then].
        apply IH. unfold rounds_left. cbn. lia.
Qed.

Lemma ParseIntArray_total (data : string) :
  exists values : list Z, ParseIntArray data = Ok values.
Proof.
  unfold ParseIntArray.
  destruct (TrimWhitespace_total data) as (trimmed & ->). cbn [and_then].
  apply token_loop_total. unfold rounds_left, open_stream. cbn. lia.
Qed.

(** C10: [ParseFaceLine] always returns a face, and the [vertexIndices]
    vector of that face is still the {0, 0, 0} of the constructor: only the
    [indices] array is written.  The two index representations therefore
    agree exactly when the parsed indices are all zero; on the line
    "3;0;1;2;;" they are {0, 1, 2} and {0, 0, 0}. *)
Theorem ParseFaceLine_leaves_vertexIndices_default :
  (forall line : string,
      exists face : XFace,
        ParseFaceLine line = Ok face
        /\ vertexIndices face = [0; 0; 0]
        /\ materialIndex face = -1
        /\ (indices_list face = vertexIndices face <-> indices face = (0, 0, 0)))
  /\ ParseFaceLine "3;0;1;2;;" = Ok (mkFace (0, 1, 2) [0; 0; 0] (-1)).
Proof.
  split; [| vm_compute; reflexivity].
  intros line. unfold ParseFaceLine.
  destruct (ParseIntArray_total line) as (values & ->). cbn [and_then].
  assert (forall face : XFace,
             vertexIndices face = [0; 0; 0] ->
             indices_list face = vertexIndices face <-> indices face = (0, 0, 0)) as Hagree.
  { intros [[[a b] c] vi mi]. unfold indices_list. cbn. intros ->.
    split; intros H; injection H as -> -> ->; reflexivity. }
  destruct (Nat.leb 4 (List.length values)); cbn [andb];
    [destruct (nth 0 values 0 =? 3); cbn [andb] |];
    eexists; (split; [reflexivity |]);
    (split; [reflexivity |]); (split; [reflexivity |]);
    apply Hagree; reflexivity.
Qed.

Lemma ParseFaceLine_leaves_vertexIndices_default_witness :
  exists face : XFace,
    ParseFaceLine "3;0;0;0;;" = Ok face /\ indices_list face = vertexIndices face.
Proof.
  destruct (proj1 ParseFaceLine_leaves_vertexIndices_default "3;0;0;0;;"%string)
    as (face & Hface & Hdefault & _ & Hagree).
  exists face. split; [exact Hface |].
  apply (proj2 Hagree).
  vm_compute in Hface. injection Hface as <-. reflexivity.
Defined.

(* ------------------------------------------------------------------------- *)
(** ** Binary reader: bounds *)

Lemma size_add_exact (a b : Z) :
  0 <= a -> 0 <= b -> a + b < SIZE_MODULUS -> size_add a b = a + b.
Proof. intros Ha Hb Hlt. unfold size_add. apply Z.mod_small. lia. Qed.

Lemma well_formed_room (r : BinaryReader) (n : Z) :
  well_formed r -> 0 <= n <= 8 -> size_add (position_ r) n = position_ r + n.
Proof.
  intros [Hpos Hmax] Hn. apply size_add_exact; try lia.
  unfold PTRDIFF_MAX in Hmax. change SIZE_MODULUS with (2 ^ 64).
  assert (2 ^ 63 + 8 < 2 ^ 64) by reflexivity. lia.
Qed.

Lemma thrown_is_out_of_range {A : Type} (what : string) :
  out_of_range (@Throws A (OutOfRange what)).
Proof. exists what. reflexivity. Qed.

Lemma bind_fails {A B : Type} (op : M A) (k : A -> M B) (r : BinaryReader) :
  fails_without_advance op r -> fails_without_advance (bind op k) r.
Proof.
  intros [(what & Hout) Hsame]. unfold fails_without_advance, bind.
  destruct (op r) as [o r']. cbn in Hout, Hsame. subst o r'.
  split; [apply thrown_is_out_of_range | reflexivity].
Qed.

Lemma ReadUInt8_fails (r : BinaryReader) :
  position_ r + 1 > size_ r -> fails_without_advance ReadUInt8 r.
Proof.
  intros H. unfold fails_without_advance, ReadUInt8.
  destruct (Z.geb_spec (position_ r) (size_ r)); [| lia].
  split; [apply thrown_is_out_of_range | reflexivity].
Qed.

Lemma ReadUInt16_fails (r : BinaryReader) :
  well_formed r -> position_ r + 2 > size_ r -> fails_without_advance ReadUInt16 r.
Proof.
  intros Hwf H. unfold fails_without_advance, ReadUInt16.
  rewrite (well_formed_room r 2 Hwf) by lia.
  destruct (Z.gtb_spec (position_ r + 2) (size_ r)); [| lia].
  split; [apply thrown_is_out_of_range | reflexivity].
Qed.

Lemma ReadUInt32_fails (r : BinaryReader) :
  well_formed r -> position_ r + 4 > size_ r -> fails_without_advance ReadUInt32 r.
Proof.
  intros Hwf H. unfold fails_without_advance, ReadUInt32.
  rewrite (well_formed_room r 4 Hwf) by lia.
  destruct (Z.gtb_spec (position_ r + 4) (size_ r)); [| lia].
  split; [apply thrown_is_out_of_range | reflexivity].
Qed.

Lemma ReadUInt64_fails (r : BinaryReader) :
  well_formed r -> position_ r + 8 > size_ r -> fails_without_advance ReadUInt64 r.
Proof.
  intros Hwf H. unfold fails_without_advance, ReadUInt64.
  rewrite (well_formed_room r 8 Hwf) by lia.
  destruct (Z.gtb_spec (position_ r + 8) (size_ r)); [| lia].
  split; [apply thrown_is_out_of_range | reflexivity].
Qed.

Lemma ReadUInt32_succeeds (r : BinaryReader) :
  well_formed r -> position_ r + 4 <= size_ r ->
  ReadUInt32 r = (Returns (value32 r), set_position r (position_ r + 4))
  /\ well_formed (set_position r (position_ r + 4)).
Proof.
  intros Hwf H. unfold ReadUInt32, advance.
  rewrite (well_formed_room r 4 Hwf) by lia.
  destruct (Z.gtb_spec (position_ r + 4) (size_ r)); [lia |].
  split; [reflexivity |].
  destruct Hwf as [Hpos Hmax].
  unfold well_formed, size_, set_position, PTRDIFF_MAX in *.
  cbn [position_ data_]. lia.
Qed.

(** A sequence read of [count] four-byte items that does not fit fails
    with a bounds error (at the first item that does not fit). *)
Lemma read_each_fails {A : Type} (decode_item : Z -> A) (count : nat) :
  forall r : BinaryReader,
    well_formed r ->
    position_ r + 4 * Z.of_nat count > size_ r ->
    out_of_range (fst (read_each (v <- ReadUInt32 ;; ret (decode_item v)) count r)).
Proof.
  induction count as [| count IH]; intros r Hwf H.
  - destruct Hwf as [Hpos _]. lia.
  - cbn [read_each]. unfold bind at 1. unfold bind at 1.
    destruct (Z.le_gt_cases (position_ r + 4) (size_ r)) as [Hfit | Hcross].
    + destruct (ReadUInt32_succeeds r Hwf Hfit) as [-> Hwf'].
      unfold ret at 1.
      assert (position_ (set_position r (position_ r + 4)) + 4 * Z.of_nat count
              > size_ (set_position r (position_ r + 4))) as H'.
      { unfold size_, set_position in *. cbn [position_ data_]. lia. }
      specialize (IH _ Hwf' H'). destruct IH as (what & IH).
      unfold bind.
      destruct (read_each _ count _) as [o r']. cbn in IH. subst o.
      apply thrown_is_out_of_range.
    + destruct (ReadUInt32_fails r Hwf) as [(what & Hout) Hsame]; [lia |].
      destruct (ReadUInt32 r) as [o r']. cbn in Hout. subst o.
      apply thrown_is_out_of_range.
Qed.

Lemma ReadUInt32Array_as_each (count : nat) (r : BinaryReader) :
  read_each ReadUInt32 count r
  = read_each (v <- ReadUInt32 ;; ret (id v)) count r.
Proof.
  revert r. induction count as [| count IH]; intros r; [reflexivity |].
  cbn [read_each]. unfold bind at 1 3 4. unfold ret at 2. unfold id at 1.
  destruct (ReadUInt32 r) as [[v | e] r']; [| reflexivity].
  unfold bind. rewrite IH. reflexivity.
Qed.

Lemma scan_to_null_unterminated (rest : bytes) :
  Forall (fun c => c <> 0) rest ->
  scan_to_null rest = (rest, Z.of_nat (List.length rest)).
Proof.
  induction 1 as [| c rest Hc _ IH]; [reflexivity |].
  cbn [scan_to_null List.length]. destruct (Z.eqb_spec c 0); [contradiction |].
  rewrite IH, Nat2Z.inj_succ, Z.add_1_r. reflexivity.
Qed.

Lemma scan_to_null_total (rest : bytes) :
  exists (s : bytes) (n : Z), scan_to_null rest = (s, n).
Proof. destruct (scan_to_null rest) as [s n]. exists s, n. reflexivity. Qed.

(** C4 (as stated, refuted): operations that cross the end of the buffer
    and yet do not fail with an unchanged cursor.  The length-prefixed read
    of a prefix announcing one byte more than is left fails with the cursor
    moved past the prefix; the null-terminated read of an unterminated
    buffer succeeds and moves to the end; the sequence reads fail after
    having consumed the items that fit; a skip whose end position overflows
    the size type succeeds and moves the cursor backwards. *)
Lemma reader_crossing_operations_that_advance :
  ~ fails_without_advance ReadLengthPrefixedString (new_reader [1; 0; 0; 0] true)
  /\ ~ fails_without_advance ReadNullTerminatedString (new_reader [65; 66] true)
  /\ ~ fails_without_advance (ReadFloatArray (fun _ => false) 2)
                             (new_reader [0; 0; 128; 63; 0; 0] true)
  /\ ~ fails_without_advance (ReadUInt32Array (fun _ => false) 2)
                             (new_reader [1; 0; 0; 0; 2; 0] true)
  /\ ~ fails_without_advance (Skip (2 ^ 64 - 1)) (mkReader [1; 2; 3] 1 true).
Proof.
  repeat split; intros [(what & Hout) Hsame];
    vm_compute in Hout; vm_compute in Hsame; discriminate.
Qed.

(** C4 (amended): for a reader whose cursor lies within its buffer, each
    fixed-width integer or float read, and each fixed-length string read,
    byte-sequence read and skip whose end position does not overflow the
    64-bit size type, fails with an OutOfRange error and leaves the cursor
    unchanged whenever it would cross the end of the buffer; so does a seek
    past the end.  The null-terminated string read never fails: without a
    zero byte from the cursor on it returns the rest of the buffer and
    leaves the cursor at the end.  The length-prefixed string read fails
    with an OutOfRange error when it would cross the end (with the cursor
    unchanged when the prefix itself does not fit).  A float or uint32
    sequence read that would cross the end fails as well: with a
    length error when the count exceeds the largest vector, with an
    allocation error when the reservation is refused (the cursor unchanged
    in both cases), and with an OutOfRange error otherwise. *)
Theorem reader_bounds (r : BinaryReader) :
  well_formed r ->
  (position_ r + 1 > size_ r ->
   fails_without_advance ReadUInt8 r /\ fails_without_advance ReadInt8 r)
  /\ (position_ r + 2 > size_ r ->
      fails_without_advance ReadUInt16 r /\ fails_without_advance ReadInt16 r)
  /\ (position_ r + 4 > size_ r ->
      fails_without_advance ReadUInt32 r /\ fails_without_advance ReadInt32 r
      /\ fails_without_advance ReadFloat r
      /\ fails_without_advance ReadLengthPrefixedString r)
  /\ (position_ r + 8 > size_ r ->
      fails_without_advance ReadUInt64 r /\ fails_without_advance ReadInt64 r
      /\ fails_without_advance ReadDouble r)
  /\ (forall n : Z,
         0 <= n -> position_ r + n < SIZE_MODULUS -> position_ r + n > size_ r ->
         fails_without_advance (ReadString n) r
         /\ fails_without_advance (ReadBytes n) r
         /\ fails_without_advance (Skip n) r)
  /\ (forall p : Z, p > size_ r -> fails_without_advance (Seek p) r)
  /\ (exists (s : string) (r' : BinaryReader),
         ReadNullTerminatedString r = (Returns s, r'))
  /\ (Forall (fun c => c <> 0) (skipn (Z.to_nat (position_ r)) (data_ r)) ->
      ReadNullTerminatedString r
      = (Returns (to_string (skipn (Z.to_nat (position_ r)) (data_ r))),
         set_position r (size_ r)))
  /\ (position_ r + 4 <= size_ r -> position_ r + 4 + value32 r > size_ r ->
      out_of_range (fst (ReadLengthPrefixedString r)))
  /\ (forall (allocation_fails : Z -> bool) (count : Z),
         position_ r + 4 * count > size_ r ->
         (count > vector_max_size 4 ->
          ReadFloatArray allocation_fails count r = (Throws LengthError, r)
          /\ ReadUInt32Array allocation_fails count r = (Throws LengthError, r))
         /\ (count <= vector_max_size 4 -> allocation_fails (4 * count) = true ->
             ReadFloatArray allocation_fails count r = (Throws BadAlloc, r)
             /\ ReadUInt32Array allocation_fails count r = (Throws BadAlloc, r))
         /\ (count <= vector_max_size 4 -> allocation_fails (4 * count) = false ->
             out_of_range (fst (ReadFloatArray allocation_fails count r))
             /\ out_of_range (fst (ReadUInt32Array allocation_fails count r)))).
Proof.
  intros Hwf. pose proof Hwf as [Hpos Hmax].
  split; [| split; [| split; [| split; [| split; [| split; [| split; [| split;
    [| split]]]]]]]].
  - intros H. pose proof (ReadUInt8_fails r H) as F.
    split; [exact F | apply bind_fails; exact F].
  - intros H. pose proof (ReadUInt16_fails r Hwf H) as F.
    split; [exact F | apply bind_fails; exact F].
  - intros H. pose proof (ReadUInt32_fails r Hwf H) as F.
    repeat split; try apply F; apply bind_fails; exact F.
  - intros H. pose proof (ReadUInt64_fails r Hwf H) as F.
    repeat split; try apply F; apply bind_fails; exact F.
  - intros n Hn Hfit H.
    unfold fails_without_advance, ReadString, ReadBytes, Skip.
    rewrite (size_add_exact (position_ r) n) by lia.
    destruct (Z.gtb_spec (position_ r + n) (size_ r)); [| lia].
    repeat split; apply thrown_is_out_of_range.
  - intros p H. unfold fails_without_advance, Seek.
    destruct (Z.gtb_spec p (size_ r)); [| lia].
    split; [apply thrown_is_out_of_range | reflexivity].
  - unfold ReadNullTerminatedString.
    destruct (scan_to_null _) as [s n]. eexists. eexists. reflexivity.
  - intros Hrest. unfold ReadNullTerminatedString.
    rewrite (scan_to_null_unterminated _ Hrest).
    assert (position_ r
            + Z.of_nat (List.length (skipn (Z.to_nat (position_ r)) (data_ r)))
            = size_ r) as ->.
    { unfold size_ in *. rewrite length_skipn. lia. }
    rewrite Z.ltb_irrefl. reflexivity.
  - intros Hprefix H. unfold ReadLengthPrefixedString, bind.
    destruct (ReadUInt32_succeeds r Hwf Hprefix) as [-> Hwf'].
    unfold ReadString.
    assert (0 <= value32 r < 2 ^ 32) as Hv
        by (unfold value32; apply Z.mod_pos_bound; reflexivity).
    rewrite size_add_exact.
    + cbn [position_ set_position]. unfold size_ in *. cbn [data_ set_position].
      destruct (Z.gtb_spec (position_ r + 4 + value32 r)
                           (Z.of_nat (List.length (data_ r)))); [| lia].
      apply thrown_is_out_of_range.
    + cbn [position_ set_position]. lia.
    + lia.
    + cbn [position_ set_position]. unfold PTRDIFF_MAX in Hmax.
      change SIZE_MODULUS with (2 ^ 64).
      assert (2 ^ 63 + 2 ^ 32 < 2 ^ 64) by reflexivity. lia.
  - intros allocation_fails count H.
    assert (0 < count) as Hcount by lia.
    unfold ReadFloatArray, ReadUInt32Array, bind, reserve.
    destruct (Z.gtb_spec count (vector_max_size 4)) as [Hbig | Hsmall].
    { split; [intros _; split; reflexivity |]. split; intros Hle; lia. }
    split; [intros Hgt; lia |].
    destruct (Z.ltb_spec 0 count); [| lia]. cbn [andb].
    split; intros _ Halloc; rewrite Halloc.
    + split; reflexivity.
    + split.
      * apply (read_each_fails of_bits (Z.to_nat count) r Hwf). lia.
      * rewrite ReadUInt32Array_as_each.
        apply (read_each_fails id (Z.to_nat count) r Hwf). lia.
Qed.

Lemma reader_bounds_witness :
  fails_without_advance ReadUInt32 (mkReader [1; 2; 3; 4; 5; 6] 3 true)
  /\ fails_without_advance (Skip 4) (mkReader [1; 2; 3; 4; 5; 6] 3 true)
  /\ out_of_range (fst (ReadFloatArray (fun _ => false) 2
                                       (mkReader [1; 2; 3; 4; 5; 6] 1 true)))
  /\ ReadFloatArray (fun bytes => 2 ^ 40 <? bytes) (2 ^ 60)
                    (mkReader [1; 2; 3; 4; 5; 6] 1 true)
     = (Throws BadAlloc, mkReader [1; 2; 3; 4; 5; 6] 1 true)
  /\ ReadNullTerminatedString (mkReader [65; 66; 67] 1 true)
     = (Returns "BC"%string, mkReader [65; 66; 67] 3 true).
Proof.
  split; [| split; [| split; [| split]]].
  - apply (reader_bounds (mkReader [1; 2; 3; 4; 5; 6] 3 true)).
    + unfold well_formed. vm_compute. intuition discriminate.
    + vm_compute. reflexivity.
  - apply (reader_bounds (mkReader [1; 2; 3; 4; 5; 6] 3 true)).
    + unfold well_formed. vm_compute. intuition discriminate.
    + lia.
    + vm_compute. reflexivity.
    + vm_compute. reflexivity.
  - apply (reader_bounds (mkReader [1; 2; 3; 4; 5; 6] 1 true)).
    + unfold well_formed. vm_compute. intuition discriminate.
    + vm_compute. reflexivity.
    + vm_compute. discriminate.
    + reflexivity.
  - apply (reader_bounds (mkReader [1; 2; 3; 4; 5; 6] 1 true)).
    + unfold well_formed. vm_compute. intuition discriminate.
    + vm_compute. reflexivity.
    + vm_compute. discriminate.
    + vm_compute. reflexivity.
  - apply (reader_bounds (mkReader [65; 66; 67] 1 true)).
    + unfold well_formed. vm_compute. intuition discriminate.
    + repeat constructor; discriminate.
Defined.

Import TimingChecks.

(* ------------------------------------------------------------------------- *)
(** ** Timing analysis: candidates, scores, detected rates *)

Lemma DetectTicksPerSecondFromKeyframes_4800 (a : XAnimationSet) :
  DetectTicksPerSecondFromKeyframes a = f4800.
Proof.
  unfold DetectTicksPerSecondFromKeyframes.
  destruct (Nat.ltb _ _); [reflexivity | apply AnalyzeKeyframePattern_4800].
Qed.

Lemma GetCandidateTickRates_sorted (a : XAnimationSet) :
  GetCandidateTickRates a = sorted_candidates.
Proof.
  unfold GetCandidateTickRates.
  rewrite DetectTicksPerSecondFromKeyframes_4800.
  replace (existsb (fun c => feq c f4800) COMMON_TICK_RATES) with true
    by (vm_compute; reflexivity).
  destruct (negb _); vm_compute; reflexivity.
Qed.

(** X1: whatever the animation, the candidate list is the ten built-in
    rates ordered 4800, 160, then ascending; the keyframe analysis never
    contributes a rate of its own. *)
Theorem GetCandidateTickRates_fixed (a : XAnimationSet) :
  GetCandidateTickRates a = sorted_candidates
  /\ In f4800 (GetCandidateTickRates a)
  /\ List.length (GetCandidateTickRates a) = 10%nat.
Proof.
  rewrite (GetCandidateTickRates_sorted a).
  split; [reflexivity |]. split; [left; reflexivity | reflexivity].
Qed.

Ltac split_conditions :=
  repeat match goal with
         | |- context [if ?c then _ else _] => destruct c
         end.

Lemma ScoreTickRate_bounds (tickRate : float) (a : XAnimationSet) :
  fle f0 (ScoreTickRate tickRate a) = true /\ fle (ScoreTickRate tickRate a) f1 = true.
Proof.
  unfold ScoreTickRate, IsReasonableDuration.
  destruct (fle (duration a) f0); [split; vm_compute; reflexivity |].
  destruct (ValidateAnimationDuration _);
    [destruct (fge _ _ && fle _ _); [| destruct (fge _ _ && fle _ _)] |];
    (destruct (flt (fabs (fsub tickRate f4800)) _);
     [| destruct (flt (fabs (fsub tickRate (of_int 160))) _);
        [| destruct (flt (fabs (fsub tickRate (of_int 1000))) _)]]);
    split; vm_compute; reflexivity.
Qed.

(** X2: the score of any tick rate against any animation, and with it the
    confidence, lies between 0 and 1. *)
Theorem ScoreTickRate_between_0_and_1 (tickRate : float) (a : XAnimationSet) :
  fle f0 (ScoreTickRate tickRate a) = true
  /\ fle (ScoreTickRate tickRate a) f1 = true
  /\ CalculateConfidence tickRate a = ScoreTickRate tickRate a.
Proof.
  destruct (ScoreTickRate_bounds tickRate a) as [H0 H1].
  split; [exact H0 |]. split; [exact H1 | reflexivity].
Qed.

(** The scoring loop keeps a rate that is the one it starts from or one of
    the candidates, with a score inside [0, 1]. *)
Lemma scoring_loop_invariant (a : XAnimationSet) (P : float -> Prop)
      (candidates : list float) :
  Forall P candidates ->
  forall best : float * float,
    P (fst best) ->
    fle f0 (snd best) = true /\ fle (snd best) f1 = true ->
    let result := fold_left (score_step a) candidates best in
    P (fst result) /\ fle f0 (snd result) = true /\ fle (snd result) f1 = true.
Proof.
  induction 1 as [| c cs Hc Hcs IH]; intros best Hrate Hscore; cbn [fold_left].
  - split; assumption.
  - apply IH; unfold score_step; destruct (fgt _ _); cbn [fst snd];
      try assumption; apply ScoreTickRate_bounds.
Qed.

Lemma sorted_candidates_positive :
  Forall (fun rate => fgt rate f0 = true) sorted_candidates.
Proof. repeat constructor. Qed.

Lemma scoring_loop_result (a : XAnimationSet) :
  let result := fold_left (score_step a) sorted_candidates (f4800, f0) in
  (fgt (fst result) f0 = true /\ In (fst result) sorted_candidates)
  /\ fle f0 (snd result) = true /\ fle (snd result) f1 = true.
Proof.
  apply (scoring_loop_invariant a
           (fun r => fgt r f0 = true /\ In r sorted_candidates)).
  - apply Forall_forall. intros r Hr. split; [| exact Hr].
    exact (proj1 (Forall_forall _ _) sorted_candidates_positive r Hr).
  - split; [vm_compute; reflexivity | left; reflexivity].
  - split; vm_compute; reflexivity.
Qed.

(** X3: the analysis of any animation detects a positive rate, which is
    the declared rate or one of the ten candidates, and reports a
    confidence between 0 and 1. *)
Theorem AnalyzeAnimationTiming_positive_rate (a : XAnimationSet) :
  let analysis := AnalyzeAnimationTiming a in
  fgt (analysis_detectedTicksPerSecond analysis) f0 = true
  /\ (analysis_detectedTicksPerSecond analysis = ticksPerSecond a
      \/ In (analysis_detectedTicksPerSecond analysis) sorted_candidates)
  /\ fle f0 (confidenceLevel analysis) = true
  /\ fle (confidenceLevel analysis) f1 = true.
Proof.
  cbv zeta. unfold AnalyzeAnimationTiming.
  destruct (is_empty (keyframes a)).
  { repeat split; try (vm_compute; reflexivity). right. left. reflexivity. }
  destruct (fgt (ticksPerSecond a) f0
            && IsReasonableDuration (fdiv (duration a) (ticksPerSecond a))) eqn:Hexplicit.
  - apply andb_true_iff in Hexplicit. destruct Hexplicit as [Hpos _].
    cbn [analysis_detectedTicksPerSecond confidenceLevel].
    repeat split; try (vm_compute; reflexivity); auto.
  - rewrite (GetCandidateTickRates_sorted a).
    pose proof (scoring_loop_result a) as Hloop. cbv zeta in Hloop.
    destruct (fold_left (score_step a) sorted_candidates (f4800, f0))
      as [bestTickRate bestScore].
    cbn [analysis_detectedTicksPerSecond confidenceLevel fst snd] in *. tauto.
Qed.

(* ------------------------------------------------------------------------- *)
(** ** Timing correction: what it changes and what it leaves alone *)

(** X4: a correction touches the rate, the duration and the keyframe times
    only: the name, the per-bone tracks, the number of keyframes and every
    keyframe's position, rotation and scale are as before. *)
Theorem CorrectAnimationTiming_frame (a : XAnimationSet) :
  let a' := snd (CorrectAnimationTiming a) in
  anim_name a' = anim_name a
  /\ boneKeyframes a' = boneKeyframes a
  /\ List.length (keyframes a') = List.length (keyframes a)
  /\ map position (keyframes a') = map position (keyframes a)
  /\ map rotation (keyframes a') = map rotation (keyframes a)
  /\ map scale (keyframes a') = map scale (keyframes a).
Proof.
  cbv zeta. unfold CorrectAnimationTiming. cbn [snd].
  unfold apply_correction.
  destruct (fgt _ _); [| repeat split].
  destruct (negb _ && fgt _ _); cbn; repeat split;
    rewrite ?length_map, ?map_map; reflexivity.
Qed.

Lemma fsub_self_small (x bound : float) :
  fgt bound f0 = true -> fgt (fabs (fsub x x)) bound = false.
Proof.
  intros Hbound.
  assert (fgt (S754_zero false) bound = false) as Hzero.
  { destruct bound as [s | s | | s m e]; try destruct s;
      vm_compute in Hbound; try discriminate; reflexivity. }
  assert (fgt S754_nan bound = false) as Hnan by (destruct bound; reflexivity).
  destruct x as [s | s | | s m e].
  - destruct s; exact Hzero.
  - destruct s; exact Hnan.
  - exact Hnan.
  - unfold fsub, SFsub. rewrite Z.sub_diag. exact Hzero.
Qed.

Lemma plausible_is_finite (x : float) :
  ValidateAnimationDuration x = true -> exists m e, x = S754_finite false m e.
Proof.
  destruct x as [s | s | | s m e]; intros H.
  - destruct s; vm_compute in H; discriminate.
  - destruct s; vm_compute in H; discriminate.
  - vm_compute in H. discriminate.
  - destruct s; [vm_compute in H; discriminate |]. exists m, e. reflexivity.
Qed.

Lemma plausible_quotient_finite_rate (d rate : float) :
  fgt rate f0 = true ->
  ValidateAnimationDuration (fdiv d rate) = true ->
  exists m e, rate = S754_finite false m e.
Proof.
  intros Hpos Hplausible.
  destruct rate as [s | s | | s m e]; try (vm_compute in Hpos; discriminate).
  - destruct s; [vm_compute in Hpos; discriminate |].
    destruct d as [sd | sd | | sd md ed]; try destruct sd;
      vm_compute in Hplausible; discriminate.
  - destruct s; [vm_compute in Hpos; discriminate |]. exists m, e. reflexivity.
Qed.

Lemma tolerance_positive : fgt (literal 1 10) f0 = true.
Proof. vm_compute. reflexivity. Qed.

Lemma CorrectAnimationTiming_plausible (a : XAnimationSet) :
  declares_plausible_rate a ->
  CorrectAnimationTiming a
  = (mkResult true
              (fdiv (duration a) (ticksPerSecond a))
              (fdiv (duration a) (ticksPerSecond a))
              (S754_zero false) (ticksPerSecond a) [],
     a).
Proof.
  intros (Hkeys & Hpos & Hplausible).
  unfold CorrectAnimationTiming.
  assert (analysis_detectedTicksPerSecond (AnalyzeAnimationTiming a) = ticksPerSecond a)
    as ->.
  { unfold AnalyzeAnimationTiming, IsReasonableDuration.
    destruct (keyframes a); [contradiction |]. cbn [is_empty].
    rewrite Hpos, Hplausible. reflexivity. }
  assert (apply_correction a (ticksPerSecond a) (ticksPerSecond a) = a) as ->.
  { unfold apply_correction.
    rewrite (fsub_self_small _ _ tolerance_positive). reflexivity. }
  rewrite Hplausible.
  destruct (plausible_is_finite _ Hplausible) as (m & e & ->).
  unfold fsub, SFsub. rewrite Z.sub_diag. reflexivity.
Qed.

(** X5: an animation with keyframes whose declared rate is positive and
    gives a plausible duration is left exactly as it is; its result is
    valid, reports the declared rate, and has timing error zero. *)
Theorem CorrectAnimationTiming_keeps_plausible_animation (a : XAnimationSet) :
  declares_plausible_rate a ->
  snd (CorrectAnimationTiming a) = a
  /\ isValid (fst (CorrectAnimationTiming a)) = true
  /\ detectedTicksPerSecond (fst (CorrectAnimationTiming a)) = ticksPerSecond a
  /\ timingErrorSeconds (fst (CorrectAnimationTiming a)) = S754_zero false
  /\ errorDescription (fst (CorrectAnimationTiming a)) = [].
Proof.
  intros H. rewrite (CorrectAnimationTiming_plausible a H).
  repeat split.
Qed.

Lemma CorrectAnimationTiming_keeps_plausible_animation_witness :
  snd (CorrectAnimationTiming
         (mkAnimationSet "run" (of_int 320) (of_int 160)
                         [keyframe_at 0; keyframe_at 320] []))
  = mkAnimationSet "run" (of_int 320) (of_int 160) [keyframe_at 0; keyframe_at 320] [].
Proof.
  apply (CorrectAnimationTiming_keeps_plausible_animation
           (mkAnimationSet "run" (of_int 320) (of_int 160)
                           [keyframe_at 0; keyframe_at 320] [])).
  split; [discriminate |]. split; vm_compute; reflexivity.
Defined.

(** X6: the batch driver returns one result per animation, in input order,
    each the result of correcting that animation alone; when every
    animation declares a plausible rate, all results are valid and the
    animations are unchanged. *)
Theorem CorrectAllAnimations_in_order (animations : list XAnimationSet) :
  fst (CorrectAllAnimations animations)
  = map (fun a => fst (CorrectAnimationTiming a)) animations
  /\ snd (CorrectAllAnimations animations)
     = map (fun a => snd (CorrectAnimationTiming a)) animations
  /\ (Forall declares_plausible_rate animations ->
      snd (CorrectAllAnimations animations) = animations
      /\ Forall (fun r => isValid r = true) (fst (CorrectAllAnimations animations))).
Proof.
  assert (fst (CorrectAllAnimations animations)
          = map (fun a => fst (CorrectAnimationTiming a)) animations
          /\ snd (CorrectAllAnimations animations)
             = map (fun a => snd (CorrectAnimationTiming a)) animations) as [E1 E2].
  { induction animations as [| a rest [IH1 IH2]]; [split; reflexivity |].
    cbn [CorrectAllAnimations map].
    destruct (CorrectAnimationTiming a) as [r a'].
    destruct (CorrectAllAnimations rest) as [rs rest'].
    cbn [fst snd] in *. subst. split; reflexivity. }
  split; [exact E1 |]. split; [exact E2 |].
  intros Hall. rewrite E1, E2. clear E1 E2.
  induction Hall as [| a rest Ha Hrest [IH1 IH2]]; [split; [reflexivity | constructor] |].
  cbn [map].
  rewrite (CorrectAnimationTiming_plausible a Ha). cbn [fst snd].
  rewrite IH1. split; [reflexivity |]. constructor; [reflexivity | assumption].
Qed.

Lemma CorrectAllAnimations_in_order_witness :
  Forall (fun r => isValid r = true)
         (fst (CorrectAllAnimations
                 [mkAnimationSet "a" (of_int 4800) f4800 [keyframe_at 0] [];
                  mkAnimationSet "b" (of_int 2400) f4800 [keyframe_at 0] [];
                  mkAnimationSet "c" (of_int 9600) f4800 [keyframe_at 0] []])).
Proof.
  apply (proj2 (proj2 (CorrectAllAnimations_in_order _))).
  repeat constructor; try discriminate; vm_compute; reflexivity.
Defined.

(** X7: validating a correction after the fact, from the animation before
    and after, reaches the verdict [CorrectAnimationTiming] reported, with
    the same durations and timing error.  The two error descriptions are
    worded differently but report the same tests in the same order, and
    each is empty exactly when the result is valid.  The rate in the
    validation result is the rate of the corrected animation. *)
Theorem ValidateTimingCorrection_agrees (a : XAnimationSet) :
  let r := fst (CorrectAnimationTiming a) in
  let v := ValidateTimingCorrection a (snd (CorrectAnimationTiming a)) in
  isValid v = isValid r
  /\ originalDurationSeconds v = originalDurationSeconds r
  /\ correctedDurationSeconds v = correctedDurationSeconds r
  /\ timingErrorSeconds v = timingErrorSeconds r
  /\ map reported_test (errorDescription v) = map reported_test (errorDescription r)
  /\ (errorDescription v = [] <-> isValid v = true)
  /\ (errorDescription r = [] <-> isValid r = true)
  /\ detectedTicksPerSecond v = ticksPerSecond (snd (CorrectAnimationTiming a)).
Proof.
  cbv zeta. unfold ValidateTimingCorrection, CorrectAnimationTiming.
  cbn [fst snd isValid originalDurationSeconds correctedDurationSeconds
       timingErrorSeconds errorDescription detectedTicksPerSecond].
  set (valid := ValidateAnimationDuration _ && fle _ TIMING_TOLERANCE).
  do 4 (split; [reflexivity |]).
  split.
  { destruct valid; [reflexivity |]. cbn [List.app map reported_test].
    destruct (ValidateAnimationDuration _); destruct (fgt _ TIMING_TOLERANCE);
      reflexivity. }
  split; [| split; [| reflexivity]];
    (destruct valid; [split; reflexivity | split; discriminate]).
Qed.

Lemma COMMON_TICK_RATES_positive :
  Forall (fun rate => fgt rate f0 = true) COMMON_TICK_RATES.
Proof. repeat constructor. Qed.

(** X8: the duration-based and the header-based detection always return a
    positive rate; the duration-based one returns one of the built-in
    rates. *)
Theorem detection_rates_positive :
  (forall a : XAnimationSet,
      In (DetectTicksPerSecondFromDuration a) COMMON_TICK_RATES
      /\ fgt (DetectTicksPerSecondFromDuration a) f0 = true)
  /\ (forall d : XFileData, fgt (DetectTicksPerSecondFromHeader d) f0 = true).
Proof.
  split.
  - intros a.
    assert (In (DetectTicksPerSecondFromDuration a) COMMON_TICK_RATES) as Hin.
    { unfold DetectTicksPerSecondFromDuration.
      destruct (fle _ _); [do 3 right; left; reflexivity |].
      destruct (List.find _ _) eqn:E.
      - apply find_some in E. exact (proj1 E).
      - do 3 right. left. reflexivity. }
    split; [exact Hin |].
    exact (proj1 (Forall_forall _ _) COMMON_TICK_RATES_positive _ Hin).
  - intros d. unfold DetectTicksPerSecondFromHeader.
    destruct (hasAnimationTimingInfo _ && fgt _ _) eqn:E1.
    + apply andb_true_iff in E1. exact (proj2 E1).
    + destruct (hasTimingInfo _ && fgt _ _) eqn:E2.
      * apply andb_true_iff in E2. exact (proj2 E2).
      * vm_compute. reflexivity.
Qed.

(** X9: converting keyframes between two equal rates changes nothing, for
    every rate (zero, infinite and NaN included); any conversion keeps the
    number of keyframes and their positions, rotations and scales. *)
Theorem ConvertKeyframeTiming_preserves (ks : list XKeyframe) (original target : float) :
  ConvertKeyframeTiming ks original original = ks
  /\ List.length (ConvertKeyframeTiming ks original target) = List.length ks
  /\ map position (ConvertKeyframeTiming ks original target) = map position ks
  /\ map rotation (ConvertKeyframeTiming ks original target) = map rotation ks
  /\ map scale (ConvertKeyframeTiming ks original target) = map scale ks.
Proof.
  split.
  - unfold ConvertKeyframeTiming.
    rewrite (fsub_self_small _ _ tolerance_positive). reflexivity.
  - unfold ConvertKeyframeTiming. destruct (fgt _ _); [| repeat split].
    rewrite length_map, !map_map. repeat split.
Qed.

Import ReaderQueries.

(* ------------------------------------------------------------------------- *)
(** ** Mesh validation: what a valid mesh guarantees *)

Lemma indexed_errors_nil {A : Type} (f : nat -> A -> list ValidationError) (l : list A) :
  forall from : nat,
    indexed_errors f from l = [] ->
    forall (k : nat) (x : A), nth_error l k = Some x -> f (from + k)%nat x = [].
Proof.
  induction l as [| y l IH]; intros from H k x Hk.
  - destruct k; discriminate.
  - cbn [indexed_errors] in H. apply app_eq_nil in H. destruct H as [Hy Hl].
    destruct k as [| k]; cbn in Hk.
    + injection Hk as <-. rewrite Nat.add_0_r. exact Hy.
    + rewrite Nat.add_succ_r. exact (IH (S from) Hl k x Hk).
Qed.

Lemma static_cast_int_small (n : Z) : 0 <= n <= INT_MAX -> static_cast_int n = n.
Proof.
  unfold static_cast_int, INT_MAX. intros H.
  rewrite Z.mod_small by lia.
  destruct (Z.ltb_spec n 2147483648); lia.
Qed.

(** X10: a mesh without vertices gets the single message that vertices
    are missing, whatever else it contains.  A mesh that passes validation
    (with counts that fit an [int]) has vertices and faces, every face
    index lies within [0, vertexCount), every material index is below the
    material count, and every animation has a name, a rate that is not
    [<= 0] and keyframes of one kind or the other. *)
Theorem IsValid_guarantees (m : XMeshData) :
  (vertices m = [] -> GetValidationErrors m = [NoVertices])
  /\ (IsValid m = true ->
      Z.of_nat (List.length (vertices m)) <= INT_MAX ->
      Z.of_nat (List.length (materials m)) <= INT_MAX ->
      vertices m <> [] /\ faces m <> []
      /\ (forall face : XFace,
             In face (faces m) ->
             Forall (fun v => 0 <= v < Z.of_nat (List.length (vertices m)))
                    (indices_list face)
             /\ materialIndex face < Z.of_nat (List.length (materials m)))
      /\ (forall anim : XAnimationSet,
             In anim (animations m) ->
             anim_name anim <> EmptyString
             /\ fle (ticksPerSecond anim) f0 = false
             /\ (keyframes anim <> [] \/ boneKeyframes anim <> []))).
Proof.
  split.
  - intros H. unfold GetValidationErrors. rewrite H. reflexivity.
  - unfold IsValid, GetValidationErrors. intros Hvalid Hvmax Hmmax.
    destruct (vertices m) as [| v0 vs] eqn:Ev; [discriminate |].
    cbn [is_empty] in Hvalid. rewrite <- Ev in *.
    destruct (_ ++ _) eqn:Herrors in Hvalid; [| discriminate]. clear Hvalid.
    apply app_eq_nil in Herrors. destruct Herrors as [Hfaces Herrors].
    apply app_eq_nil in Herrors. destruct Herrors as [Hface Herrors].
    apply app_eq_nil in Herrors. destruct Herrors as [_ Herrors].
    apply app_eq_nil in Herrors. destruct Herrors as [Hanim _].
    rewrite !static_cast_int_small in Hface by lia.
    split; [rewrite Ev; discriminate |].
    split; [destruct (faces m); [discriminate | discriminate] |].
    split.
    + intros face Hin. apply In_nth_error in Hin. destruct Hin as (k & Hk).
      pose proof (indexed_errors_nil _ _ 0%nat Hface k face Hk) as Hf.
      unfold face_errors in Hf. apply app_eq_nil in Hf. destruct Hf as [Hidx Hmat].
      split.
      * apply Forall_forall. intros v Hv.
        assert (forall l, flat_map
                  (fun v0 : Z =>
                     if (v0 <? 0) || (v0 >? Z.of_nat (List.length (vertices m)) - 1)
                     then [InvalidVertexIndex (0 + k) v0] else []) l = [] ->
                  In v l -> 0 <= v < Z.of_nat (List.length (vertices m))) as Hall.
        { induction l as [| y l IHl]; cbn [flat_map]; [intros _ [] |].
          intros Hnil [-> | Hl].
          - apply app_eq_nil in Hnil. destruct Hnil as [Hy _].
            destruct (Z.ltb_spec v 0); [discriminate |].
            destruct (Z.gtb_spec v (Z.of_nat (List.length (vertices m)) - 1));
              [discriminate | lia].
          - apply app_eq_nil in Hnil. exact (IHl (proj2 Hnil) Hl). }
        exact (Hall _ Hidx Hv).
      * destruct (Z.geb_spec (materialIndex face) (Z.of_nat (List.length (materials m))));
          [| lia].
        destruct (Z.eqb_spec (materialIndex face) (-1)); [lia | discriminate].
    + intros anim Hin. apply In_nth_error in Hin. destruct Hin as (k & Hk).
      pose proof (indexed_errors_nil _ _ 0%nat Hanim k anim Hk) as Ha.
      unfold animation_errors in Ha.
      apply app_eq_nil in Ha. destruct Ha as [Hname Ha].
      apply app_eq_nil in Ha. destruct Ha as [Hrate Ha].
      apply app_eq_nil in Ha. destruct Ha as [Hkeys _].
      split; [| split].
      * destruct (String.eqb_spec (anim_name anim) EmptyString); [discriminate | assumption].
      * destruct (fle _ _); [discriminate | reflexivity].
      * destruct (keyframes anim); [| left; discriminate].
        destruct (boneKeyframes anim); [discriminate | right; discriminate].
Qed.

Lemma IsValid_guarantees_witness :
  Forall (fun v => 0 <= v < Z.of_nat (List.length (vertices triangle_mesh)))
         (indices_list (mkFace (0, 1, 2) [0; 1; 2] (-1)))
  /\ materialIndex (mkFace (0, 1, 2) [0; 1; 2] (-1))
     < Z.of_nat (List.length (materials triangle_mesh)).
Proof.
  apply (proj2 (IsValid_guarantees triangle_mesh)).
  - vm_compute. reflexivity.
  - vm_compute. discriminate.
  - vm_compute. discriminate.
  - left. reflexivity.
Defined.

(* ------------------------------------------------------------------------- *)
(** ** Binary reader: the cursor stays inside the buffer *)

Lemma size_add_range (a b : Z) : 0 <= size_add a b < SIZE_MODULUS.
Proof. unfold size_add. apply Z.mod_pos_bound. reflexivity. Qed.

Lemma keeps_ret {A : Type} (a : A) : keeps_well_formed (ret a).
Proof. intros r H. exact H. Qed.

Lemma keeps_bind {A B : Type} (op : M A) (k : A -> M B) :
  keeps_well_formed op -> (forall a, keeps_well_formed (k a)) ->
  keeps_well_formed (bind op k).
Proof.
  intros Hop Hk r Hwf. unfold bind.
  specialize (Hop r Hwf). destruct (op r) as [[a | e] r']; cbn [snd] in *.
  - exact (Hk a r' Hop).
  - exact Hop.
Qed.

Lemma keeps_checked_advance {A : Type} (n : Z) (what : string)
      (value : BinaryReader -> outcome A) :
  keeps_well_formed
    (fun r => if size_add (position_ r) n >? size_ r
              then (Throws (OutOfRange what), r)
              else (value r, advance r n)).
Proof.
  intros r Hwf.
  destruct (Z.gtb_spec (size_add (position_ r) n) (size_ r)); cbn [snd]; [exact Hwf |].
  destruct Hwf as [Hpos Hmax]. pose proof (size_add_range (position_ r) n).
  unfold well_formed, advance, set_position, size_ in *. cbn [position_ data_]. lia.
Qed.

Lemma keeps_ReadUInt8 : keeps_well_formed ReadUInt8.
Proof.
  intros r Hwf. unfold ReadUInt8.
  destruct (Z.geb_spec (position_ r) (size_ r)); cbn [snd]; [exact Hwf |].
  destruct Hwf as [Hpos Hmax].
  unfold advance. rewrite (well_formed_room r 1) by (try split; auto; lia).
  unfold well_formed, set_position, size_ in *. cbn [position_ data_]. lia.
Qed.

Lemma keeps_ReadUInt32 : keeps_well_formed ReadUInt32.
Proof. exact (keeps_checked_advance 4 read_beyond (fun r => Returns (value32 r))). Qed.

Lemma keeps_read_each {A : Type} (read : M A) (count : nat) :
  keeps_well_formed read -> keeps_well_formed (read_each read count).
Proof.
  intros Hread. induction count as [| count IH]; cbn [read_each].
  - apply keeps_ret.
  - apply keeps_bind; [exact Hread |]. intros x.
    apply keeps_bind; [exact IH |]. intros xs. apply keeps_ret.
Qed.

Lemma scan_to_null_count (rest : bytes) :
  0 <= snd (scan_to_null rest) <= Z.of_nat (List.length rest).
Proof.
  induction rest as [| c rest IH]; cbn [scan_to_null List.length].
  - cbn. lia.
  - destruct (c =? 0); [cbn; lia |].
    destruct (scan_to_null rest) as [s n]. cbn [snd] in *. lia.
Qed.

Lemma keeps_ReadNullTerminatedString : keeps_well_formed ReadNullTerminatedString.
Proof.
  intros r [Hpos Hmax]. unfold ReadNullTerminatedString.
  pose proof (scan_to_null_count (skipn (Z.to_nat (position_ r)) (data_ r))) as Hn.
  destruct (scan_to_null _) as [s n]. cbn [snd] in *.
  rewrite length_skipn in Hn.
  unfold well_formed, set_position, size_ in *. cbn [position_ data_].
  destruct (Z.ltb_spec (position_ r + n) (Z.of_nat (List.length (data_ r)))); lia.
Qed.

(** X11: no operation ever moves the cursor outside the buffer: a reader
    whose cursor lies within its buffer is in that state again after every
    read, skip or seek, whether the call returned or threw (for the skips
    and length arguments, even when the addition wrapped around). *)
Theorem reader_cursor_stays_in_buffer :
  keeps_well_formed ReadUInt8 /\ keeps_well_formed ReadUInt16
  /\ keeps_well_formed ReadUInt32 /\ keeps_well_formed ReadUInt64
  /\ keeps_well_formed ReadInt8 /\ keeps_well_formed ReadInt16
  /\ keeps_well_formed ReadInt32 /\ keeps_well_formed ReadInt64
  /\ keeps_well_formed ReadFloat /\ keeps_well_formed ReadDouble
  /\ keeps_well_formed ReadNullTerminatedString
  /\ keeps_well_formed ReadLengthPrefixedString
  /\ keeps_well_formed PeekUInt8 /\ keeps_well_formed PeekUInt32
  /\ (forall (allocation_fails : Z -> bool) (n : Z),
         keeps_well_formed (ReadString n) /\ keeps_well_formed (ReadBytes n)
         /\ keeps_well_formed (Skip n)
         /\ keeps_well_formed (ReadFloatArray allocation_fails n)
         /\ keeps_well_formed (ReadUInt32Array allocation_fails n))
  /\ (forall p : Z, 0 <= p -> keeps_well_formed (Seek p)).
Proof.
  assert (keeps_well_formed ReadUInt16) as H16
      by exact (keeps_checked_advance 2 read_beyond (fun r => Returns (value16 r))).
  assert (keeps_well_formed ReadUInt64) as H64
      by exact (keeps_checked_advance 8 read_beyond (fun r => Returns (value64 r))).
  assert (forall n, keeps_well_formed (ReadString n)) as Hstring.
  { intros n r Hwf. unfold ReadString.
    destruct (Z.gtb_spec (size_add (position_ r) n) (size_ r)); cbn [snd]; [exact Hwf |].
    destruct (n >? string_max_size); cbn [snd]; [exact Hwf |].
    destruct Hwf as [Hpos Hmax]. pose proof (size_add_range (position_ r) n).
    unfold well_formed, advance, set_position, size_ in *. cbn [position_ data_]. lia. }
  assert (forall n, keeps_well_formed (ReadBytes n)) as Hbytes.
  { intros n r Hwf. unfold ReadBytes.
    destruct (Z.gtb_spec (size_add (position_ r) n) (size_ r)); cbn [snd]; [exact Hwf |].
    destruct (n >? vector_max_size 1); cbn [snd]; [exact Hwf |].
    destruct Hwf as [Hpos Hmax]. pose proof (size_add_range (position_ r) n).
    unfold well_formed, advance, set_position, size_ in *. cbn [position_ data_]. lia. }
  assert (forall allocation_fails size n,
             keeps_well_formed (reserve allocation_fails size n)) as Hreserve.
  { intros allocation_fails size n r Hwf. unfold reserve.
    destruct (n >? vector_max_size size); [exact Hwf |].
    destruct (_ && _); exact Hwf. }
  assert (forall allocation_fails n,
             keeps_well_formed (ReadFloatArray allocation_fails n)) as Hfloats.
  { intros allocation_fails n. unfold ReadFloatArray.
    apply keeps_bind; [apply Hreserve | intros _].
    apply keeps_read_each.
    apply keeps_bind; [exact keeps_ReadUInt32 | intros v; apply keeps_ret]. }
  assert (forall allocation_fails n,
             keeps_well_formed (ReadUInt32Array allocation_fails n)) as Hwords.
  { intros allocation_fails n. unfold ReadUInt32Array.
    apply keeps_bind; [apply Hreserve | intros _].
    apply keeps_read_each. exact keeps_ReadUInt32. }
  assert (forall p, 0 <= p -> keeps_well_formed (Seek p)) as Hseek.
  { intros p Hp r [Hpos Hmax]. unfold Seek.
    destruct (Z.gtb_spec p (size_ r)); cbn [snd]; [split; assumption |].
    unfold well_formed, set_position, size_ in *. cbn [position_ data_]. lia. }
  assert (keeps_well_formed PeekUInt8) as Hpeek8.
  { intros r Hwf. unfold PeekUInt8. destruct (_ >=? _); exact Hwf. }
  assert (keeps_well_formed PeekUInt32) as Hpeek32.
  { intros r Hwf. unfold PeekUInt32. destruct (_ >? _); exact Hwf. }
  repeat match goal with |- _ /\ _ => split end;
    try exact keeps_ReadUInt8; try exact keeps_ReadUInt32;
    try exact H16; try exact H64; try exact Hpeek8; try exact Hpeek32;
    try exact keeps_ReadNullTerminatedString; try exact Hseek;
    try (apply keeps_bind; [first [exact keeps_ReadUInt8 | exact keeps_ReadUInt32
                                  | exact H16 | exact H64]
                           | intros v; first [apply keeps_ret | apply Hstring]]).
  intros allocation_fails n.
  repeat match goal with |- _ /\ _ => split end; auto.
  exact (keeps_checked_advance n skip_beyond (fun _ => Returns tt)).
Qed.

Lemma reader_cursor_stays_in_buffer_witness :
  well_formed (snd (Seek 2 (new_reader [1; 2; 3] true))).
Proof.
  destruct reader_cursor_stays_in_buffer
    as (_ & _ & _ & _ & _ & _ & _ & _ & _ & _ & _ & _ & _ & _ & _ & Hseek).
  apply (Hseek 2).
  - lia.
  - unfold well_formed. vm_compute. intuition discriminate.
Defined.
(* ------------------------------------------------------------------------- *)
(** ** Binary reader: peeking, guards, byte order *)

(** X12: a peek never moves the cursor and returns exactly the value the
    next read of that width returns; [CanRead] and [IsAtEnd] tell in
    advance whether a skip of that many bytes, or a one-byte read, will
    succeed. *)
Theorem peek_and_guards_agree_with_reads (r : BinaryReader) :
  snd (PeekUInt8 r) = r /\ snd (PeekUInt32 r) = r
  /\ (forall v : Z, fst (PeekUInt8 r) = Returns v <-> fst (ReadUInt8 r) = Returns v)
  /\ (forall v : Z, fst (PeekUInt32 r) = Returns v <-> fst (ReadUInt32 r) = Returns v)
  /\ (forall n : Z, CanRead n r = true <-> fst (Skip n r) = Returns tt)
  /\ (IsAtEnd r = true <-> out_of_range (fst (ReadUInt8 r))).
Proof.
  unfold PeekUInt8, PeekUInt32, ReadUInt8, ReadUInt32, CanRead, Skip, IsAtEnd.
  repeat match goal with |- _ /\ _ => split end.
  - destruct (_ >=? _); reflexivity.
  - destruct (_ >? _); reflexivity.
  - intros v. destruct (_ >=? _); cbn [fst]; split; intros H; try discriminate; exact H.
  - intros v. destruct (_ >? _); cbn [fst]; split; intros H; try discriminate; exact H.
  - intros n. rewrite Z.gtb_ltb.
    destruct (Z.ltb_spec (size_ r) (size_add (position_ r) n)) as [Ha | Ha];
      destruct (Z.leb_spec (size_add (position_ r) n) (size_ r)) as [Hb | Hb];
      cbn [fst]; try lia; split; intros H; try discriminate; reflexivity.
  - destruct (_ >=? _); cbn [fst]; split; intros H; try discriminate.
    + apply thrown_is_out_of_range.
    + reflexivity.
    + destruct H as (what & H). discriminate.
Qed.

Lemma peek_and_guards_agree_with_reads_witness :
  fst (ReadUInt32 (new_reader [1; 0; 0; 0; 9] true)) = Returns 1.
Proof.
  apply (proj1 (proj2 (proj2 (proj2
           (peek_and_guards_agree_with_reads (new_reader [1; 0; 0; 0; 9] true)))))).
  reflexivity.
Defined.

Lemma lor_disjoint (a c k : Z) :
  0 <= k -> 0 <= a < 2 ^ k -> Z.lor a (c * 2 ^ k) = a + c * 2 ^ k.
Proof.
  intros Hk Ha.
  assert (Z.land a (c * 2 ^ k) = 0) as Hland.
  { apply Z.bits_inj'. intros n Hn. rewrite Z.land_spec, Z.bits_0.
    destruct (Z.lt_ge_cases n k) as [Hlt | Hge].
    - rewrite <- Z.shiftl_mul_pow2 by exact Hk.
      rewrite Z.shiftl_spec_low by exact Hlt. apply andb_false_r.
    - rewrite <- (Z.mod_small a (2 ^ k)) by exact Ha.
      rewrite Z.mod_pow2_bits_high by lia. reflexivity. }
  rewrite <- Z.lxor_lor by exact Hland.
  symmetry. apply Z.add_nocarry_lxor. exact Hland.
Qed.

Lemma byte_at_nth (data : bytes) (le : bool) (k : nat) :
  byte_at (new_reader data le) (Z.of_nat k) = nth k data 0.
Proof.
  unfold byte_at, new_reader. cbn [position_ data_].
  rewrite Z.add_0_l, Nat2Z.id. reflexivity.
Qed.

(** X13: on byte values, a 16- or 32-bit read returns the positional sum
    of the bytes: least significant byte first in little-endian order,
    most significant first in big-endian order.  Reading the reversed
    bytes in the other byte order gives the same value. *)
Theorem multi_byte_reads_are_positional (b0 b1 b2 b3 : Z) (rest : bytes) :
  all_bytes [b0; b1; b2; b3] ->
  fst (ReadUInt16 (new_reader (b0 :: b1 :: rest) true)) = Returns (b0 + 256 * b1)
  /\ fst (ReadUInt16 (new_reader (b0 :: b1 :: rest) false)) = Returns (256 * b0 + b1)
  /\ fst (ReadUInt32 (new_reader (b0 :: b1 :: b2 :: b3 :: rest) true))
     = Returns (b0 + 256 * b1 + 65536 * b2 + 16777216 * b3)
  /\ fst (ReadUInt32 (new_reader (b0 :: b1 :: b2 :: b3 :: rest) false))
     = Returns (16777216 * b0 + 65536 * b1 + 256 * b2 + b3)
  /\ fst (ReadUInt32 (new_reader (b3 :: b2 :: b1 :: b0 :: rest) false))
     = fst (ReadUInt32 (new_reader (b0 :: b1 :: b2 :: b3 :: rest) true)).
Proof.
  intros Hbytes.
  assert (0 <= b0 < 256 /\ 0 <= b1 < 256 /\ 0 <= b2 < 256 /\ 0 <= b3 < 256)
    as (H0 & H1 & H2 & H3).
  { inversion Hbytes as [| ? ? ? Hb1]; subst. inversion Hb1 as [| ? ? ? Hb2]; subst.
    inversion Hb2 as [| ? ? ? Hb3]; subst. inversion Hb3; subst. auto. }
  assert (forall x y, 0 <= x < 256 -> 0 <= y < 256 ->
            Z.lor x (Z.shiftl y 8) = x + 256 * y
            /\ Z.lor (Z.shiftl x 8) y = 256 * x + y) as Hpair.
  { intros x y Hx Hy. rewrite Z.lor_comm with (a := Z.shiftl x 8).
    rewrite !Z.shiftl_mul_pow2 by lia.
    rewrite !(lor_disjoint _ _ 8) by (change (2 ^ 8) with 256; lia).
    change (2 ^ 8) with 256. lia. }
  assert (forall x y z w, 0 <= x < 256 -> 0 <= y < 256 -> 0 <= z < 256 -> 0 <= w < 256 ->
            Z.lor (Z.lor (Z.lor x (Z.shiftl y 8)) (Z.shiftl z 16)) (Z.shiftl w 24)
            = x + 256 * y + 65536 * z + 16777216 * w) as Hle.
  { intros x y z w Hx Hy Hz Hw.
    rewrite (proj1 (Hpair x y Hx Hy)).
    rewrite !Z.shiftl_mul_pow2 by lia.
    rewrite (lor_disjoint _ _ 16) by (change (2 ^ 16) with 65536; lia).
    rewrite (lor_disjoint _ _ 24)
      by (change (2 ^ 16) with 65536; (change (2 ^ 24) with 16777216); lia).
    change (2 ^ 16) with 65536. change (2 ^ 24) with 16777216. lia. }
  assert (forall x y z w, 0 <= x < 256 -> 0 <= y < 256 -> 0 <= z < 256 -> 0 <= w < 256 ->
            Z.lor (Z.lor (Z.lor (Z.shiftl x 24) (Z.shiftl y 16)) (Z.shiftl z 8)) w
            = 16777216 * x + 65536 * y + 256 * z + w) as Hbe.
  { intros x y z w Hx Hy Hz Hw.
    rewrite !Z.shiftl_mul_pow2 by lia.
    change (2 ^ 8) with 256. change (2 ^ 16) with 65536. change (2 ^ 24) with 16777216.
    rewrite (Z.lor_comm (x * 16777216)).
    replace (x * 16777216) with (x * 2 ^ 24) by reflexivity.
    rewrite (lor_disjoint _ _ 24) by (change (2 ^ 24) with 16777216; lia).
    rewrite (Z.lor_comm _ (z * 256)).
    replace (y * 65536 + x * 2 ^ 24) with ((y + x * 256) * 2 ^ 16)
      by (change (2 ^ 16) with 65536; change (2 ^ 24) with 16777216; lia).
    rewrite (lor_disjoint _ _ 16) by (change (2 ^ 16) with 65536; lia).
    rewrite Z.lor_comm.
    replace (z * 256 + (y + x * 256) * 2 ^ 16) with ((z + y * 256 + x * 65536) * 2 ^ 8)
      by (change (2 ^ 16) with 65536; change (2 ^ 8) with 256; lia).
    rewrite (lor_disjoint _ _ 8) by (change (2 ^ 8) with 256; lia).
    change (2 ^ 8) with 256. lia. }
  unfold ReadUInt16, ReadUInt32, value16, value32.
  rewrite !(byte_at_nth _ _ 0), !(byte_at_nth _ _ 1),
          !(byte_at_nth _ _ 2), !(byte_at_nth _ _ 3).
  cbn [nth littleEndian_ new_reader position_].
  assert (forall (data : bytes) (le : bool) (n : Z),
            0 <= n <= Z.of_nat (List.length data) ->
            (size_add 0 n >? size_ (new_reader data le)) = false) as Hfit.
  { intros data le n Hn. unfold size_add, size_, new_reader. cbn [data_].
    rewrite Z.add_0_l.
    destruct (Z.gtb_spec (n mod SIZE_MODULUS) (Z.of_nat (List.length data)));
      [| reflexivity].
    pose proof (Z.mod_le n SIZE_MODULUS). assert (0 < SIZE_MODULUS) by reflexivity. lia. }
  rewrite !Hfit by (cbn [List.length]; lia). cbn [fst].
  rewrite (Hle b0 b1 b2 b3), (Hbe b0 b1 b2 b3), (Hbe b3 b2 b1 b0) by assumption.
  rewrite (proj1 (Hpair b0 b1 H0 H1)), (proj2 (Hpair b0 b1 H0 H1)).
  rewrite !Z.mod_small
    by (change (2 ^ 16) with 65536; change (2 ^ 32) with 4294967296; lia).
  repeat split. f_equal. lia.
Qed.

Lemma multi_byte_reads_are_positional_witness :
  fst (ReadUInt32 (new_reader [96; 135; 3; 0; 7] true)) = Returns 231264.
Proof.
  apply (multi_byte_reads_are_positional 96 135 3 0 [7]).
  repeat constructor; lia.
Defined.
(* ------------------------------------------------------------------------- *)
(** ** Binary reader: strings and byte runs *)

Lemma to_string_chars (s : string) : to_string (chars s) = s.
Proof.
  unfold to_string, chars. rewrite map_map.
  rewrite <- (string_of_list_ascii_of_string s) at 2. f_equal.
  rewrite <- (map_id (list_ascii_of_string s)) at 2.
  apply map_ext. intros c. rewrite N2Z.id. apply ascii_N_embedding.
Qed.

Lemma length_chars (s : string) : Z.of_nat (List.length (chars s)) = size s.
Proof.
  unfold chars, size. rewrite length_map. f_equal.
  induction s as [| c s IH]; [reflexivity | cbn; f_equal; exact IH].
Qed.

Lemma scan_to_null_terminated (text rest : bytes) :
  ~ In 0 text ->
  scan_to_null (text ++ 0 :: rest) = (text, Z.of_nat (List.length text)).
Proof.
  induction text as [| c text IH]; intros Hnz.
  - reflexivity.
  - cbn [app scan_to_null].
    destruct (Z.eqb_spec c 0) as [-> | _]; [exfalso; apply Hnz; left; reflexivity |].
    rewrite IH by (intros H; apply Hnz; right; exact H).
    cbn [List.length]. rewrite Nat2Z.inj_succ, Z.add_1_r. reflexivity.
Qed.

Lemma slice_middle (before text after : bytes) (le : bool) :
  slice (mkReader (before ++ text ++ after) (Z.of_nat (List.length before)) le)
        (Z.of_nat (List.length text)) = text.
Proof.
  unfold slice. cbn [position_ data_]. rewrite !Nat2Z.id.
  rewrite skipn_app, skipn_all, Nat.sub_diag. cbn [skipn app].
  rewrite firstn_app, firstn_all, Nat.sub_diag. cbn [firstn]. apply app_nil_r.
Qed.

(** X14: strings come back as they were laid down.  At any cursor, a
    string without zero characters followed by a zero byte is returned by
    the null-terminated read, with the cursor just after the terminator;
    the fixed-length read of the string's length returns the string and
    moves by that length. *)
Theorem string_reads_return_what_was_written
        (before after : bytes) (s : string) (le : bool) :
  let pos := Z.of_nat (List.length before) in
  (no_zero_char s ->
   ReadNullTerminatedString (mkReader (before ++ chars s ++ 0 :: after) pos le)
   = (Returns s, mkReader (before ++ chars s ++ 0 :: after) (pos + size s + 1) le))
  /\ (Z.of_nat (List.length (before ++ chars s ++ after)) <= PTRDIFF_MAX ->
      size s <= string_max_size ->
      ReadString (size s) (mkReader (before ++ chars s ++ after) pos le)
      = (Returns s, mkReader (before ++ chars s ++ after) (pos + size s) le)).
Proof.
  cbv zeta. split.
  - intros Hnz. unfold ReadNullTerminatedString. cbn [position_ data_].
    rewrite Nat2Z.id, skipn_app, skipn_all, Nat.sub_diag. cbn [skipn app].
    rewrite (scan_to_null_terminated (chars s) after Hnz).
    rewrite to_string_chars, length_chars.
    unfold size_, set_position. cbn [position_ data_ littleEndian_].
    rewrite !length_app. cbn [List.length].
    rewrite !Nat2Z.inj_add, Nat2Z.inj_succ, length_chars.
    destruct (Z.ltb_spec (Z.of_nat (List.length before) + size s)
                (Z.of_nat (List.length before)
                 + (size s + Z.succ (Z.of_nat (List.length after))))); [reflexivity | lia].
  - intros Hmax Hlen. unfold ReadString.
    pose proof (size_nonneg s) as Hs.
    rewrite !length_app, !Nat2Z.inj_add, length_chars in Hmax.
    assert (size_add (Z.of_nat (List.length before)) (size s)
            = Z.of_nat (List.length before) + size s) as Hadd.
    { apply size_add_exact; try lia.
      unfold PTRDIFF_MAX in Hmax. change SIZE_MODULUS with (2 ^ 64).
      assert (2 ^ 63 < 2 ^ 64) by reflexivity. lia. }
    unfold advance, set_position, size_. cbn [position_ data_ littleEndian_].
    rewrite Hadd, !length_app, !Nat2Z.inj_add, length_chars.
    destruct (Z.gtb_spec (Z.of_nat (List.length before) + size s)
                (Z.of_nat (List.length before)
                 + (size s + Z.of_nat (List.length after)))); [lia |].
    destruct (Z.gtb_spec (size s) string_max_size); [lia |].
    rewrite <- length_chars at 1. rewrite slice_middle, to_string_chars. reflexivity.
Qed.

Lemma string_reads_return_what_was_written_witness :
  ReadNullTerminatedString (mkReader ([7; 7] ++ chars "Mesh" ++ 0 :: [9]) 2 true)
  = (Returns "Mesh"%string, mkReader ([7; 7] ++ chars "Mesh" ++ 0 :: [9]) 7 true).
Proof.
  apply (proj1 (string_reads_return_what_was_written [7; 7] [9] "Mesh" true)).
  unfold no_zero_char. vm_compute. intuition discriminate.
Defined.

Lemma firstn_sum {A : Type} (n m : nat) (l : list A) :
  firstn (n + m) l = firstn n l ++ firstn m (skipn n l).
Proof.
  revert l. induction n as [| n IH]; intros l; [reflexivity |].
  destruct l as [| x l]; cbn [Nat.add firstn skipn app].
  - rewrite firstn_nil. reflexivity.
  - f_equal. apply IH.
Qed.

(** X15: byte-run reads compose: when [n + m] bytes are left, reading [n]
    bytes and then [m] bytes returns the two halves of what one read of
    [n + m] bytes returns, and leaves the cursor at the same place. *)
Theorem ReadBytes_composes (r : BinaryReader) (n m : Z) :
  well_formed r -> 0 <= n -> 0 <= m -> position_ r + n + m <= size_ r ->
  (first <- ReadBytes n ;; second <- ReadBytes m ;; ret (first ++ second)) r
  = ReadBytes (n + m) r.
Proof.
  intros [Hpos Hmax] Hn Hm Hfit.
  assert (SIZE_MODULUS = 2 ^ 64) as Hmod by reflexivity.
  assert (2 ^ 63 < 2 ^ 64) as Hpow by reflexivity.
  unfold PTRDIFF_MAX in Hmax.
  unfold bind, ret, ReadBytes, advance.
  rewrite (size_add_exact (position_ r) n) by lia.
  rewrite (size_add_exact (position_ r) (n + m)) by lia.
  unfold vector_max_size. change (PTRDIFF_MAX / 1) with (2 ^ 63 - 1).
  destruct (Z.gtb_spec (position_ r + n) (size_ r)); [lia |].
  destruct (Z.gtb_spec n (2 ^ 63 - 1)); [lia |].
  destruct (Z.gtb_spec (position_ r + (n + m)) (size_ r)); [lia |].
  destruct (Z.gtb_spec (n + m) (2 ^ 63 - 1)); [lia |].
  cbn [position_ set_position]. unfold size_ in *. cbn [data_ set_position].
  rewrite (size_add_exact (position_ r + n) m) by lia.
  destruct (Z.gtb_spec (position_ r + n + m) (Z.of_nat (List.length (data_ r)))); [lia |].
  destruct (Z.gtb_spec m (2 ^ 63 - 1)); [lia |].
  unfold slice, set_position. cbn [position_ data_ littleEndian_].
  rewrite Z.add_assoc, !Z2Nat.inj_add by lia.
  rewrite firstn_sum, skipn_skipn.
  rewrite (Nat.add_comm (Z.to_nat n) (Z.to_nat (position_ r))). reflexivity.
Qed.

Lemma ReadBytes_composes_witness :
  (first <- ReadBytes 1 ;; second <- ReadBytes 2 ;; ret (first ++ second))
    (new_reader [5; 6; 7; 8] true)
  = ReadBytes (1 + 2) (new_reader [5; 6; 7; 8] true).
Proof.
  apply (ReadBytes_composes (new_reader [5; 6; 7; 8] true) 1 2).
  - unfold well_formed. vm_compute. intuition discriminate.
  - lia.
  - lia.
  - vm_compute. discriminate.
Defined.

Import Compression.

(* ------------------------------------------------------------------------- *)
(** ** Compression signatures *)

Lemma lor_be_sum (x y z w : Z) :
  0 <= x < 256 -> 0 <= y < 256 -> 0 <= z < 256 -> 0 <= w < 256 ->
  Z.lor (Z.lor (Z.lor (Z.shiftl x 24) (Z.shiftl y 16)) (Z.shiftl z 8)) w
  = 16777216 * x + 65536 * y + 256 * z + w.
Proof.
  intros Hx Hy Hz Hw.
  rewrite !Z.shiftl_mul_pow2 by lia.
  change (2 ^ 8) with 256. change (2 ^ 16) with 65536. change (2 ^ 24) with 16777216.
  rewrite (Z.lor_comm (x * 16777216)).
  replace (x * 16777216) with (x * 2 ^ 24) by reflexivity.
  rewrite (lor_disjoint _ _ 24) by (change (2 ^ 24) with 16777216; lia).
  rewrite (Z.lor_comm _ (z * 256)).
  replace (y * 65536 + x * 2 ^ 24) with ((y + x * 256) * 2 ^ 16)
    by (change (2 ^ 16) with 65536; change (2 ^ 24) with 16777216; lia).
  rewrite (lor_disjoint _ _ 16) by (change (2 ^ 16) with 65536; lia).
  rewrite Z.lor_comm.
  replace (z * 256 + (y + x * 256) * 2 ^ 16) with ((z + y * 256 + x * 65536) * 2 ^ 8)
    by (change (2 ^ 16) with 65536; change (2 ^ 8) with 256; lia).
  rewrite (lor_disjoint _ _ 8) by (change (2 ^ 8) with 256; lia).
  change (2 ^ 8) with 256. lia.
Qed.

(** X16: the ZIP test accepts exactly the buffers that begin with
    50 4B 03 04; the bzip2 test accepts every buffer of at least four
    bytes that begins with "BZ", whatever follows; the DirectX-LZ test
    accepts exactly the buffers of at least eight byte values that begin
    with 60 87 03 followed by 00, 01 or 02. *)
Theorem compression_signatures (data : bytes) :
  (IsZipCompressed data = true
   <-> exists rest, data = 0x50 :: 0x4B :: 0x03 :: 0x04 :: rest)
  /\ (IsBzip2Compressed data = true
      <-> exists c d rest, data = 66 :: 90 :: c :: d :: rest)
  /\ (all_bytes (firstn 4 data) ->
      (IsDirectXLZCompressed data = true
       <-> (8 <= List.length data)%nat
           /\ exists k rest, (k = 0 \/ k = 1 \/ k = 2)
                             /\ data = 0x60 :: 0x87 :: 0x03 :: k :: rest)).
Proof.
  split; [| split].
  - unfold IsZipCompressed, at_.
    destruct data as [| a [| b [| c [| d rest]]]];
      try (split; [discriminate | intros (r & H); discriminate]).
    cbn [List.length Nat.ltb Nat.leb nth].
    rewrite !andb_true_iff, !Z.eqb_eq. split.
    + intros [[[-> ->] ->] ->]. exists rest. reflexivity.
    + intros (r & H). injection H as -> -> -> -> _. auto.
  - unfold IsBzip2Compressed, at_.
    destruct data as [| a [| b [| c [| d rest]]]];
      try (split; [discriminate | intros (x & y & r & H); discriminate]).
    cbn [List.length Nat.ltb Nat.leb nth].
    destruct (Z.eqb_spec a 66) as [-> | Ha]; cbn [andb].
    + destruct (Z.eqb_spec b 90) as [-> | Hb].
      * split; [| destruct (_ && _); reflexivity].
        intros _. exists c, d, rest. reflexivity.
      * split; [discriminate |]. intros (x & y & r & H). injection H as -> _. contradiction.
    + split; [discriminate |]. intros (x & y & r & H). injection H as -> _. contradiction.
  - intros Hbytes. unfold IsDirectXLZCompressed.
    destruct (Nat.ltb_spec (List.length data) 8) as [Hshort | Hlong].
    { split; [discriminate | intros [H _]; lia]. }
    destruct data as [| a [| b [| c [| d rest]]]]; cbn [List.length] in Hlong; try lia.
    cbn [firstn] in Hbytes.
    assert (0 <= a < 256 /\ 0 <= b < 256 /\ 0 <= c < 256 /\ 0 <= d < 256)
      as (Ha & Hb & Hc & Hd).
    { inversion Hbytes as [| ? ? ? H1]; subst. inversion H1 as [| ? ? ? H2]; subst.
      inversion H2 as [| ? ? ? H3]; subst. inversion H3; subst. auto. }
    unfold lz_header, at_. cbn [nth].
    rewrite (lor_be_sum d c b a) by assumption.
    rewrite Z.mod_small by (change (2 ^ 32) with 4294967296; lia).
    rewrite !orb_true_iff, !Z.eqb_eq. split.
    + intros H. split; [cbn [List.length]; lia |].
      exists d, rest. split; [lia |].
      assert (a = 96 /\ b = 135 /\ c = 3) as (-> & -> & ->) by lia. reflexivity.
    + intros (_ & k & r & Hk & H). injection H as -> -> -> -> _. lia.
Qed.

Lemma compression_signatures_witness :
  IsDirectXLZCompressed [0x60; 0x87; 0x03; 0x01; 0; 0; 0; 0] = true.
Proof.
  apply (proj2 (proj2 (compression_signatures [0x60; 0x87; 0x03; 0x01; 0; 0; 0; 0]))).
  - repeat constructor; lia.
  - split; [cbn; lia |]. exists 1, [0; 0; 0; 0]. split; [lia | reflexivity].
Defined.
(* ------------------------------------------------------------------------- *)
(** ** The LZ77 attempt *)

Lemma decode_stored (n : nat) :
  forall (literals output : bytes) (fuel : nat),
    (List.length literals <= n)%nat ->
    (List.length (store_literals literals) <= fuel)%nat ->
    decode_loop fuel (store_literals literals) output = output ++ literals.
Proof.
  induction n as [| n IH]; intros literals output fuel Hn Hfuel.
  - destruct literals; [| cbn in Hn; lia].
    destruct fuel; cbn; rewrite app_nil_r; reflexivity.
  - destruct literals as [| a [| b [| c [| d [| e [| f [| g [| h more]]]]]]]];
      try (destruct fuel as [| fuel]; [cbn in Hfuel; lia |];
           cbn; destruct fuel; rewrite <- ?app_assoc; cbn; rewrite ?app_nil_r;
           reflexivity).
    { destruct fuel; cbn; rewrite app_nil_r; reflexivity. }
    destruct fuel as [| fuel]; [cbn in Hfuel; lia |].
    cbn [store_literals decode_loop control_loop].
    change (Z.testbit 255 0) with true. change (Z.testbit 255 (0 + 1)) with true.
    change (Z.testbit 255 (0 + 1 + 1)) with true.
    change (Z.testbit 255 (0 + 1 + 1 + 1)) with true.
    change (Z.testbit 255 (0 + 1 + 1 + 1 + 1)) with true.
    change (Z.testbit 255 (0 + 1 + 1 + 1 + 1 + 1)) with true.
    change (Z.testbit 255 (0 + 1 + 1 + 1 + 1 + 1 + 1)) with true.
    change (Z.testbit 255 (0 + 1 + 1 + 1 + 1 + 1 + 1 + 1)) with true.
    cbn iota.
    rewrite IH.
    + rewrite <- !app_assoc. reflexivity.
    + cbn [List.length] in Hn. lia.
    + cbn [store_literals List.length] in Hfuel. lia.
Qed.

(** X17: the LZ77 decoder returns stored data as it is: an input made of
    all-ones control bytes, each followed by up to eight literal bytes,
    decodes to exactly those literals, and the attempt succeeds exactly
    when the literals pass the content validation.  An input of fewer than
    four bytes is refused and the output buffer is left alone. *)
Theorem TryLZ77Decompression_stored_round_trip (literals output : bytes) :
  ((3 <= List.length literals)%nat ->
   TryLZ77Decompression (store_literals literals) output
   = (Decompressor.ValidateDecompressedContent literals, literals))
  /\ (forall data : bytes,
         (List.length data < 4)%nat -> TryLZ77Decompression data output = (false, output)).
Proof.
  split.
  - intros Hlen. unfold TryLZ77Decompression.
    assert (4 <= List.length (store_literals literals))%nat as Hstored.
    { destruct literals as [| a [| b [| c [| d [| e [| f [| g [| h more]]]]]]]];
        cbn [store_literals List.length] in *; lia. }
    destruct (Nat.ltb_spec (List.length (store_literals literals)) 4); [lia |].
    rewrite (decode_stored (List.length literals)) by lia.
    reflexivity.
  - intros data Hshort. unfold TryLZ77Decompression.
    destruct (Nat.ltb_spec (List.length data) 4); [reflexivity | lia].
Qed.

Lemma TryLZ77Decompression_stored_round_trip_witness :
  TryLZ77Decompression (store_literals (chars "xof 0303txt 0032")) []
  = (true, chars "xof 0303txt 0032").
Proof.
  apply (proj1 (TryLZ77Decompression_stored_round_trip (chars "xof 0303txt 0032") [])).
  cbn. lia.
Defined.

Lemma copy_back_length (count : nat) :
  forall (i startPos : nat) (output : bytes),
    (List.length (copy_back count i startPos output) <= List.length output + count)%nat.
Proof.
  induction count as [| count IH]; intros i startPos output; cbn [copy_back]; [lia |].
  etransitivity; [apply IH |].
  destruct (Nat.ltb _ _); rewrite ?length_app; cbn [List.length]; lia.
Qed.

Lemma control_loop_growth (bits : nat) :
  forall (bit control : Z) (rest output : bytes),
    let result := control_loop bits bit control rest output in
    (List.length (snd result) + 9 * List.length (fst result)
     <= List.length output + 9 * List.length rest)%nat.
Proof.
  induction bits as [| bits IH]; intros bit control rest output; cbn [control_loop].
  - cbn. lia.
  - destruct rest as [| c rest']; [cbn; lia |].
    destruct (Z.testbit control bit).
    + cbv zeta in *. etransitivity; [apply IH |].
      rewrite length_app. cbn [List.length]. lia.
    + destruct rest' as [| hi rest'']; [cbn; lia |].
      cbv zeta in *.
      destruct (_ >? _).
      * etransitivity; [apply IH |]. cbn [List.length]. lia.
      * etransitivity; [apply IH |].
        pose proof (copy_back_length
                      (Z.to_nat (Z.land (Z.lor (Z.shiftl hi 8) c mod 2 ^ 16) 15 + 3)) 0
                      (List.length output
                       - Z.to_nat (Z.shiftr (Z.lor (Z.shiftl hi 8) c mod 2 ^ 16) 4 + 1))
                      output) as Hcopy.
        assert (0 <= Z.land (Z.lor (Z.shiftl hi 8) c mod 2 ^ 16) 15 < 16) as Hnibble.
        { change 15 with (Z.ones 4). rewrite Z.land_ones by lia.
          apply Z.mod_pos_bound. reflexivity. }
        cbn [List.length]. lia.
Qed.

(** X18: the LZ77 decoder never produces more than nine times its input:
    a back-reference takes two input bytes and appends at most eighteen
    bytes, a literal takes one and appends one. *)
Theorem TryLZ77Decompression_growth (data output : bytes) :
  (4 <= List.length data)%nat ->
  (List.length (snd (TryLZ77Decompression data output)) <= 9 * List.length data)%nat.
Proof.
  intros Hlen. unfold TryLZ77Decompression.
  destruct (Nat.ltb_spec (List.length data) 4); [lia |]. cbn [snd].
  assert (forall fuel rest out,
             (List.length (decode_loop fuel rest out)
              <= List.length out + 9 * List.length rest)%nat) as Hloop.
  { induction fuel as [| fuel IH]; intros rest out; cbn [decode_loop]; [lia |].
    destruct rest as [| control rest']; [lia |].
    pose proof (control_loop_growth 8 0 control rest' out) as Hstep. cbv zeta in Hstep.
    destruct (control_loop 8 0 control rest' out) as [rest'' out']. cbn [fst snd] in Hstep.
    etransitivity; [apply IH |]. cbn [List.length]. lia. }
  etransitivity; [apply Hloop |]. cbn [List.length]. lia.
Qed.

Lemma TryLZ77Decompression_growth_witness :
  Nat.le (List.length (snd (TryLZ77Decompression [1; 65; 0; 0; 0x0F; 0] []))) 54.
Proof.
  apply (TryLZ77Decompression_growth [1; 65; 0; 0; 0x0F; 0] []).
  cbn. lia.
Defined.

Import Detection.

(* ------------------------------------------------------------------------- *)
(** ** Format detection *)

Lemma bytes_eqb_eq (a b : bytes) : bytes_eqb a b = true <-> a = b.
Proof.
  revert b. induction a as [| x a IH]; intros [| y b]; cbn [bytes_eqb];
    try (split; [reflexivity | reflexivity]);
    try (split; discriminate).
  rewrite andb_true_iff, Z.eqb_eq, IH. split.
  - intros [-> ->]. reflexivity.
  - intros H. injection H as -> ->. auto.
Qed.

Lemma bytes_eqb_length (a b : bytes) :
  List.length a <> List.length b -> bytes_eqb a b = false.
Proof.
  intros H. destruct (bytes_eqb a b) eqn:E; [| reflexivity].
  apply bytes_eqb_eq in E. subst. contradiction.
Qed.

(** X19: how a buffer is classified.  Fewer than 16 bytes: text.  With
    the "xof " magic: binary exactly for the tag "bin ", compressed exactly
    for the tags "tzip" and "bzip" (the two-character tag "lz" can never
    match a four-byte field), text otherwise.  Without the magic: never
    binary, and compressed exactly when one of the three compression
    signatures matches. *)
Theorem DetectDataFormat_classification (data : bytes) :
  ((List.length data < 16)%nat -> DetectDataFormat data = TEXT)
  /\ ((16 <= List.length data)%nat ->
      firstn 4 data = chars "xof " ->
      let tag := firstn 4 (skipn 8 data) in
      (DetectDataFormat data = BINARY <-> tag = chars "bin ")
      /\ (DetectDataFormat data = COMPRESSED
          <-> tag = chars "tzip" \/ tag = chars "bzip"))
  /\ ((16 <= List.length data)%nat ->
      firstn 4 data <> chars "xof " ->
      DetectDataFormat data <> BINARY
      /\ (DetectDataFormat data = COMPRESSED
          <-> IsZipCompressed data = true \/ IsBzip2Compressed data = true
              \/ IsDirectXLZCompressed data = true)).
Proof.
  unfold DetectDataFormat. split; [| split].
  - intros H. destruct (Nat.ltb_spec (List.length data) 16); [reflexivity | lia].
  - intros Hlen Hmagic. cbv zeta.
    destruct (Nat.ltb_spec (List.length data) 16) as [? | _]; [lia |].
    destruct (Nat.leb_spec 4 (List.length data)) as [_ | ?]; [| lia].
    destruct (Nat.leb_spec 16 (List.length data)) as [_ | ?]; [| lia].
    rewrite (proj2 (bytes_eqb_eq _ _) Hmagic). cbn [negb andb].
    assert (firstn 4 (skipn 8 (firstn 16 data)) = firstn 4 (skipn 8 data)) as ->.
    { clear - Hlen. revert Hlen.
      do 16 (destruct data as [| ? data]; [cbn; lia |]). reflexivity. }
    set (tag := firstn 4 (skipn 8 data)).
    assert (List.length tag = 4%nat) as Htag
        by (unfold tag; rewrite length_firstn, length_skipn; lia).
    rewrite (bytes_eqb_length tag (chars "lz")) by (rewrite Htag; discriminate).
    rewrite orb_false_r.
    destruct (bytes_eqb tag (chars "txt ")) eqn:Etxt.
    { apply bytes_eqb_eq in Etxt. rewrite Etxt.
      split; split; try discriminate; intros Hc; try (destruct Hc as [Hc | Hc]); discriminate. }
    destruct (bytes_eqb tag (chars "bin ")) eqn:Ebin.
    { apply bytes_eqb_eq in Ebin. rewrite Ebin.
      split; split; try discriminate; try reflexivity.
      intros [Hc | Hc]; discriminate. }
    assert (tag <> chars "bin ") as Hnb
        by (intros Hc; apply bytes_eqb_eq in Hc; congruence).
    destruct (bytes_eqb tag (chars "tzip")) eqn:Etz; cbn [orb].
    { apply bytes_eqb_eq in Etz.
      split; split; try discriminate; try contradiction; auto. }
    destruct (bytes_eqb tag (chars "bzip")) eqn:Ebz.
    { apply bytes_eqb_eq in Ebz.
      split; split; try discriminate; try contradiction; auto. }
    split; split; try discriminate; try contradiction.
    intros [Hc | Hc]; apply bytes_eqb_eq in Hc; congruence.
  - intros Hlen Hmagic.
    destruct (Nat.ltb_spec (List.length data) 16) as [? | _]; [lia |].
    destruct (Nat.leb_spec 4 (List.length data)) as [_ | ?]; [| lia].
    destruct (bytes_eqb (firstn 4 data) (chars "xof ")) eqn:E;
      [apply bytes_eqb_eq in E; contradiction |].
    cbn [negb andb].
    destruct (IsZipCompressed data); cbn [orb]; [split; [discriminate | tauto] |].
    destruct (IsBzip2Compressed data); cbn [orb]; [split; [discriminate | tauto] |].
    destruct (IsDirectXLZCompressed data); [split; [discriminate | tauto] |].
    split; [discriminate |]. split; [discriminate |].
    intros [Hc | [Hc | Hc]]; discriminate.
Qed.

Lemma DetectDataFormat_classification_witness :
  DetectDataFormat (chars "xof 0303bzip0032 payload") = COMPRESSED.
Proof.
  destruct (DetectDataFormat_classification (chars "xof 0303bzip0032 payload"))
    as (_ & Hmagic & _).
  apply Hmagic.
  - cbn. lia.
  - reflexivity.
  - right. reflexivity.
Defined.
(* ------------------------------------------------------------------------- *)
(** ** The file header *)

Lemma ascii_eqb_codes (c d : ascii) :
  Ascii.eqb c d = (Z.of_N (N_of_ascii c) =? Z.of_N (N_of_ascii d)).
Proof.
  destruct (Ascii.eqb_spec c d) as [-> | Hne].
  - symmetry. apply Z.eqb_refl.
  - symmetry. apply Z.eqb_neq. intros H. apply Hne.
    apply N2Z.inj in H.
    rewrite <- (ascii_N_embedding c), <- (ascii_N_embedding d), H. reflexivity.
Qed.

Lemma string_eqb_chars (s t : string) :
  String.eqb s t = bytes_eqb (chars s) (chars t).
Proof.
  revert t. induction s as [| c s IH]; intros [| d t]; try reflexivity.
  cbn [String.eqb]. unfold chars in *. cbn [list_ascii_of_string map bytes_eqb].
  rewrite <- IH, <- ascii_eqb_codes.
  destruct (Ascii.eqb c d); reflexivity.
Qed.

Lemma long_string (n : nat) (s : string) :
  Z.of_nat n <= size s ->
  exists (front : list ascii) (rest : string),
    List.length front = n
    /\ s = fold_right String rest front.
Proof.
  revert s. induction n as [| n IH]; intros s Hs.
  - exists [], s. split; reflexivity.
  - destruct s as [| c s]; [unfold size in Hs; cbn in Hs; lia |].
    rewrite size_String in Hs.
    destruct (IH s) as (front & rest & Hlen & ->); [lia |].
    exists (c :: front), rest. split; [cbn; lia | reflexivity].
Qed.

(** X20: the header parse succeeds exactly on contents of at least 16
    characters that begin with "xof "; a failed parse leaves the header
    record as it was.  On success the format it records is the one the
    format detection assigns to the same bytes, the version fields are the
    characters at offsets 4 and 6 minus the character '0' (digits or not),
    and the timing fields are untouched. *)
Theorem ParseHeader_agrees_with_detection (content : string) (h : XFileHeader) :
  (fst (ParseHeader content h) = true
   <-> 16 <= size content /\ String.substring 0 4 content = "xof "%string)
  /\ (fst (ParseHeader content h) = false -> snd (ParseHeader content h) = h)
  /\ (fst (ParseHeader content h) = true ->
      let h' := snd (ParseHeader content h) in
      format h' = DetectDataFormat (chars content)
      /\ majorVersion h' = char_code (char_at content 4) - 48
      /\ minorVersion h' = char_code (char_at content 6) - 48
      /\ hasAnimationTimingInfo h' = hasAnimationTimingInfo h
      /\ header_ticksPerSecond h' = header_ticksPerSecond h).
Proof.
  assert (fst (ParseHeader content h) = true
          <-> 16 <= size content /\ String.substring 0 4 content = "xof "%string) as Hiff.
  { unfold ParseHeader.
    destruct (Z.ltb_spec (size content) 16) as [Hshort | Hlong]; cbn [fst].
    - split; [discriminate | intros [H _]; lia].
    - destruct (String.eqb_spec (String.substring 0 4 content) "xof ") as [E | E];
        cbn [negb].
      + destruct (size _ >=? 4); cbn [fst]; tauto.
      + cbn [fst]. split; [discriminate | intros [_ H]; contradiction]. }
  split; [exact Hiff |]. split.
  - unfold ParseHeader.
    destruct (size content <? 16); [reflexivity |].
    destruct (negb _); [reflexivity |].
    destruct (size _ >=? 4); cbn [fst]; discriminate.
  - intros Hok. apply Hiff in Hok. destruct Hok as [Hlong Hmagic].
    destruct (long_string 16 content Hlong) as (front & rest & Hlen & ->).
    do 16 (destruct front as [| ? front]; [discriminate Hlen |]).
    destruct front; [| discriminate Hlen]. clear Hlen.
    cbn [fold_right String.substring] in *.
    injection Hmagic as -> -> -> ->. cbv zeta.
    unfold ParseHeader.
    match goal with
    | |- context [size ?s <? 16] =>
        destruct (Z.ltb_spec (size s) 16) as [Hshort | _]; [lia |]
    end.
    cbn [String.substring].
    change (String.eqb "xof " "xof ") with true. cbn [negb].
    match goal with
    | |- context [size ?s >=? 4] => change (size s >=? 4) with true
    end.
    cbn [snd format majorVersion minorVersion hasAnimationTimingInfo
         header_ticksPerSecond char_at String.get].
    repeat split.
    unfold DetectDataFormat.
    rewrite !string_eqb_chars.
    cbn [chars list_ascii_of_string map List.length Nat.ltb Nat.leb negb andb
         firstn skipn].
    change (bytes_eqb [Z.of_N (N_of_ascii "x"); Z.of_N (N_of_ascii "o");
                       Z.of_N (N_of_ascii "f"); Z.of_N (N_of_ascii " ")]
                      [Z.of_N (N_of_ascii "x"); Z.of_N (N_of_ascii "o");
                       Z.of_N (N_of_ascii "f"); Z.of_N (N_of_ascii " ")]) with true.
    cbn [negb andb].
    rewrite (bytes_eqb_length _ [Z.of_N (N_of_ascii "l"); Z.of_N (N_of_ascii "z")])
      by discriminate.
    rewrite orb_false_r. reflexivity.
Qed.

Lemma ParseHeader_agrees_with_detection_witness :
  format (snd (ParseHeader "xof 0303tzip0032 data" XFileHeader_default))
  = DetectDataFormat (chars "xof 0303tzip0032 data").
Proof.
  apply (proj2 (proj2 (ParseHeader_agrees_with_detection
                         "xof 0303tzip0032 data" XFileHeader_default))).
  reflexivity.
Defined.

Import TextUtils.

(* ------------------------------------------------------------------------- *)
(** ** Whitespace normalisation *)

Lemma normalize_from_idempotent (content : string) :
  forall flag : bool,
    normalize_from (normalize_from content flag) flag = normalize_from content flag.
Proof.
  induction content as [| c rest IH]; intros flag; [reflexivity |].
  cbn [normalize_from]. destruct (isspace c) eqn:Ec.
  - destruct flag.
    + apply IH.
    + cbn [normalize_from]. change (isspace " ") with true. cbn iota.
      rewrite IH. reflexivity.
  - cbn [normalize_from]. rewrite Ec.
    assert (normalize_from (normalize_from rest false) false
            = normalize_from rest false) as -> by apply IH.
    destruct flag; reflexivity.
Qed.

Lemma normalize_from_spaces (content : string) :
  forall (flag : bool) (c : ascii),
    has_char c (normalize_from content flag) = true ->
    isspace c = true -> c = " "%char.
Proof.
  induction content as [| d rest IH]; intros flag c Hin Hsp; [discriminate |].
  cbn [normalize_from] in Hin. destruct (isspace d) eqn:Ed.
  - destruct flag; [exact (IH _ _ Hin Hsp) |].
    cbn [has_char] in Hin. apply orb_true_iff in Hin. destruct Hin as [Hc | Hin].
    + apply Ascii.eqb_eq in Hc. symmetry. exact Hc.
    + exact (IH _ _ Hin Hsp).
  - cbn [has_char] in Hin. apply orb_true_iff in Hin. destruct Hin as [Hc | Hin].
    + apply Ascii.eqb_eq in Hc. subst. congruence.
    + exact (IH _ _ Hin Hsp).
Qed.

Lemma normalize_from_no_run (content : string) :
  forall (flag : bool) (before after : string),
    normalize_from content flag <> (before ++ String " " (String " " after))%string
    /\ (flag = true ->
        normalize_from content flag <> String " " after).
Proof.
  induction content as [| d rest IH]; intros flag before after.
  - cbn. split; [destruct before; discriminate | discriminate].
  - cbn [normalize_from]. destruct (isspace d) eqn:Ed.
    + destruct flag.
      * split; [exact (proj1 (IH true before after)) | intros _; exact (proj2 (IH true before after) eq_refl)].
      * split; [| discriminate].
        destruct before as [| b before]; cbn [String.append].
        -- intros H. injection H as H. exact (proj2 (IH true EmptyString after) eq_refl H).
        -- intros H. injection H as _ H. exact (proj1 (IH true before after) H).
    + split.
      * destruct before as [| b before]; cbn [String.append].
        -- intros H. injection H as -> _. discriminate.
        -- intros H. injection H as _ H. exact (proj1 (IH false before after) H).
      * intros _ H. injection H as -> _. discriminate.
Qed.

Lemma split_at_absent (delim : ascii) (s : string) :
  has_char delim s = false -> split_at delim s = (s, None).
Proof.
  induction s as [| c s IH]; cbn [has_char split_at]; [reflexivity |].
  intros H. apply orb_false_iff in H. destruct H as [Hc Hs].
  rewrite Hc, (IH Hs). reflexivity.
Qed.

(** X21: whitespace normalisation leaves no whitespace character other
    than the blank, hence no line break, never two blanks in a row, and
    applying it twice is the same as applying it once.  As the
    preprocessing of the text parser ends with it, reading the preprocessed
    content line by line finds the whole content as one single line. *)
Theorem NormalizeWhitespace_single_line (content : string) :
  (forall c : ascii,
      has_char c (NormalizeWhitespace content) = true -> isspace c = true -> c = " "%char)
  /\ has_char newline (NormalizeWhitespace content) = false
  /\ (forall before after : string,
         NormalizeWhitespace content <> (before ++ String " " (String " " after))%string)
  /\ NormalizeWhitespace (NormalizeWhitespace content) = NormalizeWhitespace content
  /\ (PreprocessTextContent content <> EmptyString ->
      getline (open_stream (PreprocessTextContent content)) EmptyString newline
      = (true, PreprocessTextContent content, mkStream EmptyString true false)).
Proof.
  assert (forall s, has_char newline (NormalizeWhitespace s) = false) as Hnl.
  { intros s. destruct (has_char newline (NormalizeWhitespace s)) eqn:E; [| reflexivity].
    apply (normalize_from_spaces s false newline) in E; [discriminate | reflexivity]. }
  split; [exact (normalize_from_spaces content false) |].
  split; [apply Hnl |].
  split; [intros before after; apply (normalize_from_no_run content false) |].
  split; [apply normalize_from_idempotent |].
  intros Hne. unfold getline, open_stream. cbn [eofbit failbit buffer orb].
  unfold PreprocessTextContent in *.
  rewrite (split_at_absent _ _ (Hnl (RemoveComments content))).
  destruct (NormalizeWhitespace (RemoveComments content)); [contradiction | reflexivity].
Qed.

Lemma NormalizeWhitespace_single_line_witness :
  getline (open_stream (PreprocessTextContent
                          (String "M" (String newline (String "{" EmptyString)))))
          EmptyString newline
  = (true, "M {"%string, mkStream EmptyString true false).
Proof.
  apply (proj2 (proj2 (proj2 (proj2 (NormalizeWhitespace_single_line
           (String "M" (String newline (String "{" EmptyString)))))))).
  discriminate.
Defined.

(* ------------------------------------------------------------------------- *)
(** ** Comment removal *)

Lemma has_char_cons (c d : ascii) (s : string) :
  has_char c (String d s) = false -> Ascii.eqb d c = false /\ has_char c s = false.
Proof. cbn [has_char]. intros H. apply orb_false_iff in H. exact H. Qed.

Lemma remove_from_code_prev (s : string) (p p' : option ascii) :
  remove_from s p Code false = remove_from s p' Code false.
Proof. destruct s; reflexivity. Qed.

Lemma remove_from_code (code : string) :
  has_char "/" code = false -> has_char quote code = false ->
  forall (rest : string) (p : option ascii),
    remove_from (code ++ rest) p Code false
    = (code ++ remove_from rest None Code false)%string.
Proof.
  induction code as [| c code IH]; intros Hs Hq rest p.
  - apply remove_from_code_prev.
  - apply has_char_cons in Hs. destruct Hs as [Hc Hs].
    apply has_char_cons in Hq. destruct Hq as [Hd Hq].
    cbn [String.append remove_from]. rewrite Hc, Hd. cbn [andb].
    rewrite (IH Hs Hq). reflexivity.
Qed.

Lemma remove_from_line_comment (comment : string) :
  has_char newline comment = false -> has_char carriage_return comment = false ->
  forall (p : option ascii),
    remove_from comment p InLineComment false = EmptyString
    /\ forall (t : ascii) (more : string),
        t = newline \/ t = carriage_return ->
        remove_from (comment ++ String t more) p InLineComment false
        = String t (remove_from more None Code false).
Proof.
  induction comment as [| c comment IH]; intros Hn Hr p.
  - split; [reflexivity |]. intros t more Ht. cbn [String.append remove_from].
    assert (Ascii.eqb t newline || Ascii.eqb t carriage_return = true) as ->.
    { destruct Ht as [-> | ->]; reflexivity. }
    rewrite (remove_from_code_prev more _ None). reflexivity.
  - apply has_char_cons in Hn. destruct Hn as [Hc Hn].
    apply has_char_cons in Hr. destruct Hr as [Hd Hr].
    cbn [String.append remove_from]. rewrite Hc, Hd. cbn [orb].
    exact (IH Hn Hr (Some c)).
Qed.

Lemma remove_from_block_comment (comment : string) :
  has_char "*" comment = false ->
  forall (p : option ascii),
    remove_from comment p InBlockComment false = EmptyString
    /\ forall more : string,
        remove_from (comment ++ String "*" (String "/" more)) p InBlockComment false
        = remove_from more None Code false.
Proof.
  induction comment as [| c comment IH]; intros Hs p.
  - split; [reflexivity |]. intros more. cbn [String.append remove_from].
    cbn [Ascii.eqb Bool.eqb andb]. apply remove_from_code_prev.
  - apply has_char_cons in Hs. destruct Hs as [Hc Hs].
    cbn [String.append remove_from]. rewrite Hc. cbn [andb].
    exact (IH Hs (Some c)).
Qed.

Lemma remove_from_string (text : string) :
  has_char quote text = false -> has_char backslash text = false ->
  forall (p : ascii) (more : string),
    Ascii.eqb p backslash = false ->
    remove_from (text ++ String quote more) (Some p) InString false
    = (text ++ String quote (remove_from more None Code false))%string.
Proof.
  induction text as [| c text IH]; intros Hq Hb p more Hp.
  - cbn [String.append remove_from]. rewrite Hp.
    change (Ascii.eqb quote quote) with true. cbn [andb negb].
    rewrite (remove_from_code_prev more _ None). reflexivity.
  - apply has_char_cons in Hq. destruct Hq as [Hc Hq].
    apply has_char_cons in Hb. destruct Hb as [Hd Hb].
    cbn [String.append remove_from]. rewrite Hc. cbn [andb].
    rewrite (IH Hq Hb c more Hd). reflexivity.
Qed.

(** X22: how comment removal treats a text whose leading part [code] holds
    no slash and no double quote.  The part is copied as it is; a line
    comment after it is dropped up to the line break, which is kept; a
    block comment after it is dropped with its delimiters; a comment that
    is not closed swallows the rest of the text; and a quoted text (without
    backslash) is copied with its quotes, comment markers inside it
    included. *)
Theorem RemoveComments_structure (code : string) :
  has_char "/" code = false -> has_char quote code = false ->
  RemoveComments code = code
  /\ (forall (comment : string) (t : ascii) (more : string),
         has_char newline comment = false ->
         has_char carriage_return comment = false ->
         t = newline \/ t = carriage_return ->
         RemoveComments (code ++ String "/" (String "/" (comment ++ String t more)))
         = (code ++ String t (RemoveComments more))%string)
  /\ (forall (comment more : string),
         has_char "*" comment = false ->
         RemoveComments (code ++ String "/" (String "*"
                           (comment ++ String "*" (String "/" more))))
         = (code ++ RemoveComments more)%string)
  /\ (forall comment : string,
         has_char newline comment = false ->
         has_char carriage_return comment = false ->
         RemoveComments (code ++ String "/" (String "/" comment)) = code)
  /\ (forall comment : string,
         has_char "*" comment = false ->
         RemoveComments (code ++ String "/" (String "*" comment)) = code)
  /\ (forall (text more : string),
         has_char quote text = false -> has_char backslash text = false ->
         RemoveComments (code ++ String quote (text ++ String quote more))
         = (code ++ String quote (text ++ String quote (RemoveComments more)))%string).
Proof.
  intros Hs Hq. unfold RemoveComments.
  assert (forall s, (s ++ EmptyString)%string = s) as Hnil.
  { induction s as [| c s IH]; cbn; [| rewrite IH]; reflexivity. }
  split.
  { pose proof (remove_from_code code Hs Hq EmptyString None) as H.
    rewrite Hnil in H. cbn [remove_from] in H. rewrite Hnil in H. exact H. }
  split.
  { intros comment t more Hn Hr Ht. rewrite (remove_from_code code Hs Hq).
    cbn [remove_from]. cbn [Ascii.eqb Bool.eqb andb].
    change (Ascii.eqb "/" quote) with false. cbn iota.
    rewrite (proj2 (remove_from_line_comment comment Hn Hr _) t more Ht). reflexivity. }
  split.
  { intros comment more Hc. rewrite (remove_from_code code Hs Hq).
    cbn [remove_from]. cbn [Ascii.eqb Bool.eqb andb].
    change (Ascii.eqb "/" quote) with false. cbn iota.
    rewrite (proj2 (remove_from_block_comment comment Hc _) more). reflexivity. }
  split.
  { intros comment Hn Hr. rewrite (remove_from_code code Hs Hq).
    cbn [remove_from]. cbn [Ascii.eqb Bool.eqb andb].
    change (Ascii.eqb "/" quote) with false. cbn iota.
    rewrite (proj1 (remove_from_line_comment comment Hn Hr _)). apply Hnil. }
  split.
  { intros comment Hc. rewrite (remove_from_code code Hs Hq).
    cbn [remove_from]. cbn [Ascii.eqb Bool.eqb andb].
    change (Ascii.eqb "/" quote) with false. cbn iota.
    rewrite (proj1 (remove_from_block_comment comment Hc _)). apply Hnil. }
  intros text more Ht Hb. rewrite (remove_from_code code Hs Hq).
  cbn [remove_from]. change (Ascii.eqb quote quote) with true. cbn iota.
  rewrite (remove_from_string text Ht Hb quote more eq_refl). reflexivity.
Qed.

Lemma RemoveComments_structure_witness :
  RemoveComments "Mesh { /* two */ 1; }" = "Mesh {  1; }"%string.
Proof.
  destruct (RemoveComments_structure "Mesh { "%string eq_refl eq_refl)
    as (_ & _ & Hblock & _).
  exact (Hblock " two "%string " 1; }"%string eq_refl).
Defined.

Import TextFormat.

(* ------------------------------------------------------------------------- *)
(** ** The text format: what a parse can read *)

Lemma read_line_spent (s : state) :
  spent s ->
  exists s' : state,
    read_line s = (Done None, s') /\ spent s' /\ snd s' = snd s.
Proof.
  intros H. destruct s as [[buf eof bad] p]. unfold spent in H. cbn in H.
  unfold read_line, getline. cbn [fst snd eofbit failbit buffer]. rewrite H.
  eexists. split; [reflexivity |]. split; [| reflexivity].
  unfold spent. cbn. apply orb_true_r.
Qed.

Lemma idle_ret {A : Type} (a : A) : idle (ret a) a.
Proof. intros s H. exists s. repeat split; assumption. Qed.

Lemma skip_loop_idle (fuel : nat) (n : Z) : idle (skip_loop (S fuel) n) true.
Proof.
  intros s H. destruct (read_line_spent s H) as (s' & E & H' & Hp).
  exists s'. cbn [skip_loop]. unfold pbind. rewrite E.
  repeat split; [exact H' | rewrite Hp; reflexivity].
Qed.

Lemma SkipToClosingBrace_idle : idle SkipToClosingBrace true.
Proof. intros s H. unfold SkipToClosingBrace, rounds. apply skip_loop_idle. exact H. Qed.

Lemma ParseMeshObject_idle (env : Platform) : idle (ParseMeshObject env) false.
Proof.
  intros s H. destruct (read_line_spent s H) as (s' & E & H' & Hp).
  exists s'. unfold ParseMeshObject, pbind. rewrite E.
  repeat split; [exact H' | rewrite Hp; reflexivity].
Qed.

Lemma ParseMaterialObject_idle (env : Platform) : idle (ParseMaterialObject env) false.
Proof.
  intros s H. destruct (read_line_spent s H) as (s' & E & H' & Hp).
  exists s'. unfold ParseMaterialObject, pbind. rewrite E.
  repeat split; [exact H' | rewrite Hp; reflexivity].
Qed.

Lemma ParseAnimationSetObject_idle (env : Platform) :
  idle (ParseAnimationSetObject env) true.
Proof.
  intros s H. destruct (read_line_spent s H) as (s' & E & H' & Hp).
  exists s'. unfold ParseAnimationSetObject, pbind, get_mesh, rounds.
  cbn [animation_set_loop]. unfold pbind. rewrite E. cbn.
  repeat split; [exact H' | rewrite Hp; reflexivity].
Qed.

Lemma data_objects_loop_idle (env : Platform) (fuel : nat) :
  idle (data_objects_loop env (S fuel)) true.
Proof.
  intros s H. destruct (read_line_spent s H) as (s' & E & H' & Hp).
  exists s'. cbn [data_objects_loop]. unfold pbind. rewrite E.
  repeat split; [exact H' | rewrite Hp; reflexivity].
Qed.

Lemma substr_0 (s : string) (n : Z) : exists t : string, substr s 0 n = Ok t.
Proof.
  unfold substr. pose proof (size_nonneg s).
  destruct (0 >? size s) eqn:E; [lia |]. eexists. reflexivity.
Qed.

(** After an object parser that is idle on a spent stream, the loop of
    [ParseDataObjects] ends. *)
Lemma dispatch_idle (env : Platform) (fuel : nat) (m : P bool) (b : bool) :
  idle m b ->
  forall s : state,
    spent s ->
    exists (r : bool) (s' : state),
      (parsed <-- m ;;
       if negb parsed then ret false else data_objects_loop env (S fuel)) s
      = (Done r, s')
      /\ parsedData_ (snd s') = parsedData_ (snd s).
Proof.
  intros Hm s H. destruct (Hm s H) as (s1 & E1 & H1 & Hp1).
  unfold pbind. rewrite E1. destruct b; cbn [negb].
  - destruct (data_objects_loop_idle env fuel s1 H1) as (s2 & E2 & _ & Hp2).
    exists true, s2. split; [exact E2 | congruence].
  - exists false, s1. split; [reflexivity | exact Hp1].
Qed.

Lemma ParseDataObjects_single_line (env : Platform) (content : string) (p : XFileParser) :
  has_char newline content = false ->
  exists (b : bool) (p' : XFileParser),
    ParseDataObjects env content p = (Done b, p')
    /\ parsedData_ p' = parsedData_ p.
Proof.
  intros Hline. unfold ParseDataObjects, rounds. cbn [fst open_stream buffer].
  destruct content as [| c content].
  { exists true. eexists. split; reflexivity. }
  cbn [String.length]. set (k := S (String.length content)).
  cbn [data_objects_loop]. unfold pbind at 1. unfold read_line at 1.
  unfold getline. cbn [fst snd open_stream eofbit failbit buffer orb].
  rewrite (split_at_absent _ _ Hline). cbn [empty]. subst k.
  set (line := String c content).
  set (s1 := (mkStream EmptyString true false, set_line p 0)).
  assert (spent s1) as H1 by reflexivity.
  unfold pbind at 1. unfold count_line at 1. cbn [fst snd].
  set (s2 := (fst s1, set_line (snd s1) (size_add (lineNumber_ (snd s1)) 1))).
  assert (spent s2) as H2 by reflexivity.
  assert (parsedData_ (snd s2) = parsedData_ p) as Hp2 by reflexivity.
  clearbody s2. clear s1 H1.
  destruct (TrimWhitespace_total line) as (trimmed & Etrim).
  unfold pbind at 1. rewrite Etrim. cbn [lift ret].
  destruct (substr_0 trimmed 8) as (head & Ehead).
  unfold pbind at 1. rewrite Ehead. cbn [lift ret].
  assert (forall m : P bool, forall b0 : bool,
             idle m b0 ->
             exists (r : bool) (s' : state),
               (parsed <-- m ;;
                if negb parsed then ret false
                else data_objects_loop env (S (String.length content))) s2
               = (Done r, s')
               /\ parsedData_ (snd s') = parsedData_ p) as Hdispatch.
  { intros m b0 Hm.
    destruct (dispatch_idle env (String.length content) m b0 Hm s2 H2)
      as (r & s' & E & Hp).
    exists r, s'. split; [exact E | congruence]. }
  assert (exists (r : bool) (s' : state),
             data_objects_loop env (S (String.length content)) s2 = (Done r, s')
             /\ parsedData_ (snd s') = parsedData_ p) as Hnext.
  { destruct (data_objects_loop_idle env (String.length content) s2 H2)
      as (s' & E & _ & Hp).
    exists true, s'. split; [exact E | congruence]. }
  assert (forall (r : result bool) (s' : state) (b0 : bool),
             r = Done b0 -> parsedData_ (snd s') = parsedData_ p ->
             exists (b : bool) (p' : XFileParser),
               (let '(r0, s0) := (r, s') in (r0, snd s0)) = (Done b, p')
               /\ parsedData_ p' = parsedData_ p) as Hwrap.
  { intros r s' b0 -> Hp. exists b0, (snd s'). split; [reflexivity | exact Hp]. }
  destruct (empty trimmed || Ascii.eqb (char_at trimmed 0) "/"
            || String.eqb head "template").
  { destruct Hnext as (r & s' & E & Hp). rewrite E. eapply Hwrap; eauto. }
  destruct (negb (find_char "{" trimmed =? npos)).
  2:{ destruct Hnext as (r & s' & E & Hp). rewrite E. eapply Hwrap; eauto. }
  match goal with
  | |- context [substr trimmed 0 ?n] => destruct (substr_0 trimmed n) as (cut & Ecut)
  end.
  unfold pbind at 1. rewrite Ecut. cbn [lift ret].
  destruct (TrimWhitespace_total cut) as (objectType & Etype).
  unfold pbind at 1. rewrite Etype. cbn [lift ret].
  destruct (String.eqb objectType "Mesh").
  { destruct (Hdispatch _ _ (ParseMeshObject_idle env)) as (r & s' & E & Hp).
    rewrite E. eapply Hwrap; eauto. }
  destruct (String.eqb objectType "Frame").
  { destruct (Hdispatch _ _ SkipToClosingBrace_idle) as (r & s' & E & Hp).
    unfold ParseFrameObject. rewrite E. eapply Hwrap; eauto. }
  destruct (String.eqb objectType "AnimationSet").
  { destruct (Hdispatch _ _ (ParseAnimationSetObject_idle env)) as (r & s' & E & Hp).
    rewrite E. eapply Hwrap; eauto. }
  destruct (String.eqb objectType "Material").
  { destruct (Hdispatch _ _ (ParseMaterialObject_idle env)) as (r & s' & E & Hp).
    rewrite E. eapply Hwrap; eauto. }
  destruct (SkipToClosingBrace_idle s2 H2) as (s3 & E3 & H3 & Hp3).
  unfold pbind at 1. rewrite E3.
  destruct (data_objects_loop_idle env (String.length content) s3 H3)
    as (s' & E & _ & Hp).
  rewrite E. eapply Hwrap; [reflexivity | congruence].
Qed.

Lemma has_char_substring (c : ascii) (s : string) :
  has_char c s = false ->
  forall n m : nat, has_char c (String.substring n m s) = false.
Proof.
  induction s as [| d s IH]; intros H n m.
  - destruct n, m; reflexivity.
  - apply has_char_cons in H. destruct H as [Hd Hs].
    destruct n as [| n]; destruct m as [| m]; cbn [String.substring has_char];
      try reflexivity.
    + rewrite Hd. cbn [orb]. apply (IH Hs).
    + apply (IH Hs).
    + apply (IH Hs).
Qed.

Lemma PreprocessTextContent_single_line (content : string) :
  has_char newline (PreprocessTextContent content) = false.
Proof.
  unfold PreprocessTextContent, NormalizeWhitespace.
  destruct (has_char newline (normalize_from (RemoveComments content) false)) eqn:E;
    [| reflexivity].
  apply (normalize_from_spaces _ false newline) in E; [discriminate | reflexivity].
Qed.

(** What of the parser's data a parse is meant to fill. *)
Lemma ParseTextFormat_reads_nothing (env : Platform) (content : string) (p : XFileParser) :
  exists (r : result bool) (p' : XFileParser),
    ParseTextFormat env content p = (r, p')
    /\ parsedData_ p' = parsedData_ p
    /\ ((exists b : bool, r = Done b) \/ (exists e : raised, r = Failed (Raised e))).
Proof.
  unfold ParseTextFormat.
  destruct (substr (PreprocessTextContent content) 16 npos) as [dataContent | f] eqn:E.
  - unfold ParseTemplateDefinitions. destruct (regex_raises env dataContent).
    + eexists. eexists. split; [reflexivity |]. split; [reflexivity |].
      right. eexists. reflexivity.
    + assert (has_char newline dataContent = false) as Hline.
      { unfold substr in E.
        destruct (16 >? size (PreprocessTextContent content)); [discriminate |].
        injection E as <-. apply has_char_substring.
        apply PreprocessTextContent_single_line. }
      destruct (ParseDataObjects_single_line env dataContent p Hline)
        as (b & p' & Ep & Hp).
      exists (Done b), p'. split; [exact Ep |]. split; [exact Hp |].
      left. exists b. reflexivity.
  - eexists. eexists. split; [reflexivity |]. split; [reflexivity |].
    right. eexists. reflexivity.
Qed.

Lemma fold_AddParseError_data (f : ValidationError -> string)
      (errors : list ValidationError) :
  forall p : XFileParser,
    let q := fold_left (fun q error => AddParseError (f error) q) errors p in
    meshData (parsedData_ q) = meshData (parsedData_ p)
    /\ parseSuccessful (parsedData_ q) = parseSuccessful (parsedData_ p).
Proof.
  induction errors as [| e errors IH]; intros p; cbn [fold_left].
  - split; reflexivity.
  - destruct (IH (AddParseError (f e) p)) as [Hm Hs]. cbn zeta in *.
    rewrite Hm, Hs. split; reflexivity.
Qed.

Lemma fold_AddParseWarning_data (warnings : list string) :
  forall p : XFileParser,
    let q := fold_left (fun q warning => AddParseWarning warning q) warnings p in
    meshData (parsedData_ q) = meshData (parsedData_ p)
    /\ parseSuccessful (parsedData_ q) = parseSuccessful (parsedData_ p).
Proof.
  induction warnings as [| w warnings IH]; intros p; cbn [fold_left].
  - split; reflexivity.
  - destruct (IH (AddParseWarning w p)) as [Hm Hs]. cbn zeta in *.
    rewrite Hm, Hs. split; reflexivity.
Qed.

Lemma ValidateParsedData_data (env : Platform) (p : XFileParser) :
  fst (ValidateParsedData env p)
  = is_empty (GetValidationErrors (meshData (parsedData_ p)))
  /\ meshData (parsedData_ (snd (ValidateParsedData env p))) = meshData (parsedData_ p)
  /\ parseSuccessful (parsedData_ (snd (ValidateParsedData env p)))
     = parseSuccessful (parsedData_ p).
Proof.
  unfold ValidateParsedData. cbn [fst snd]. split; [reflexivity |].
  match goal with
  | |- context [fold_left _ ?ws (fold_left ?g ?es p)] =>
      destruct (fold_AddParseWarning_data ws (fold_left g es p)) as [Hm Hs]
  end.
  cbn zeta in *. rewrite Hm, Hs.
  exact (fold_AddParseError_data (describe env) _ p).
Qed.

Lemma with_rate_keyframes (g : float) (anims : list XAnimationSet) :
  map keyframes (map (with_rate g) anims) = map keyframes anims.
Proof.
  induction anims as [| a anims IH]; [reflexivity |].
  cbn [map]. rewrite IH. unfold with_rate.
  destruct (fle (ticksPerSecond a) f0); reflexivity.
Qed.

(** The first part of a parse touches neither the mesh, nor the success
    flag, nor the additional meshes; and only the text format gets past
    it. *)
Lemma parse_format_frame (env : Platform) (content : string) (p : XFileParser) :
  exists (r : result bool) (q : XFileParser),
    parse_format env content p = (r, q)
    /\ ((exists b : bool, r = Done b) \/ (exists e : raised, r = Failed (Raised e)))
    /\ meshData (parsedData_ q) = meshData (parsedData_ p)
    /\ parseSuccessful (parsedData_ q) = parseSuccessful (parsedData_ p)
    /\ meshes (parsedData_ q) = meshes (parsedData_ p).
Proof.
  unfold parse_format.
  destruct (ParseHeader content (header (parsedData_ p))) as [ok h].
  set (p1 := set_data p (set_header (parsedData_ p) h)).
  assert (meshData (parsedData_ p1) = meshData (parsedData_ p)) as Hm1 by reflexivity.
  assert (parseSuccessful (parsedData_ p1) = parseSuccessful (parsedData_ p)) as Hs1
      by reflexivity.
  assert (meshes (parsedData_ p1) = meshes (parsedData_ p)) as Hl1 by reflexivity.
  clearbody p1.
  destruct ok; cbn [negb].
  2:{ eexists. eexists. split; [reflexivity |].
      split; [left; eexists; reflexivity |]. repeat split; assumption. }
  destruct (format (header (parsedData_ p1))).
  - destruct (ParseTextFormat_reads_nothing env content p1) as (r & q & E & Hq & Hr).
    exists r, q. split; [exact E |]. split; [exact Hr |]. rewrite Hq.
    repeat split; assumption.
  - eexists. eexists. split; [reflexivity |].
    split; [left; eexists; reflexivity |]. repeat split; assumption.
  - eexists. eexists. split; [reflexivity |].
    split; [left; eexists; reflexivity |]. repeat split; assumption.
Qed.

Lemma parse_guarded_reads_nothing (env : Platform) (content : string) (p : XFileParser) :
  exists (r : result bool) (p' : XFileParser),
    parse_guarded env content p = (r, p')
    /\ ((exists b : bool, r = Done b) \/ (exists e : raised, r = Failed (Raised e)))
    /\ objects (parsedData_ p') = objects (parsedData_ p)
    /\ (vertices (meshData (parsedData_ p)) = [] ->
        r <> Done true
        /\ parseSuccessful (parsedData_ p') = parseSuccessful (parsedData_ p)).
Proof.
  unfold parse_guarded.
  assert (forall (r : result bool) (q : XFileParser),
             r = Done false \/ (exists e : raised, r = Failed (Raised e)) ->
             objects (parsedData_ q) = objects (parsedData_ p) ->
             parseSuccessful (parsedData_ q) = parseSuccessful (parsedData_ p) ->
             exists (r' : result bool) (p' : XFileParser),
               (r, q) = (r', p')
               /\ ((exists b : bool, r' = Done b)
                   \/ (exists e : raised, r' = Failed (Raised e)))
               /\ objects (parsedData_ p') = objects (parsedData_ p)
               /\ (vertices (meshData (parsedData_ p)) = [] ->
                   r' <> Done true
                   /\ parseSuccessful (parsedData_ p') = parseSuccessful (parsedData_ p)))
    as Hfalse.
  { intros r q Hr Ho Hs. exists r, q. split; [reflexivity |].
    split; [destruct Hr as [-> | [e ->]]; [left | right]; eexists; reflexivity |].
    split; [exact Ho |]. intros _.
    split; [destruct Hr as [-> | [e ->]]; discriminate | exact Hs]. }
  destruct (parse_format_frame env content p) as (r & q & -> & Hr & Hm & Hs & _).
  destruct Hr as [[b ->] | [e ->]].
  2:{ destruct e;
        (apply Hfalse; [right; eexists; reflexivity | unfold objects; rewrite Hm; reflexivity
                       | exact Hs]). }
  destruct b.
  2:{ apply Hfalse; [left; reflexivity | unfold objects; rewrite Hm; reflexivity
                    | exact Hs]. }
  unfold finish_parse.
  set (q1 := set_data q (ExtractTimingInformation (parsedData_ q))).
  set (q2 := set_data q1 (with_bones (parsedData_ q1)
                            (BuildSkeletonHierarchy (bones (meshData (parsedData_ q1)))))).
  assert (objects (parsedData_ q2) = objects (parsedData_ p)
          /\ parseSuccessful (parsedData_ q2) = parseSuccessful (parsedData_ p))
    as (Ho & Hs2).
  { subst q2 q1. unfold objects, ExtractTimingInformation.
    destruct (first_explicit_rate (animations (meshData (parsedData_ q)))) as [ticks found].
    cbn. rewrite with_rate_keyframes, Hm, Hs. split; reflexivity. }
  clearbody q2. clear q1.
  destruct (ValidateParsedData_data env q2) as (Hvalid & Hvm & Hvs).
  destruct (ValidateParsedData env q2) as [valid q3]. cbn [fst snd] in *.
  assert (objects (parsedData_ q3) = objects (parsedData_ p)) as Ho3.
  { rewrite <- Ho. unfold objects. rewrite Hvm. reflexivity. }
  destruct valid; cbn [negb].
  - exists (Done true). eexists. split; [reflexivity |].
    split; [left; eexists; reflexivity |]. split; [exact Ho3 |].
    intros Hempty. exfalso.
    assert (vertices (meshData (parsedData_ q2)) = []) as Hq2.
    { unfold objects in Ho. injection Ho as Hv _ _ _. rewrite Hv. exact Hempty. }
    unfold GetValidationErrors in Hvalid. rewrite Hq2 in Hvalid. discriminate.
  - apply Hfalse; [left; reflexivity | exact Ho3 | cbn; congruence].
Qed.

Lemma ParseFromString_objects
        (env : Platform) (content : string) (p : XFileParser) :
  exists (b : bool) (p' : XFileParser),
    ParseFromString env content p = (Done b, p')
    /\ objects (parsedData_ p') = objects (parsedData_ p)
    /\ (vertices (meshData (parsedData_ p)) = [] ->
        b = false
        /\ parseSuccessful (parsedData_ p') = parseSuccessful (parsedData_ p)).
Proof.
  unfold ParseFromString. destruct (empty content).
  { exists false. eexists. split; [reflexivity |]. split; [reflexivity |].
    intros _. split; reflexivity. }
  destruct (parse_guarded_reads_nothing env content p) as (r & p' & -> & Hr & Ho & Hv).
  destruct Hr as [[b ->] | [e ->]].
  - exists b, p'. split; [reflexivity |]. split; [exact Ho |].
    intros Hempty. destruct (Hv Hempty) as [Hb Hs]. split; [| exact Hs].
    destruct b; [contradiction Hb; reflexivity | reflexivity].
  - exists false. eexists. split; [reflexivity |]. split; [exact Ho |].
    intros Hempty. split; [reflexivity |]. exact (proj2 (Hv Hempty)).
Qed.

Lemma remove_from_seven_bit (content : string) :
  seven_bit content = true ->
  forall (prev : option ascii) (mode : scan_mode) (skip : bool),
    seven_bit (remove_from content prev mode skip) = true.
Proof.
  induction content as [| c rest IH]; intros H prev mode skip.
  - reflexivity.
  - cbn [seven_bit] in H. apply andb_true_iff in H. destruct H as [Hc Hrest].
    cbn [remove_from]. destruct skip; [apply IH; exact Hrest |].
    destruct mode;
      repeat match goal with
             | |- context [if ?b then _ else _] => destruct b
             end;
      cbn [seven_bit]; rewrite ?Hc; cbn [andb]; apply IH; exact Hrest.
Qed.

Lemma RemoveComments_seven_bit (content : string) :
  seven_bit content = true -> seven_bit (RemoveComments content) = true.
Proof. intros H. apply remove_from_seven_bit. exact H. Qed.

(** X23: the text parser reads no object.  The preprocessing leaves no line
    break in the content, so the object parsers, which read line by line,
    find the stream at its end.  For a content that, once its comments are
    removed, holds no byte from 0x80 up (every seven-bit content is one),
    and whatever the state of the parser, [ParseFromString] returns, and
    the vertices, faces, materials and keyframes of the model are those the
    parser held before.  A parser without vertices, such as a new one or
    one that [ParseFile] has just reset, therefore returns [false] and
    leaves [parseSuccessful] as it was.  (With a byte from 0x80 up the
    whitespace test of the preprocessing is called outside its domain, and
    nothing is stated.) *)
Theorem ParseFromString_reads_no_object
        (env : Platform) (content : string) (p : XFileParser) :
  seven_bit (RemoveComments content) = true ->
  exists (b : bool) (p' : XFileParser),
    ParseFromString env content p = (Done b, p')
    /\ objects (parsedData_ p') = objects (parsedData_ p)
    /\ (vertices (meshData (parsedData_ p)) = [] ->
        b = false
        /\ parseSuccessful (parsedData_ p') = parseSuccessful (parsedData_ p)).
Proof. intros _. exact (ParseFromString_objects env content p). Qed.

Lemma ParseFromString_reads_no_object_witness :
  seven_bit (RemoveComments sample_text) = true
  /\ fst (ParseFromString sample_platform sample_text XFileParser_new) = Done false.
Proof.
  split; [reflexivity |].
  destruct (ParseFromString_reads_no_object sample_platform sample_text XFileParser_new
                                            eq_refl)
    as (b & p' & E & _ & H).
  rewrite E. destruct (H eq_refl) as [-> _]. reflexivity.
Defined.

(* ------------------------------------------------------------------------- *)
(** ** Skipping an object *)

Lemma split_at_line (line rest : string) :
  has_char newline line = false ->
  split_at newline (line ++ String newline rest) = (line, Some rest).
Proof.
  induction line as [| c line IH]; intros H.
  - reflexivity.
  - apply has_char_cons in H. destruct H as [Hc H].
    cbn [String.append split_at]. rewrite Hc, (IH H). reflexivity.
Qed.

Lemma read_line_next (line rest : string) (p : XFileParser) :
  has_char newline line = false ->
  read_line (open_stream (line ++ String newline rest), p)
  = (Done (Some line), (open_stream rest, p)).
Proof.
  intros H. unfold read_line, getline, open_stream.
  cbn [fst snd eofbit failbit buffer orb]. rewrite (split_at_line _ _ H). reflexivity.
Qed.

Lemma count_braces_plain (line : string) (n : Z) :
  has_char "{" line = false -> has_char "}" line = false ->
  count_braces line n = Some n.
Proof.
  induction line as [| c line IH]; intros Ho Hc; [reflexivity |].
  apply has_char_cons in Ho. destruct Ho as [Ho1 Ho].
  apply has_char_cons in Hc. destruct Hc as [Hc1 Hc].
  cbn [count_braces]. unfold count_brace. rewrite Ho1, Hc1. exact (IH Ho Hc).
Qed.

Lemma append_assoc_text (a b c : string) :
  ((a ++ b) ++ c)%string = (a ++ (b ++ c))%string.
Proof. induction a as [| x a IH]; cbn; [| rewrite IH]; reflexivity. Qed.

Lemma skip_loop_lines (close next rest : string) (lines : list string) :
  Forall (fun l => has_char newline l = false
                   /\ has_char "{" l = false /\ has_char "}" l = false) lines ->
  has_char newline close = false ->
  count_braces close 1 = Some 0 ->
  has_char newline next = false ->
  forall (fuel : nat) (p : XFileParser),
    (List.length lines + 2 <= fuel)%nat ->
    skip_loop fuel 1
      (open_stream (unlines lines ++ close ++ String newline (next ++ String newline rest)),
       p)
    = (Done true,
       (open_stream rest,
        set_line p (Nat.iter (S (List.length lines)) (fun n => size_add n 1)
                             (lineNumber_ p)))).
Proof.
  intros Hlines Hclose Hcount Hnext.
  induction Hlines as [| l lines (Hl & Ho & Hc) _ IH]; intros fuel p Hfuel.
  - destruct fuel as [| [| fuel]]; cbn [List.length] in Hfuel; try lia.
    cbn [unlines String.append skip_loop]. unfold pbind.
    rewrite (read_line_next _ _ _ Hclose). cbn [Z.gtb Z.compare].
    unfold count_line. cbn [fst snd]. rewrite Hcount.
    rewrite (read_line_next _ _ _ Hnext). reflexivity.
  - destruct fuel as [| fuel]; cbn [List.length] in Hfuel; try lia.
    cbn [unlines]. rewrite append_assoc_text. cbn [String.append skip_loop].
    unfold pbind. rewrite (read_line_next _ _ _ Hl). cbn [Z.gtb Z.compare].
    unfold count_line. cbn [fst snd]. rewrite (count_braces_plain l 1 Ho Hc).
    rewrite IH by lia. cbn [lineNumber_ set_line List.length].
    rewrite (Nat.iter_succ_r (S (List.length lines))). reflexivity.
Qed.

Lemma length_append_text (a b : string) :
  String.length (a ++ b) = (String.length a + String.length b)%nat.
Proof. induction a as [| x a IH]; cbn; [| rewrite IH]; reflexivity. Qed.

Lemma length_unlines (lines : list string) :
  (List.length lines <= String.length (unlines lines))%nat.
Proof.
  induction lines as [| l lines IH]; cbn [unlines List.length]; [lia |].
  rewrite length_append_text. cbn [String.length]. lia.
Qed.

(** X24: skipping an object takes one line too many.  On a stream that
    holds lines without braces, then a line that closes the object, then
    any further line, [SkipToClosingBrace] consumes that further line as
    well, without counting it in [lineNumber_]: the loop reads a line
    before it looks at the brace count. *)
Theorem SkipToClosingBrace_takes_one_more_line
        (lines : list string) (close next rest : string) (p : XFileParser) :
  Forall (fun l => has_char newline l = false
                   /\ has_char "{" l = false /\ has_char "}" l = false) lines ->
  has_char newline close = false ->
  count_braces close 1 = Some 0 ->
  has_char newline next = false ->
  SkipToClosingBrace
    (open_stream (unlines lines ++ close ++ String newline (next ++ String newline rest)),
     p)
  = (Done true,
     (open_stream rest,
      set_line p (Nat.iter (S (List.length lines)) (fun n => size_add n 1)
                           (lineNumber_ p)))).
Proof.
  intros Hlines Hclose Hcount Hnext. unfold SkipToClosingBrace.
  apply skip_loop_lines; try assumption.
  unfold rounds. cbn [fst open_stream buffer].
  rewrite !length_append_text. cbn [String.length]. rewrite length_append_text.
  cbn [String.length]. pose proof (length_unlines lines). lia.
Qed.

Lemma SkipToClosingBrace_takes_one_more_line_witness :
  SkipToClosingBrace
    (open_stream (unlines [" 1;"; " 0;0;1;;"; " }"; "Material {"; " 1;1;1;1;;"; "}"])%string,
     XFileParser_new)
  = (Done true, (open_stream (unlines [" 1;1;1;1;;"; "}"])%string, set_line XFileParser_new 3)).
Proof.
  apply (SkipToClosingBrace_takes_one_more_line
           [" 1;"; " 0;0;1;;"]%string " }"%string "Material {"%string
           (unlines [" 1;1;1;1;;"; "}"]%string) XFileParser_new).
  - repeat constructor.
  - reflexivity.
  - reflexivity.
  - reflexivity.
Defined.

Import CommandLine.

(* ------------------------------------------------------------------------- *)
(** ** The command line *)

Lemma file_argument_is_no_option (arg : string) :
  file_argument arg = true ->
  String.eqb arg "--help" = false /\ String.eqb arg "-h" = false
  /\ String.eqb arg "--version" = false /\ String.eqb arg "-v" = false
  /\ String.eqb arg "--verbose" = false /\ String.eqb arg "--strict" = false
  /\ String.eqb arg "--no-timing-validation" = false
  /\ String.eqb arg "--no-report" = false
  /\ String.eqb arg "--output" = false /\ String.eqb arg "-o" = false
  /\ String.eqb arg "--log-level" = false
  /\ Ascii.eqb (char_at arg 0) "-" = false /\ empty arg = false.
Proof.
  unfold file_argument. intros H. apply andb_true_iff in H. destruct H as [Hne Hc].
  apply negb_true_iff in Hne. apply negb_true_iff in Hc.
  destruct arg as [| c arg]; [discriminate |].
  unfold char_at in *. cbn [String.get] in *.
  assert (forall t : string, String.eqb (String c arg) (String "-" t) = false) as Hno.
  { intros t. cbn [String.eqb]. rewrite Hc. reflexivity. }
  repeat split; try apply Hno; assumption.
Qed.

Lemma argument_loop_switch (arg : string) (rest : list string) (o : ConversionOptions) :
  switch arg = true ->
  exists o' : ConversionOptions,
    argument_loop (arg :: rest) o = argument_loop rest o'
    /\ inputFile o' = inputFile o.
Proof.
  unfold switch. intros H.
  destruct (String.eqb arg "--verbose") eqn:E1.
  { apply String.eqb_eq in E1. subst arg. eexists. split; reflexivity. }
  destruct (String.eqb arg "--strict") eqn:E2.
  { apply String.eqb_eq in E2. subst arg. eexists. split; reflexivity. }
  destruct (String.eqb arg "--no-timing-validation") eqn:E3.
  { apply String.eqb_eq in E3. subst arg. eexists. split; reflexivity. }
  destruct (String.eqb arg "--no-report") eqn:E4.
  { apply String.eqb_eq in E4. subst arg. eexists. split; reflexivity. }
  discriminate.
Qed.

Lemma argument_loop_switches (flags rest : list string) :
  forallb switch flags = true ->
  forall o : ConversionOptions,
    exists o' : ConversionOptions,
      argument_loop (flags ++ rest) o = argument_loop rest o'
      /\ inputFile o' = inputFile o.
Proof.
  induction flags as [| flag flags IH]; intros H o.
  - exists o. split; reflexivity.
  - cbn [forallb] in H. apply andb_true_iff in H. destruct H as [Hf H].
    destruct (argument_loop_switch flag (flags ++ rest) o Hf) as (o1 & E1 & H1).
    destruct (IH H o1) as (o2 & E2 & H2).
    exists o2. cbn [List.app]. rewrite E1, E2. split; [reflexivity | congruence].
Qed.

(** X25: the argument after the log level is lost.  After any switches,
    [--log-level LEVEL] followed by the input file makes the parse fail,
    the file name being stepped over; this is the order of the third
    example of the usage text.  With the file placed before
    [--log-level LEVEL] the parse succeeds with that file and level. *)
Theorem ParseCommandLine_log_level_loses_next_argument
        (program : string) (flags : list string) (levelStr file : string)
        (level : LogLevel) :
  forallb switch flags = true ->
  level_named levelStr = Some level ->
  file_argument file = true ->
  (exists o : ConversionOptions,
      ParseCommandLine (program :: flags ++ ["--log-level"%string; levelStr; file])
                       ConversionOptions_default
      = Returned false o)
  /\ (exists o : ConversionOptions,
         ParseCommandLine (program :: flags ++ [file; "--log-level"%string; levelStr])
                          ConversionOptions_default
         = Returned true o
         /\ inputFile o = file /\ logLevel o = level).
Proof.
  intros Hflags Hlevel Hfile.
  assert (forall tail : list string,
             ParseCommandLine (program :: flags ++ tail) ConversionOptions_default
             = argument_loop (flags ++ tail) ConversionOptions_default) as Hparse.
  { intros tail. unfold ParseCommandLine. cbn [List.length tl].
    destruct tail as [| t tail].
    - rewrite app_nil_r. destruct flags; reflexivity.
    - rewrite length_app. cbn [List.length].
      replace (S (List.length flags + S (List.length tail)))%nat
        with (S (S (List.length flags + List.length tail)))%nat by lia.
      reflexivity. }
  split.
  - rewrite Hparse.
    destruct (argument_loop_switches flags ["--log-level"%string; levelStr; file]
                                     Hflags ConversionOptions_default)
      as (o1 & -> & H1).
    cbn [argument_loop]. cbn [String.eqb Ascii.eqb Bool.eqb orb andb].
    rewrite Hlevel. cbn [argument_loop]. unfold after_loop.
    cbn [set_logLevel inputFile]. rewrite H1. eexists. reflexivity.
  - rewrite Hparse.
    destruct (argument_loop_switches flags [file; "--log-level"%string; levelStr]
                                     Hflags ConversionOptions_default)
      as (o1 & -> & H1).
    destruct (file_argument_is_no_option file Hfile)
      as (E1 & E2 & E3 & E4 & E5 & E6 & E7 & E8 & E9 & E10 & E11 & E12 & E13).
    cbn [argument_loop]. rewrite E1, E2, E3, E4, E5, E6, E7, E8, E9, E10, E11, E12.
    cbn [orb negb]. rewrite H1. cbn [ConversionOptions_default inputFile empty].
    cbn [String.eqb Ascii.eqb Bool.eqb orb andb].
    rewrite Hlevel. unfold after_loop. cbn [set_logLevel set_inputFile inputFile].
    rewrite E13. eexists. split; [reflexivity |]. split; reflexivity.
Qed.

Lemma ParseCommandLine_log_level_loses_next_argument_witness :
  exists o : ConversionOptions,
    ParseCommandLine ["x2fbx"; "--strict"; "--log-level"; "debug"; "model.x"]%string
                     ConversionOptions_default
    = Returned false o.
Proof.
  exact (proj1 (ParseCommandLine_log_level_loses_next_argument
                  "x2fbx"%string ["--strict"%string] "debug"%string "model.x"%string DEBUG
                  eq_refl eq_refl eq_refl)).
Defined.

Lemma argument_loop_success (n : nat) :
  forall (args : list string) (o o' : ConversionOptions),
    (List.length args <= n)%nat ->
    argument_loop args o = Returned true o' ->
    empty (inputFile o') = false
    /\ (inputFile o' = inputFile o
        \/ (In (inputFile o') args /\ Ascii.eqb (char_at (inputFile o') 0) "-" = false)).
Proof.
  induction n as [| n IH]; intros args o o' Hn H.
  - destruct args; [| cbn in Hn; lia]. cbn in H. injection H as H <-.
    apply negb_true_iff in H. split; [exact H | left; reflexivity].
  - destruct args as [| arg rest].
    { cbn in H. injection H as H <-.
      apply negb_true_iff in H. split; [exact H | left; reflexivity]. }
    cbn [List.length] in Hn. cbn [argument_loop] in H.
    assert (forall (tail : list string) (o1 : ConversionOptions),
               (List.length tail <= n)%nat ->
               (forall x : string, In x tail -> In x (arg :: rest)) ->
               inputFile o1 = inputFile o ->
               argument_loop tail o1 = Returned true o' ->
               empty (inputFile o') = false
               /\ (inputFile o' = inputFile o
                   \/ (In (inputFile o') (arg :: rest)
                       /\ Ascii.eqb (char_at (inputFile o') 0) "-" = false))) as Hrec.
    { intros tail o1 Hlen Hin Ho1 Htail.
      destruct (IH tail o1 o' Hlen Htail) as [He [Hsame | [Hi Hc]]].
      - split; [exact He | left; congruence].
      - split; [exact He | right; split; [apply Hin; exact Hi | exact Hc]]. }
    destruct (String.eqb arg "--help" || String.eqb arg "-h"); [discriminate |].
    destruct (String.eqb arg "--version" || String.eqb arg "-v"); [discriminate |].
    destruct (String.eqb arg "--verbose").
    { refine (Hrec rest _ _ _ _ H); [lia | intros; right; assumption | reflexivity]. }
    destruct (String.eqb arg "--strict").
    { refine (Hrec rest _ _ _ _ H); [lia | intros; right; assumption | reflexivity]. }
    destruct (String.eqb arg "--no-timing-validation").
    { refine (Hrec rest _ _ _ _ H); [lia | intros; right; assumption | reflexivity]. }
    destruct (String.eqb arg "--no-report").
    { refine (Hrec rest _ _ _ _ H); [lia | intros; right; assumption | reflexivity]. }
    destruct (String.eqb arg "--output" || String.eqb arg "-o").
    { destruct rest as [| directory rest']; [discriminate |]. cbn [List.length] in Hn.
      refine (Hrec rest' _ _ _ _ H); [lia | intros; right; right; assumption | reflexivity]. }
    destruct (String.eqb arg "--log-level").
    { destruct rest as [| levelStr rest']; [discriminate |]. cbn [List.length] in Hn.
      destruct (level_named levelStr) as [level |]; [| discriminate].
      destruct rest' as [| skipped rest''].
      - unfold after_loop in H. injection H as H <-. apply negb_true_iff in H.
        split; [exact H | left; reflexivity].
      - cbn [List.length] in Hn.
        refine (Hrec rest'' _ _ _ _ H);
          [lia | intros; right; right; right; assumption | reflexivity]. }
    destruct (Ascii.eqb (char_at arg 0) "-") eqn:Edash; cbn [negb] in H; [discriminate |].
    destruct (empty (inputFile o)) eqn:Eempty; [| discriminate].
    destruct (IH rest (set_inputFile o arg) o' ltac:(lia) H) as [He [Hsame | [Hi Hc]]].
    + cbn [set_inputFile inputFile] in Hsame. split; [exact He |]. right.
      rewrite Hsame. split; [left; reflexivity | exact Edash].
    + split; [exact He |]. right. split; [right; exact Hi | exact Hc].
Qed.

(** X26: a successful parse of the command line names an input file.  When
    [ParseCommandLine] returns [true] on options without input file, the
    input file of the result is one of the arguments after the program
    name, it is not empty and it does not begin with a dash. *)
Theorem ParseCommandLine_success_names_input_file
        (argv : list string) (o o' : ConversionOptions) :
  inputFile o = EmptyString ->
  ParseCommandLine argv o = Returned true o' ->
  In (inputFile o') (tl argv) /\ file_argument (inputFile o') = true.
Proof.
  intros Hempty H. unfold ParseCommandLine in H.
  destruct (Nat.ltb (List.length argv) 2); [discriminate |].
  destruct (argument_loop_success (List.length (tl argv)) (tl argv) o o' (le_n _) H)
    as [He [Hsame | [Hi Hc]]].
  - rewrite Hsame, Hempty in He. discriminate.
  - split; [exact Hi |]. unfold file_argument. rewrite He, Hc. reflexivity.
Qed.

Lemma ParseCommandLine_success_names_input_file_witness :
  In "model.x"%string ["--log-level"; "debug"; "skipped"; "model.x"; "-o"; "out"]%string
  /\ file_argument "model.x" = true.
Proof.
  exact (ParseCommandLine_success_names_input_file
           ["x2fbx"; "--log-level"; "debug"; "skipped"; "model.x"; "-o"; "out"]%string
           ConversionOptions_default
           (mkOptions "model.x" "out" false false true true DEBUG)
           eq_refl eq_refl).
Defined.

Import Pieces.

(* ------------------------------------------------------------------------- *)
(** ** Integer lists: semicolons separate, commas do not *)

Lemma push_token_piece (token : string) (result : list Z) :
  push_token token result = Ok (result ++ piece_value token).
Proof.
  unfold push_token, piece_value.
  destruct (TrimWhitespace_total token) as (t & ->). cbn [and_then].
  destruct (negb (empty t)); [| rewrite app_nil_r; reflexivity].
  unfold ParseInt. destruct (stoi t); [reflexivity | rewrite app_nil_r; reflexivity].
Qed.

Lemma split_at_pieces (buf : string) :
  match split_at ";" buf with
  | (tok, Some rest) => semicolon_pieces buf = tok :: semicolon_pieces rest
  | (tok, None) =>
      tok = buf /\ semicolon_pieces buf = if empty tok then [] else [tok]
  end.
Proof.
  induction buf as [| c buf IH]; [split; reflexivity |].
  cbn [split_at semicolon_pieces]. destruct (Ascii.eqb c ";"); [reflexivity |].
  destruct (split_at ";" buf) as [tok [rest |]].
  - rewrite IH. reflexivity.
  - destruct IH as [-> ->]. split; [reflexivity |]. destruct buf; reflexivity.
Qed.

Lemma token_loop_pieces (fuel : nat) :
  forall (buf token : string) (result : list Z),
    (String.length buf + 2 <= fuel)%nat ->
    token_loop fuel (open_stream buf) token result
    = Ok (result ++ flat_map piece_value (semicolon_pieces buf)).
Proof.
  induction fuel as [| fuel IH]; intros buf token result Hfuel; [lia |].
  cbn [token_loop]. unfold getline at 1, open_stream.
  cbn [eofbit failbit buffer orb].
  pose proof (split_at_pieces buf) as Hpieces.
  destruct (split_at ";" buf) as [tok [rest |]] eqn:Esplit.
  - rewrite push_token_piece. cbn [and_then].
    change (mkStream rest false false) with (open_stream rest).
    rewrite IH by (apply split_at_shorter in Esplit; lia).
    rewrite Hpieces. cbn [flat_map]. rewrite app_assoc. reflexivity.
  - destruct Hpieces as [-> Hpieces]. rewrite Hpieces.
    destruct buf as [| c buf]; cbn [empty].
    + unfold getline. cbn [eofbit failbit orb flat_map]. rewrite app_nil_r. reflexivity.
    + rewrite push_token_piece. cbn [and_then flat_map]. rewrite app_nil_r.
      destruct fuel as [| fuel]; [cbn in Hfuel; lia |].
      cbn [token_loop]. unfold getline. cbn [eofbit failbit orb]. reflexivity.
Qed.

Lemma flat_map_piece_value_length (pieces : list string) :
  (List.length (flat_map piece_value pieces) <= List.length pieces)%nat.
Proof.
  induction pieces as [| piece pieces IH]; [apply le_n |].
  cbn [flat_map]. rewrite length_app. cbn [List.length].
  assert (List.length (piece_value piece) <= 1)%nat.
  { unfold piece_value. destruct (TrimWhitespace piece) as [t |]; [| cbn; lia].
    destruct (negb (empty t)); [| cbn; lia]. destruct (stoi t); cbn; lia. }
  lia.
Qed.

(** X27: in a list of integers the semicolons separate and the commas do
    not.  [ParseIntArray] returns, in order, the integer that [std::stoi]
    reads at the start of each piece between semicolons (nothing for a
    piece without one), so a piece contributes one value at most, whatever
    commas it holds.  A face line with fewer than four such pieces, as
    "3;0,1,2;;" with its indices separated by commas, therefore yields the
    face of the constructor. *)
Theorem ParseIntArray_splits_at_semicolons_only (data : string) :
  exists trimmed : string,
    TrimWhitespace data = Ok trimmed
    /\ ParseIntArray data
       = Ok (flat_map piece_value (semicolon_pieces (strip_trailing_separator trimmed)))
    /\ ((List.length (semicolon_pieces (strip_trailing_separator trimmed)) < 4)%nat ->
        ParseFaceLine data = Ok XFace_default).
Proof.
  destruct (TrimWhitespace_total data) as (trimmed & Etrim).
  exists trimmed. split; [exact Etrim |].
  assert (ParseIntArray data
          = Ok (flat_map piece_value
                         (semicolon_pieces (strip_trailing_separator trimmed)))) as Harray.
  { unfold ParseIntArray. rewrite Etrim. cbn [and_then].
    rewrite token_loop_pieces by lia. reflexivity. }
  split; [exact Harray |].
  intros Hfew. unfold ParseFaceLine. rewrite Harray. cbn [and_then].
  pose proof (flat_map_piece_value_length
                (semicolon_pieces (strip_trailing_separator trimmed))) as Hlen.
  destruct (Nat.leb 4 _) eqn:E; [apply Nat.leb_le in E; lia | reflexivity].
Qed.

Lemma ParseIntArray_splits_at_semicolons_only_witness :
  ParseIntArray "3;0,1,2;;" = Ok [3; 0] /\ ParseFaceLine "3;0,1,2;;" = Ok XFace_default.
Proof.
  destruct (ParseIntArray_splits_at_semicolons_only "3;0,1,2;;"%string)
    as (trimmed & Etrim & Harray & Hface).
  vm_compute in Etrim. injection Etrim as <-.
  split; [exact Harray |]. apply Hface. vm_compute. lia.
Defined.

Import MeshLines.

(* ------------------------------------------------------------------------- *)
(** ** A mesh given line by line *)

Lemma push_float_token_piece (env : Platform) (token : string) (result : list float) :
  push_float_token env token result = Ok (result ++ float_piece_value env token).
Proof.
  unfold push_float_token, float_piece_value.
  destruct (TrimWhitespace_total token) as (t & ->). cbn [and_then].
  destruct (negb (empty t)); [| rewrite app_nil_r; reflexivity].
  unfold ParseFloat. destruct (stof env t); [reflexivity | rewrite app_nil_r; reflexivity].
Qed.

Lemma float_token_loop_pieces (env : Platform) (fuel : nat) :
  forall (buf token : string) (result : list float),
    (String.length buf + 2 <= fuel)%nat ->
    float_token_loop env fuel (open_stream buf) token result
    = Ok (result ++ flat_map (float_piece_value env) (semicolon_pieces buf)).
Proof.
  induction fuel as [| fuel IH]; intros buf token result Hfuel; [lia |].
  cbn [float_token_loop]. unfold getline at 1, open_stream.
  cbn [eofbit failbit buffer orb].
  pose proof (split_at_pieces buf) as Hpieces.
  destruct (split_at ";" buf) as [tok [rest |]] eqn:Esplit.
  - rewrite push_float_token_piece. cbn [and_then].
    change (mkStream rest false false) with (open_stream rest).
    rewrite IH by (apply split_at_shorter in Esplit; lia).
    rewrite Hpieces. cbn [flat_map]. rewrite app_assoc. reflexivity.
  - destruct Hpieces as [-> Hpieces]. rewrite Hpieces.
    destruct buf as [| c buf]; cbn [empty].
    + unfold getline. cbn [eofbit failbit orb flat_map]. rewrite app_nil_r. reflexivity.
    + rewrite push_float_token_piece. cbn [and_then flat_map]. rewrite app_nil_r.
      destruct fuel as [| fuel]; [cbn in Hfuel; lia |].
      cbn [float_token_loop]. unfold getline. cbn [eofbit failbit orb]. reflexivity.
Qed.

Lemma ParseFloatArray_pieces (env : Platform) (data : string) :
  exists trimmed : string,
    TrimWhitespace data = Ok trimmed
    /\ ParseFloatArray env data
       = Ok (flat_map (float_piece_value env)
                      (semicolon_pieces (strip_trailing_separator trimmed))).
Proof.
  destruct (TrimWhitespace_total data) as (trimmed & Etrim).
  exists trimmed. split; [exact Etrim |].
  unfold ParseFloatArray. rewrite Etrim. cbn [and_then].
  rewrite float_token_loop_pieces by lia. reflexivity.
Qed.

Lemma ParseVertexLine_vertex_of (env : Platform) (line : string) :
  ParseVertexLine env line = Ok (vertex_of env line).
Proof.
  unfold vertex_of. unfold ParseVertexLine.
  destruct (ParseFloatArray_pieces env line) as (trimmed & _ & ->). cbn [and_then].
  destruct (Nat.leb 3 _); reflexivity.
Qed.

Lemma ParseFaceLine_face_of (line : string) : ParseFaceLine line = Ok (face_of line).
Proof.
  unfold face_of. unfold ParseFaceLine.
  destruct (ParseIntArray_total line) as (values & ->). cbn [and_then].
  destruct (Nat.leb 4 _); [destruct (_ && _) |]; reflexivity.
Qed.

Lemma advanced_step (p : XFileParser) (m1 m2 : XMeshData) (k : nat) :
  advanced (set_data (set_line p (size_add (lineNumber_ p) 1))
                     (set_mesh (parsedData_ p) m1)) k m2
  = advanced p (S k) m2.
Proof.
  unfold advanced. cbn [lineNumber_ parsedData_ strictMode_ verboseLogging_
                        set_data set_line].
  rewrite (Nat.iter_succ_r k). reflexivity.
Qed.

Lemma advanced_same (p : XFileParser) : advanced p 0 (meshData (parsedData_ p)) = p.
Proof. destruct p as [ln [h m ms fm fa md ok errs warns] st vb]. reflexivity. Qed.

Lemma add_vertices_nil (m : XMeshData) : add_vertices [] m = m.
Proof. destruct m. unfold add_vertices. cbn. rewrite app_nil_r. reflexivity. Qed.

Lemma add_faces_nil (m : XMeshData) : add_faces [] m = m.
Proof. destruct m. unfold add_faces. cbn. rewrite app_nil_r. reflexivity. Qed.

Lemma read_vertices_lines (env : Platform) (lines : list string) :
  single_lines lines ->
  forall (tail : string) (p : XFileParser),
    read_vertices env (List.length lines) (open_stream (unlines lines ++ tail), p)
    = (Done true,
       (open_stream tail,
        advanced p (List.length lines)
                 (add_vertices (map (vertex_of env) lines) (meshData (parsedData_ p))))).
Proof.
  intros Hlines. induction Hlines as [| l lines Hl _ IH]; intros tail p.
  - cbn [List.length read_vertices unlines String.append map].
    rewrite add_vertices_nil, advanced_same. reflexivity.
  - cbn [List.length read_vertices unlines map]. rewrite append_assoc_text.
    cbn [String.append]. unfold pbind at 1. rewrite (read_line_next _ _ _ Hl).
    unfold pbind at 1. unfold count_line at 1. cbn [fst snd].
    unfold pbind at 1. rewrite ParseVertexLine_vertex_of. cbn [lift ret].
    unfold pbind at 1. unfold push_vertex at 1, pbind, get_mesh, put_mesh.
    cbn [fst snd]. rewrite IH.
    cbn [parsedData_ set_data set_line meshData set_mesh].
    rewrite advanced_step. unfold add_vertices.
    cbn [vertices faces materials bones animations globalTicksPerSecond hasTimingInfo
         mesh_name].
    rewrite <- app_assoc. reflexivity.
Qed.

Lemma read_faces_lines (lines : list string) :
  single_lines lines ->
  forall (tail : string) (p : XFileParser),
    read_faces (List.length lines) (open_stream (unlines lines ++ tail), p)
    = (Done true,
       (open_stream tail,
        advanced p (List.length lines)
                 (add_faces (map face_of lines) (meshData (parsedData_ p))))).
Proof.
  intros Hlines. induction Hlines as [| l lines Hl _ IH]; intros tail p.
  - cbn [List.length read_faces unlines String.append map].
    rewrite add_faces_nil, advanced_same. reflexivity.
  - cbn [List.length read_faces unlines map]. rewrite append_assoc_text.
    cbn [String.append]. unfold pbind at 1. rewrite (read_line_next _ _ _ Hl).
    unfold pbind at 1. unfold count_line at 1. cbn [fst snd].
    unfold pbind at 1. rewrite ParseFaceLine_face_of. cbn [lift ret].
    unfold pbind at 1. unfold push_face at 1, pbind, get_mesh, put_mesh.
    cbn [fst snd]. rewrite IH.
    cbn [parsedData_ set_data set_line meshData set_mesh].
    rewrite advanced_step. unfold add_faces.
    cbn [vertices faces materials bones animations globalTicksPerSecond hasTimingInfo
         mesh_name].
    rewrite <- app_assoc. reflexivity.
Qed.

Lemma unlines_app (a b : list string) :
  unlines (a ++ b) = (unlines a ++ unlines b)%string.
Proof.
  induction a as [| l a IH]; [reflexivity |].
  cbn [List.app unlines]. rewrite IH, append_assoc_text. reflexivity.
Qed.

Lemma stoi_range (str : string) (value : Z) :
  stoi str = Some value -> INT_MIN <= value <= INT_MAX.
Proof.
  unfold stoi.
  destruct (match skip_spaces str with
            | String "-"%char r => (true, r)
            | String "+"%char r => (false, r)
            | _ => (false, skip_spaces str)
            end) as [negative digits].
  destruct (read_digits digits 0 false) as [magnitude seen].
  destruct (seen && (INT_MIN <=? (if negative then - magnitude else magnitude))
            && ((if negative then - magnitude else magnitude) <=? INT_MAX)) eqn:E;
    [| discriminate].
  intros H. injection H as <-.
  apply andb_true_iff in E. destruct E as [E E2].
  apply andb_true_iff in E. destruct E as [_ E1]. lia.
Qed.

Lemma read_count_of (line : string) (n : Z) (s : state) :
  count_of line = Some n -> read_count line s = (Done n, s).
Proof.
  unfold count_of, read_count. destruct (count_text line) as [text |]; [| discriminate].
  intros H. unfold pbind. cbn [lift ret]. unfold stoi_or_raise. rewrite H. reflexivity.
Qed.

Lemma reserve_count (element_size : Z) (line : string) (n : nat) (s : state) :
  count_of line = Some (Z.of_nat n) ->
  0 < element_size <= 2 ^ 32 ->
  reserve element_size (Z.of_nat n) s = (Done tt, s).
Proof.
  intros H Hsize. unfold count_of in H.
  destruct (count_text line) as [text |]; [| discriminate].
  apply stoi_range in H. unfold INT_MIN, INT_MAX in H.
  unfold reserve, vector_max_size, PTRDIFF_MAX, SIZE_MODULUS.
  rewrite Z.mod_small by lia.
  assert (Z.of_nat n <= (2 ^ 63 - 1) / element_size) as Hmax.
  { apply Z.div_le_lower_bound; [lia | nia]. }
  destruct (Z.of_nat n >? (2 ^ 63 - 1) / element_size) eqn:E; [lia | reflexivity].
Qed.

(** X28: a mesh that is given line by line is read in full.  On a stream
    that holds the vertex count, that many vertex lines, the face count,
    that many face lines and a closing brace, each on a line of its own,
    [ParseMeshObject] returns [true], appends the vertex of each vertex
    line and the face of each face line in order, counts every line, and
    leaves the stream after the closing line. *)
Theorem ParseMeshObject_reads_line_by_line
        (env : Platform) (vertexCount faceCount closing rest : string)
        (vertexLines faceLines : list string) (p : XFileParser) :
  single_lines (vertexCount :: faceCount :: closing :: vertexLines ++ faceLines) ->
  count_of vertexCount = Some (Z.of_nat (List.length vertexLines)) ->
  count_of faceCount = Some (Z.of_nat (List.length faceLines)) ->
  TrimWhitespace closing = Ok "}"%string ->
  ParseMeshObject env
    (open_stream
       (unlines (vertexCount :: vertexLines ++ faceCount :: faceLines ++ [closing]) ++ rest),
     p)
  = (Done true,
     (open_stream rest,
      advanced p (List.length vertexLines + List.length faceLines + 3)
               (add_faces (map face_of faceLines)
                          (add_vertices (map (vertex_of env) vertexLines)
                                        (meshData (parsedData_ p)))))).
Proof.
  intros Hlines Hvc Hfc Hclose. unfold single_lines in Hlines.
  inversion Hlines as [| ? ? Hl1 Hlines1]; subst.
  inversion Hlines1 as [| ? ? Hl2 Hlines2]; subst.
  inversion Hlines2 as [| ? ? Hl3 Hlines3]; subst.
  apply Forall_app in Hlines3. destruct Hlines3 as [Hv Hf].
  cbn [unlines]. rewrite unlines_app. cbn [unlines]. rewrite unlines_app.
  cbn [unlines]. rewrite !append_assoc_text. cbn [String.append].
  rewrite !append_assoc_text. cbn [String.append].
  unfold ParseMeshObject.
  unfold pbind at 1. rewrite (read_line_next _ _ _ Hl1).
  unfold pbind at 1. unfold count_line at 1. cbn [fst snd].
  unfold pbind at 1. rewrite (read_count_of _ _ _ Hvc).
  unfold pbind at 1.
  rewrite (reserve_count sizeof_XVertex _ _ _ Hvc) by (unfold sizeof_XVertex; lia).
  rewrite Nat2Z.id.
  unfold pbind at 1. rewrite (read_vertices_lines env vertexLines Hv). cbn [negb].
  unfold pbind at 1. rewrite (read_line_next _ _ _ Hl2).
  unfold pbind at 1. unfold count_line at 1. cbn [fst snd].
  unfold pbind at 1. rewrite (read_count_of _ _ _ Hfc).
  unfold pbind at 1.
  rewrite (reserve_count sizeof_XFace _ _ _ Hfc) by (unfold sizeof_XFace; lia).
  rewrite Nat2Z.id.
  rewrite !append_assoc_text. cbn [String.append].
  unfold pbind at 1. rewrite (read_faces_lines faceLines Hf). cbn [negb].
  unfold rounds. cbn [fst open_stream buffer nested_loop].
  unfold pbind at 1. rewrite (read_line_next _ _ _ Hl3).
  unfold pbind at 1. unfold count_line at 1. cbn [fst snd].
  unfold pbind at 1. rewrite Hclose. cbn [lift ret].
  change (String.eqb "}" "}") with true. cbn iota. unfold ret.
  f_equal. f_equal.
  unfold advanced.
  cbn [lineNumber_ parsedData_ strictMode_ verboseLogging_ set_data set_line set_mesh
       meshData header meshes file_materials file_animations metadata parseSuccessful
       parseErrors parseWarnings].
  f_equal.
  replace (List.length vertexLines + List.length faceLines + 3)%nat
    with (1 + (List.length faceLines + (1 + (List.length vertexLines + 1))))%nat by lia.
  rewrite !Nat.iter_add. reflexivity.
Qed.

Lemma ParseMeshObject_reads_line_by_line_witness :
  ParseMeshObject sample_platform
    (open_stream
       (unlines [" 3;"; " 0;0;0;,"; " 1;0;0;,"; " 0;1;0;;"; " 1;"; " 3;0;1;2;;"; "}"]%string),
     XFileParser_new)
  = (Done true,
     (open_stream EmptyString,
      advanced XFileParser_new 7
               (add_faces [set_indices_array 0 1 2 XFace_default]
                          (add_vertices
                             (map (vertex_of sample_platform)
                                  [" 0;0;0;,"; " 1;0;0;,"; " 0;1;0;;"]%string)
                             XMeshData_default)))).
Proof.
  assert (single_lines [" 3;"; " 1;"; "}"; " 0;0;0;,"; " 1;0;0;,"; " 0;1;0;;";
                        " 3;0;1;2;;"]%string) as Hlines.
  { repeat constructor. }
  exact (ParseMeshObject_reads_line_by_line
           sample_platform " 3;"%string " 1;"%string "}"%string EmptyString
           [" 0;0;0;,"; " 1;0;0;,"; " 0;1;0;;"]%string [" 3;0;1;2;;"]%string
           XFileParser_new Hlines eq_refl eq_refl eq_refl).
Defined.

Import Enhanced.

(* ------------------------------------------------------------------------- *)
(** ** Parsing from bytes *)

Lemma ParseFromData_never_succeeds (env : Platform) (tools : Decompressors) (fuel : nat) :
  forall (data : bytes) (e : Facade.EnhancedXFileParser),
    holds_no_vertex e ->
    (fst (ParseFromData env tools fuel data e) = Done false
     \/ fst (ParseFromData env tools fuel data e) = Failed OutOfFuel)
    /\ holds_no_vertex (snd (ParseFromData env tools fuel data e))
    /\ Facade.binaryParser_ (snd (ParseFromData env tools fuel data e))
       = Facade.binaryParser_ e.
Proof.
  induction fuel as [| fuel IH]; intros data e He.
  - cbn. split; [right; reflexivity |]. split; [exact He | reflexivity].
  - cbn [ParseFromData]. destruct (DetectDataFormat data).
    + destruct (ParseFromString_objects env (Reader.to_string data)
                                                (Facade.textParser_ e))
        as (b & p' & -> & Ho & Hv).
      cbn [fst snd Facade.binaryParser_]. destruct (Hv He) as [-> _].
      split; [left; reflexivity |]. split; [| reflexivity].
      unfold holds_no_vertex. cbn [Facade.textParser_].
      unfold objects in Ho. injection Ho as Hvs _ _ _. rewrite Hvs. exact He.
    + cbn [fst snd]. split; [left |]; [| split; [exact He | reflexivity]].
      unfold ParseBinaryData. destruct (Nat.ltb _ 16); [reflexivity |].
      destruct (_ && _); reflexivity.
    + destruct (if IsZipCompressed data then DecompressZipped data
                else if IsBzip2Compressed data then DecompressBzip2 tools data
                else if IsDirectXLZCompressed data then DecompressDirectXLZ tools data
                else None) as [decompressedData |].
      * apply IH. exact He.
      * cbn [fst snd]. split; [left; reflexivity |]. split; [exact He | reflexivity].
Qed.

(** X29: parsing from bytes never succeeds.  On an object whose text parser
    holds no vertex (a new one, for instance), [ParseFromData] does not
    return [true], whatever the bytes and whatever the decompressors
    deliver, and the text parser holds no vertex afterwards either, so the
    same is true of every later call.  For bytes that are not classified
    as compressed the call returns [false]: text goes to the text parser,
    which reads no object, and binary data to a parser that is a
    placeholder. *)
Theorem ParseFromData_never_returns_true
        (env : Platform) (tools : Decompressors) (fuel : nat) (data : bytes)
        (e : Facade.EnhancedXFileParser) :
  holds_no_vertex e ->
  fst (ParseFromData env tools fuel data e) <> Done true
  /\ holds_no_vertex (snd (ParseFromData env tools fuel data e))
  /\ (DetectDataFormat data <> COMPRESSED ->
      fst (ParseFromData env tools (S fuel) data e) = Done false).
Proof.
  intros He.
  destruct (ParseFromData_never_succeeds env tools fuel data e He) as (Hr & Hv & _).
  split; [destruct Hr as [-> | ->]; discriminate |]. split; [exact Hv |].
  intros Hformat.
  destruct (ParseFromData_never_succeeds env tools (S fuel) data e He) as ([Hr' | Hr'] & _).
  - exact Hr'.
  - exfalso. cbn [ParseFromData] in Hr'. destruct (DetectDataFormat data).
    + destruct (ParseFromString env (Reader.to_string data) (Facade.textParser_ e))
        as [r parser] eqn:E.
      cbn [fst] in Hr'. subst r.
      destruct (ParseFromString_objects env (Reader.to_string data)
                                        (Facade.textParser_ e))
        as (b & p' & E' & _). rewrite E in E'. discriminate.
    + discriminate.
    + contradiction Hformat. reflexivity.
Qed.

Lemma ParseFromData_never_returns_true_witness :
  fst (ParseFromData sample_platform no_tools 1 (chars sample_text)
                     Facade.EnhancedXFileParser_new)
  = Done false.
Proof.
  apply (ParseFromData_never_returns_true
           sample_platform no_tools 0 (chars sample_text) Facade.EnhancedXFileParser_new).
  - reflexivity.
  - vm_compute. discriminate.
Defined.

Import PatternExtraction.

(* ------------------------------------------------------------------------- *)
(** ** Extraction by pattern *)

Lemma ValidateDecompressedContent_signature (data : bytes) :
  starts_with (chars "xof ") data = true -> ValidateDecompressedContent data = true.
Proof.
  intros H. unfold ValidateDecompressedContent.
  destruct data as [| b data]; [discriminate |]. cbn [is_empty].
  rewrite find_at_start, signature_in_start, H. reflexivity.
Qed.

Lemma ValidateDecompressedContent_template (data : bytes) :
  ValidateDecompressedContent data = true ->
  starts_with (chars "xof ") data = false ->
  occurs (chars "template") data.
Proof.
  unfold ValidateDecompressedContent.
  destruct data as [| b data']; [discriminate |]. set (data := b :: data').
  cbn [is_empty]. rewrite find_at_start, signature_in_start, signature_bytes.
  intros H Hsig. rewrite Hsig in H.
  destruct (Nat.ltb 100 (List.length data)) eqn:Elen; cbn [andb] in H; [| discriminate].
  destruct (find (chars "template") (firstn (Nat.min 100 (List.length data)) data))
    eqn:Efind; [| discriminate].
  assert (occurs (chars "template") (firstn (Nat.min 100 (List.length data)) data))
    as (before & after & E).
  { apply (find_from_found _ _ 0%nat). unfold find in Efind. congruence. }
  exists before, (after ++ skipn (Nat.min 100 (List.length data)) data).
  rewrite <- (firstn_skipn (Nat.min 100 (List.length data)) data) at 1.
  rewrite E, <- !app_assoc. reflexivity.
Qed.

Lemma four_bytes_signature (rest : bytes) :
  (let d (k : nat) := nth k rest 0 in
   (d 0%nat =? 120) && (d 1%nat =? 111) && (d 2%nat =? 102) && (d 3%nat =? 32))
  && Nat.leb 4 (List.length rest)
  = starts_with (chars "xof ") rest.
Proof.
  destruct rest as [| x0 [| x1 [| x2 [| x3 rest]]]]; cbn -[Z.eqb];
    rewrite ?andb_false_r; try reflexivity.
  rewrite andb_true_r, !(Z.eqb_sym 120), !(Z.eqb_sym 111), !(Z.eqb_sym 102),
    !(Z.eqb_sym 32), <- !andb_assoc, andb_true_r. reflexivity.
Qed.

Lemma occurs_tail (needle : bytes) (b : Z) (rest : bytes) :
  starts_with needle (b :: rest) = false ->
  occurs needle (b :: rest) -> occurs needle rest.
Proof.
  intros Hno (before & after & E). destruct before as [| x before].
  - cbn [List.app] in E. assert (starts_with needle (b :: rest) = true) as H.
    { apply starts_with_iff. exists after. exact E. }
    congruence.
  - cbn [List.app] in E. injection E as _ E. exists before, after. exact E.
Qed.

Lemma occurs_length (needle hay : bytes) :
  occurs needle hay -> (List.length needle <= List.length hay)%nat.
Proof. intros (before & after & ->). rewrite !length_app. lia. Qed.

Lemma signature_scan_spec (rest : bytes) :
  forall output : bytes,
    (occurs (chars "xof ") rest ->
     exists before found : bytes,
       signature_scan rest output = (true, found)
       /\ rest = before ++ found
       /\ starts_with (chars "xof ") found = true)
    /\ (~ occurs (chars "xof ") rest -> signature_scan rest output = (false, output)).
Proof.
  induction rest as [| b rest IH]; intros output.
  - split.
    + intros H. apply occurs_length in H. cbn in H. lia.
    + reflexivity.
  - cbn [signature_scan].
    pose proof (four_bytes_signature (b :: rest)) as Hsig. cbv zeta in Hsig.
    destruct (Nat.ltb (List.length (b :: rest)) 4) eqn:Elen.
    + apply Nat.ltb_lt in Elen. split; [| reflexivity].
      intros H. apply occurs_length in H. cbn in H, Elen. lia.
    + apply Nat.ltb_ge in Elen.
      replace (Nat.leb 4 (List.length (b :: rest))) with true in Hsig
        by (symmetry; apply Nat.leb_le; exact Elen).
      rewrite andb_true_r in Hsig. cbv zeta. rewrite Hsig.
      destruct (starts_with (chars "xof ") (b :: rest)) eqn:Estart.
      * rewrite (ValidateDecompressedContent_signature _ Estart). split.
        -- intros _. exists [], (b :: rest). repeat split. exact Estart.
        -- intros Hno. contradiction Hno. apply starts_with_iff in Estart.
           destruct Estart as (after & E). exists [], after. exact E.
      * destruct (IH output) as [Hyes Hno]. split.
        -- intros H. apply (occurs_tail _ _ _ Estart) in H.
           destruct (Hyes H) as (before & found & E & Hrest & Hfound).
           exists (b :: before), found.
           split; [exact E |]. split; [rewrite Hrest; reflexivity | exact Hfound].
        -- intros H. apply Hno. intros (before & after & E). apply H.
           exists (b :: before), after. rewrite E. reflexivity.
Qed.

Lemma template_scan_spec (data rest : bytes) :
  forall output : bytes,
    (ValidateDecompressedContent data = true ->
     occurs (chars "template") rest ->
     template_scan data rest output = (true, data))
    /\ (ValidateDecompressedContent data = false ->
        fst (template_scan data rest output) = false).
Proof.
  induction rest as [| b rest IH]; intros output.
  - split; [| reflexivity]. intros _ H. apply occurs_length in H. cbn in H. lia.
  - cbn [template_scan].
    destruct (Nat.ltb (List.length (b :: rest)) 8) eqn:Elen.
    + apply Nat.ltb_lt in Elen. split; [| reflexivity].
      intros _ H. apply occurs_length in H. cbn in H, Elen. lia.
    + destruct (starts_with (chars "template") (b :: rest)) eqn:Estart.
      * split.
        -- intros -> _. reflexivity.
        -- intros Hv. rewrite Hv. apply (IH data). exact Hv.
      * split.
        -- intros Hv H. apply (IH output); [exact Hv |].
           exact (occurs_tail _ _ _ Estart H).
        -- intros Hv. apply (IH output). exact Hv.
Qed.

(** X30: extraction by pattern decompresses nothing.  On at least eight
    bytes [TryPatternBasedDecompression] returns, and it returns [true]
    exactly when the bytes contain "xof " somewhere or pass the content
    validation as they are; the output is then a tail of the input, so
    nothing has been decoded, and it passes the validation.  On fewer than
    three bytes the first loop runs off the end of the input. *)
Theorem TryPatternBasedDecompression_extracts_suffix (data output : bytes) :
  ((List.length data < 3)%nat ->
   TryPatternBasedDecompression data output = OutOfBounds)
  /\ ((8 <= List.length data)%nat ->
      exists (b : bool) (output' : bytes),
        TryPatternBasedDecompression data output = Finished b output'
        /\ (b = true <->
            occurs (chars "xof ") data \/ ValidateDecompressedContent data = true)
        /\ (b = true ->
            ValidateDecompressedContent output' = true
            /\ exists before : bytes, data = before ++ output')).
Proof.
  unfold TryPatternBasedDecompression. split.
  - intros H. apply Nat.ltb_lt in H. rewrite H. reflexivity.
  - intros H.
    destruct (Nat.ltb (List.length data) 3) eqn:E3; [apply Nat.ltb_lt in E3; lia |].
    destruct (Nat.ltb (List.length data) 8) eqn:E8; [apply Nat.ltb_lt in E8; lia |].
    destruct (signature_scan_spec data output) as [Hyes Hno].
    destruct (find (chars "xof ") data) as [i |] eqn:Efind.
    + assert (occurs (chars "xof ") data) as Hocc.
      { apply (find_from_found _ _ 0%nat). unfold find in Efind. congruence. }
      destruct (Hyes Hocc) as (before & found & -> & Hdata & Hfound).
      exists true, found. split; [reflexivity |].
      split; [split; [intros _; left; exact Hocc | reflexivity] |].
      intros _. split; [apply ValidateDecompressedContent_signature; exact Hfound |].
      exists before. exact Hdata.
    + assert (~ occurs (chars "xof ") data) as Hocc.
      { intros Hocc. apply (find_from_found _ _ 0%nat) in Hocc.
        unfold find in Efind. contradiction. }
      rewrite (Hno Hocc).
      assert (starts_with (chars "xof ") data = false) as Hstart.
      { destruct (starts_with (chars "xof ") data) eqn:Es; [| reflexivity].
        contradiction Hocc. apply starts_with_iff in Es. destruct Es as (after & Es).
        exists [], after. exact Es. }
      destruct (template_scan_spec data data output) as [Htrue Hfalse].
      destruct (ValidateDecompressedContent data) eqn:Hv.
      * rewrite (Htrue eq_refl (ValidateDecompressedContent_template data Hv Hstart)).
        exists true, data. split; [reflexivity |].
        split; [split; [intros _; right; reflexivity | reflexivity] |].
        intros _. split; [exact Hv | exists []; reflexivity].
      * specialize (Hfalse eq_refl).
        destruct (template_scan data data output) as [found2 output2].
        cbn [fst] in Hfalse. subst found2.
        exists false, output2. split; [reflexivity |].
        split; [| discriminate].
        split; [discriminate |]. intros [Ho | Hd]; [contradiction | discriminate].
Qed.

Lemma TryPatternBasedDecompression_extracts_suffix_witness :
  exists (b : bool) (output' : bytes),
    TryPatternBasedDecompression (chars "garbage xof 0303txt 0032") [] = Finished b output'
    /\ (b = true <->
        occurs (chars "xof ") (chars "garbage xof 0303txt 0032")
        \/ ValidateDecompressedContent (chars "garbage xof 0303txt 0032") = true)
    /\ (b = true ->
        ValidateDecompressedContent output' = true
        /\ exists before : bytes, chars "garbage xof 0303txt 0032" = before ++ output').
Proof.
  apply (proj2 (TryPatternBasedDecompression_extracts_suffix
                  (chars "garbage xof 0303txt 0032") [])).
  vm_compute. lia.
Defined.

(* ------------------------------------------------------------------------- *)
(** ** The states a parser can reach *)

Import Lifecycle.











